(** * The interactive layer of the generated site

    A shallow embedding of the three scripts that listen to the keyboard:
    the search overlay, the page-list navigator and the top-navigation
    shortcuts (static/script.js), followed by the properties of the
    specification that were checked against them.

    Conventions of the embedding.
    - A JavaScript string is a list of code units.  The development covers
      the code units below 256 (Latin-1), one [ascii] each; on that range
      [toLowerCase], [trim], [split(/\s+/)], [indexOf], [substring] and
      [parseInt] are modelled as ECMAScript defines them.
    - A JavaScript number that holds an index or a length is a [Z];
      [-1] is the "no selection" value of the source.
    - A handler is a function in the monad [Js S]: it threads the mutable
      variables of its closure ([S]) and either completes normally or
      throws.  Assignments made before a throw stay in the state, as in
      JavaScript. *)

From Stdlib Require Import ZArith Lia Bool List Ascii String.
From stdpp Require Import base list.
Import ListNotations.
Local Open Scope Z_scope.

(* ================================================================== *)
(** * Host model: strings                                              *)
(* ================================================================== *)

Module JsString.

Definition jsstring := list ascii.

Definition str (s : string) : jsstring := list_ascii_of_string s.

Definition code (c : ascii) : Z := Z.of_N (N_of_ascii c).
Definition fromCode (n : Z) : ascii := ascii_of_N (Z.to_N n).

Definition isChar (c : ascii) (d : ascii) : bool := Ascii.eqb c d.

Definition between (lo hi : Z) (c : ascii) : bool :=
  (lo <=? code c) && (code c <=? hi).

(** [s.length] *)
Definition len (s : jsstring) : Z := Z.of_nat (length s).

(** WhiteSpace and LineTerminator code units below 256: TAB, LF, VT, FF,
    CR, SP and NBSP.  This is the set matched by [\s] and stripped by
    [trim]. *)
Definition isWhiteSpace (c : ascii) : bool :=
  between 9 13 c || (code c =? 32) || (code c =? 160).

(** [toLowerCase] on Latin-1: A-Z, and the accented capitals U+00C0-U+00DE
    except the multiplication sign U+00D7, move up by 32. *)
Definition toLowerCaseChar (c : ascii) : ascii :=
  if between 65 90 c || (between 192 222 c && negb (code c =? 215))
  then fromCode (code c + 32)
  else c.

Definition toLowerCase (s : jsstring) : jsstring := map toLowerCaseChar s.

Fixpoint trimStart (s : jsstring) : jsstring :=
  match s with
  | [] => []
  | c :: s' => if isWhiteSpace c then trimStart s' else s
  end.

Definition trimEnd (s : jsstring) : jsstring := rev (trimStart (rev s)).

Definition trim (s : jsstring) : jsstring := trimEnd (trimStart s).

(** [a === b] on strings. *)
Fixpoint strictEq (a b : jsstring) : bool :=
  match a, b with
  | [], [] => true
  | x :: a', y :: b' => Ascii.eqb x y && strictEq a' b'
  | _, _ => false
  end.

(** [s.startsWith(t)] *)
Fixpoint startsWith (s t : jsstring) {struct t} : bool :=
  match t with
  | [] => true
  | y :: t' =>
      match s with
      | [] => false
      | x :: s' => Ascii.eqb x y && startsWith s' t'
      end
  end.

(** [s.indexOf(t)]: the search runs from the left, the first offset at
    which [t] starts is returned, [-1] when there is none. *)
Fixpoint indexOfFrom (i : Z) (s t : jsstring) : Z :=
  if startsWith s t then i
  else match s with
       | [] => -1
       | _ :: s' => indexOfFrom (i + 1) s' t
       end.

Definition indexOf (s t : jsstring) : Z := indexOfFrom 0 s t.

(** [s.includes(t)] *)
Definition includes (s t : jsstring) : bool := negb (indexOf s t =? -1).

(** [s.substring(a, b)]: both arguments are clamped to [0, s.length] and
    swapped when out of order. *)
Definition clampIndex (s : jsstring) (i : Z) : nat :=
  Z.to_nat (Z.min (Z.max i 0) (len s)).

Definition substring (s : jsstring) (a b : Z) : jsstring :=
  let a' := clampIndex s a in
  let b' := clampIndex s b in
  let lo := Nat.min a' b' in
  let hi := Nat.max a' b' in
  take (hi - lo) (drop lo s).

(** [s.split(/\s+/)]: the pieces between maximal runs of white space, the
    empty pieces at either end included.  [cur] is the piece being read, in
    reverse; [inSep] tells that the previous code unit was white space. *)
Fixpoint splitWsFrom (cur : jsstring) (inSep : bool) (s : jsstring)
  : list jsstring :=
  match s with
  | [] => [rev cur]
  | c :: s' =>
      if isWhiteSpace c
      then (if inSep then splitWsFrom [] true s'
            else rev cur :: splitWsFrom [] true s')
      else splitWsFrom (c :: cur) false s'
  end.

Definition splitWs (s : jsstring) : list jsstring := splitWsFrom [] false s.

(** [a <= b] on strings: lexicographic on code units, a proper prefix
    comes first. *)
Fixpoint leStr (a b : jsstring) : bool :=
  match a, b with
  | [], _ => true
  | _ :: _, [] => false
  | x :: a', y :: b' =>
      if code x <? code y then true
      else if code y <? code x then false
      else leStr a' b'
  end.

(** [a >= b] *)
Definition geStr (a b : jsstring) : bool := leStr b a.

Definition isDecimalDigit (c : ascii) : bool := between 48 57 c.

(** The decimal digits at the head of [s], as a number; [None] when [s]
    does not start with a digit. *)
Fixpoint parseDigits (acc : option Z) (s : jsstring) : option Z :=
  match s with
  | [] => acc
  | c :: s' =>
      if isDecimalDigit c
      then parseDigits (Some (10 * default 0 acc + (code c - 48))) s'
      else acc
  end.

(** [parseInt(s, 10)]; [None] is NaN.  The value is exact here, where
    JavaScript rounds to a double above 2^53: every comparison the sources
    make is against a list length, far below that. *)
Definition parseInt (s : jsstring) : option Z :=
  match trimStart s with
  | c :: s' =>
      if isChar c "-" then Z.opp <$> parseDigits None s'
      else if isChar c "+" then parseDigits None s'
      else parseDigits None (c :: s')
  | [] => None
  end.

End JsString.

Import JsString.

(* ================================================================== *)
(** * Host model: completions                                          *)
(* ================================================================== *)

Inductive JsError : Type :=
| SyntaxError   (* new RegExp on a malformed pattern *)
| TypeError     (* property access on undefined *)
| LibraryError. (* anything the indexing library throws *)

Inductive completion (A : Type) : Type :=
| Normal (a : A)
| Throw (e : JsError).

Arguments Normal {A} a.
Arguments Throw {A} e.

(** A computation over the mutable variables [S] of a closure. *)
Definition Js (S A : Type) : Type := S -> completion A * S.

Definition ret {S A} (a : A) : Js S A := fun s => (Normal a, s).

Definition bind {S A B} (m : Js S A) (k : A -> Js S B) : Js S B :=
  fun s =>
    match m s with
    | (Normal a, s') => k a s'
    | (Throw e, s') => (Throw e, s')
    end.

Definition get {S} : Js S S := fun s => (Normal s, s).
Definition modify {S} (f : S -> S) : Js S unit := fun s => (Normal tt, f s).
Definition throw {S A} (e : JsError) : Js S A := fun s => (Throw e, s).
Definition lift {S A} (c : completion A) : Js S A := fun s => (c, s).

(** [try { m } catch (e) { h }] *)
Definition tryCatch {S A} (m : Js S A) (h : JsError -> Js S A) : Js S A :=
  fun s =>
    match m s with
    | (Normal a, s') => (Normal a, s')
    | (Throw e, s') => h e s'
    end.

(** The state a handler leaves behind, whether it threw or not. *)
Definition exec {S A} (m : Js S A) (s : S) : S := snd (m s).
Definition outcome {S A} (m : Js S A) (s : S) : completion A := fst (m s).

(** [m] keeps the invariant [I], whether it completes or throws. *)
Definition preserves {S A} (I : S -> Prop) (m : Js S A) : Prop :=
  forall s, I s -> I (exec m s).

(** [m] completes normally from every state. *)
Definition neverThrows {S A} (m : Js S A) : Prop :=
  forall s, exists a, outcome m s = Normal a.

Declare Scope js_scope.
Delimit Scope js_scope with js.
Notation "'let*' x := m 'in' k" := (bind m (fun x => k))
  (at level 10, x name, m at level 100, k at level 200, only parsing)
  : js_scope.
Notation "m ;; k" := (bind m (fun _ => k))
  (at level 100, k at level 200, right associativity, only parsing)
  : js_scope.

(* ================================================================== *)
(** * Host model: the syntax check of [new RegExp]                     *)
(* ================================================================== *)

(** [new RegExp(p, 'gi')] throws a SyntaxError when [p] is not a Pattern
    of the ECMAScript 2024 grammar as browsers implement it (Annex B.1.2,
    no [u] or [v] flag).  The check below follows that grammar on code
    units below 256.  It reads the pattern as a sequence of tokens and then
    checks nesting and what each quantifier applies to.  Group names are
    read from their literal characters ([\u] escapes inside a name are not
    covered). *)

Module RegExpSyntax.

Inductive GroupKind : Type := Capturing | NonCapturing | Lookahead | Lookbehind.

(** What may carry a quantifier once the group is closed: everything but a
    lookbehind assertion. *)
Definition quantifiable (k : GroupKind) : bool :=
  match k with Lookbehind => false | _ => true end.

Inductive Token : Type :=
| TOpen (k : GroupKind) (name : option jsstring)
| TClose
| TBar
| TQuantifier (inOrder : bool)
| TAssertion
| TAtom
| TClass (inOrder : bool) (namedRef : bool)
| TNamedRef (name : option jsstring)
| TInvalid.

Definition peek (s : jsstring) (i : nat) (d : ascii) : bool :=
  match s !! i with Some c => isChar c d | None => false end.

Definition peekP (s : jsstring) (i : nat) (p : ascii -> bool) : bool :=
  match s !! i with Some c => p c | None => false end.

Definition isOctalDigit (c : ascii) : bool := between 48 55 c.

Definition isHexDigit (c : ascii) : bool :=
  isDecimalDigit c || between 97 102 c || between 65 70 c.

Definition hexValue (c : ascii) : Z :=
  if isDecimalDigit c then code c - 48
  else if between 97 102 c then code c - 87
  else code c - 55.

Definition isAsciiLetter (c : ascii) : bool :=
  between 65 90 c || between 97 122 c.

(** ID_Start and ID_Continue below 256, with [$] and [_]. *)
Definition isIdStart (c : ascii) : bool :=
  isAsciiLetter c || isChar c "$" || isChar c "_"
  || (code c =? 170) || (code c =? 181) || (code c =? 186)
  || (between 192 255 c && negb (code c =? 215) && negb (code c =? 247)).

Definition isIdPart (c : ascii) : bool :=
  isIdStart c || isDecimalDigit c || (code c =? 183).

(** The group name that ends at the first [>]; [acc] is the part read so
    far, in reverse. *)
Fixpoint readName (acc : jsstring) (s : jsstring) : option jsstring :=
  match s with
  | [] => None
  | c :: s' =>
      if isChar c ">"
      then match acc with [] => None | _ => Some (rev acc) end
      else if match acc with [] => isIdStart c | _ => isIdPart c end
           then readName (c :: acc) s'
           else None
  end.

(** Decimal digits at the head of [s]: their value, how many, the rest. *)
Fixpoint readDecimal (acc : Z) (n : nat) (s : jsstring) : Z * nat * jsstring :=
  match s with
  | [] => (acc, n, [])
  | c :: s' =>
      if isDecimalDigit c
      then readDecimal (10 * acc + (code c - 48)) (S n) s'
      else (acc, n, s)
  end.

(** [{n}], [{n,}] or [{n,m}] with [s] what follows the brace: whether the
    bounds are in order, and the length with both braces. *)
Definition parseBraced (s : jsstring) : option (bool * nat) :=
  let '(lo, n1, r1) := readDecimal 0 0 s in
  if (n1 =? 0)%nat then None
  else match r1 with
       | [] => None
       | c :: r2 =>
           if isChar c "}" then Some (true, (n1 + 2)%nat)
           else if isChar c "," then
             let '(hi, n2, r3) := readDecimal 0 0 r2 in
             match r3 with
             | [] => None
             | d :: _ =>
                 if isChar d "}"
                 then Some ((n2 =? 0)%nat || (lo <=? hi), (n1 + n2 + 3)%nat)
                 else None
             end
           else None
       end.

(** A quantifier may be followed by one [?] (lazy). *)
Definition withLazy (s : jsstring) (n : nat) : nat :=
  if peek s n "?" then S n else n.

(** The escape that starts at the backslash heading [s], outside a class. *)
Definition escapeAt (s : jsstring) : Token * nat :=
  match s !! 1%nat with
  | None => (TInvalid, 1%nat)
  | Some c =>
      if isChar c "b" || isChar c "B" then (TAssertion, 2%nat)
      else if isChar c "k" then
        if peek s 2 "<"
        then match readName [] (drop 3 s) with
             | Some n => (TNamedRef (Some n), (4 + length n)%nat)
             | None => (TNamedRef None, 2%nat)
             end
        else (TNamedRef None, 2%nat)
      else if isChar c "c" then
        if peekP s 2 isAsciiLetter then (TAtom, 3%nat) else (TAtom, 1%nat)
      else (TAtom, 2%nat)
  end.

(** The group that opens at the parenthesis heading [s]. *)
Definition groupAt (s : jsstring) : Token * nat :=
  if peek s 1 "?" then
    if peek s 2 ":" then (TOpen NonCapturing None, 3%nat)
    else if peek s 2 "=" || peek s 2 "!" then (TOpen Lookahead None, 3%nat)
    else if peek s 2 "<" then
      if peek s 3 "=" || peek s 3 "!" then (TOpen Lookbehind None, 4%nat)
      else match readName [] (drop 3 s) with
           | Some n => (TOpen Capturing (Some n), (4 + length n)%nat)
           | None => (TInvalid, 1%nat)
           end
    else (TInvalid, 1%nat)
  else (TOpen Capturing None, 1%nat).

(** One class atom at the head of [s] (not a closing bracket): its
    character value, [None] for a class escape such as [\d]; its length;
    whether it is [\k]. *)
Definition classAtomAt (s : jsstring) : option Z * nat * bool :=
  match s with
  | [] => (None, 1%nat, false)
  | c :: r =>
      if negb (isChar c "\") then (Some (code c), 1%nat, false)
      else match r with
           | [] => (None, 1%nat, false)
           | e :: r' =>
               if isChar e "b" then (Some 8, 2%nat, false)
               else if isChar e "d" || isChar e "D" || isChar e "s"
                       || isChar e "S" || isChar e "w" || isChar e "W"
               then (None, 2%nat, false)
               else if isChar e "f" then (Some 12, 2%nat, false)
               else if isChar e "n" then (Some 10, 2%nat, false)
               else if isChar e "r" then (Some 13, 2%nat, false)
               else if isChar e "t" then (Some 9, 2%nat, false)
               else if isChar e "v" then (Some 11, 2%nat, false)
               else if isChar e "c" then
                 match r' with
                 | x :: _ =>
                     if isAsciiLetter x || isDecimalDigit x || isChar x "_"
                     then (Some (code x mod 32), 3%nat, false)
                     else (Some 92, 1%nat, false)
                 | [] => (Some 92, 1%nat, false)
                 end
               else if isChar e "x" then
                 match r' with
                 | h1 :: h2 :: _ =>
                     if isHexDigit h1 && isHexDigit h2
                     then (Some (16 * hexValue h1 + hexValue h2), 4%nat, false)
                     else (Some 120, 2%nat, false)
                 | _ => (Some 120, 2%nat, false)
                 end
               else if isChar e "u" then
                 match r' with
                 | h1 :: h2 :: h3 :: h4 :: _ =>
                     if isHexDigit h1 && isHexDigit h2
                        && isHexDigit h3 && isHexDigit h4
                     then (Some (4096 * hexValue h1 + 256 * hexValue h2
                                 + 16 * hexValue h3 + hexValue h4),
                           6%nat, false)
                     else (Some 117, 2%nat, false)
                 | _ => (Some 117, 2%nat, false)
                 end
               else if isChar e "k" then (Some 107, 2%nat, true)
               else if isOctalDigit e then
                 let d1 := code e - 48 in
                 match r' with
                 | o2 :: r'' =>
                     if isOctalDigit o2 then
                       let d2 := code o2 - 48 in
                       if (d1 <=? 3) && peekP r'' 0 isOctalDigit
                       then match r'' with
                            | o3 :: _ =>
                                (Some (64 * d1 + 8 * d2 + (code o3 - 48)),
                                 4%nat, false)
                            | [] => (Some (8 * d1 + d2), 3%nat, false)
                            end
                       else (Some (8 * d1 + d2), 3%nat, false)
                     else (Some d1, 2%nat, false)
                 | [] => (Some d1, 2%nat, false)
                 end
               else (Some (code e), 2%nat, false)
           end
  end.

Inductive ClassState : Type :=
| CsStart                 (* a new atom starts here *)
| CsAtom (v : option Z)   (* an atom was read: a dash may follow *)
| CsDash (v : option Z).  (* an atom and a dash were read *)

Definition rangeOk (a b : option Z) : bool :=
  match a, b with
  | Some x, Some y => x <=? y
  | _, _ => true
  end.

(** The inside of a class, up to its closing bracket.  [skip] counts the
    code units of the current atom still to pass over; [pos] the code units
    read.  The result tells whether every range is in order, whether [\k]
    occurs, and the length read, bracket included; [None] when the class
    is not closed. *)
Fixpoint classScan (skip : nat) (st : ClassState) (ok kref : bool)
    (pos : nat) (s : jsstring) : option (bool * bool * nat) :=
  match s with
  | [] => None
  | c :: r =>
      match skip with
      | S k => classScan k st ok kref (S pos) r
      | O =>
          if isChar c "]" then Some (ok, kref, S pos)
          else
            let '(v, n, k') := classAtomAt s in
            match st with
            | CsStart =>
                classScan (n - 1) (CsAtom v) ok (kref || k') (S pos) r
            | CsAtom va =>
                if isChar c "-"
                then classScan 0 (CsDash va) ok kref (S pos) r
                else classScan (n - 1) (CsAtom v) ok (kref || k') (S pos) r
            | CsDash va =>
                classScan (n - 1) CsStart (ok && rangeOk va v)
                          (kref || k') (S pos) r
            end
      end
  end.

(** The class that opens at the bracket heading [s]. *)
Definition classAt (s : jsstring) : Token * nat :=
  let neg := if peek s 1 "^" then 1%nat else 0%nat in
  match classScan 0 CsStart true false 0 (drop (S neg) s) with
  | Some (ok, kref, n) => (TClass ok kref, (1 + neg + n)%nat)
  | None => (TInvalid, 1%nat)
  end.

(** The token at the head of [s] and its length. *)
Definition tokenAt (s : jsstring) : Token * nat :=
  match s with
  | [] => (TInvalid, 1%nat)
  | c :: r =>
      if isChar c "(" then groupAt s
      else if isChar c ")" then (TClose, 1%nat)
      else if isChar c "|" then (TBar, 1%nat)
      else if isChar c "*" || isChar c "+" || isChar c "?"
      then (TQuantifier true, withLazy s 1)
      else if isChar c "{" then
        match parseBraced r with
        | Some (ok, n) => (TQuantifier ok, withLazy s n)
        | None => (TAtom, 1%nat)
        end
      else if isChar c "^" || isChar c "$" then (TAssertion, 1%nat)
      else if isChar c "[" then classAt s
      else if isChar c "\" then escapeAt s
      else (TAtom, 1%nat)
  end.

Fixpoint tokenizeFrom (skip : nat) (s : jsstring) : list Token :=
  match s with
  | [] => []
  | _ :: r =>
      match skip with
      | S k => tokenizeFrom k r
      | O => let '(t, n) := tokenAt s in t :: tokenizeFrom (n - 1) r
      end
  end.

Definition tokenize (s : jsstring) : list Token := tokenizeFrom 0 s.

(** Nesting and quantifiers.  [stack] holds the open groups, [q] tells
    whether the term just read may take a quantifier. *)
Fixpoint wellNested (stack : list GroupKind) (q : bool) (ts : list Token)
  : bool :=
  match ts with
  | [] => match stack with [] => true | _ => false end
  | t :: ts' =>
      match t with
      | TOpen k _ => wellNested (k :: stack) false ts'
      | TClose =>
          match stack with
          | k :: st => wellNested st (quantifiable k) ts'
          | [] => false
          end
      | TBar => wellNested stack false ts'
      | TQuantifier ok => q && ok && wellNested stack false ts'
      | TAssertion => wellNested stack false ts'
      | TAtom => wellNested stack true ts'
      | TClass ok _ => ok && wellNested stack true ts'
      | TNamedRef _ => wellNested stack true ts'
      | TInvalid => false
      end
  end.

Definition groupNames (ts : list Token) : list jsstring :=
  flat_map (fun t => match t with TOpen _ (Some n) => [n] | _ => [] end) ts.

Fixpoint distinct (l : list jsstring) : bool :=
  match l with
  | [] => true
  | x :: l' => negb (existsb (strictEq x) l') && distinct l'
  end.

(** With no named group in the pattern, [\k] is an identity escape.  With
    one, group names are distinct, every [\k] is followed by the name of a
    group, and [\k] does not occur in a class. *)
Definition namedRefsOk (ts : list Token) : bool :=
  let names := groupNames ts in
  match names with
  | [] => true
  | _ =>
      distinct names
      && forallb (fun t =>
           match t with
           | TNamedRef (Some n) => existsb (strictEq n) names
           | TNamedRef None => false
           | TClass _ kref => negb kref
           | _ => true
           end) ts
  end.

Definition patternOk (p : jsstring) : bool :=
  let ts := tokenize p in
  wellNested [] false ts && namedRefsOk ts.

(** A compiled regular expression remembers its source. *)
Record RegExp : Type := { source : jsstring }.

(** [new RegExp(p, 'gi')] *)
Definition newRegExp (p : jsstring) : completion RegExp :=
  if patternOk p then Normal {| source := p |} else Throw SyntaxError.

End RegExpSyntax.
Import RegExpSyntax.

(* ================================================================== *)
(** * Keyboard events                                                  *)
(* ================================================================== *)

(** What the handlers read of a [keydown] event. *)
Record KeyEvent : Type := {
  key : jsstring;
  targetTag : jsstring;   (* e.target.tagName *)
  ctrlKey : bool;
  metaKey : bool;
  altKey : bool
}.

Definition keyIs (e : KeyEvent) (k : string) : bool := strictEq (key e) (str k).
Definition tagIs (e : KeyEvent) (t : string) : bool :=
  strictEq (targetTag e) (str t).

(** A key pressed with no modifier, with the focus on [tag]. *)
Definition press (k : string) (tag : string) : KeyEvent :=
  {| key := str k; targetTag := str tag;
     ctrlKey := false; metaKey := false; altKey := false |}.

(* ================================================================== *)
(** * The search overlay                                               *)
(* ================================================================== *)

Module Overlay.

Record Document : Type := {
  id : jsstring;
  title : jsstring;
  content : jsstring;
  url : jsstring
}.

(** [lunrIndex.search(q)]: the references of the hits in rank order, or an
    exception. *)
Definition LunrIndex : Type := jsstring -> completion (list jsstring).

(** The two library calls of the file whose code is not part of it. *)
Record Host : Type := {
  (* lunr(function () { this.ref('id'); ... this.add(doc) ... }) *)
  lunr : list Document -> completion LunrIndex;
  (* snippet.replace(regex, '<mark>$1</mark>') *)
  replaceMark : RegExp -> jsstring -> jsstring
}.

(** One [<li>] of the rendered list. *)
Record ResultItem : Type := {
  itemSelected : bool;     (* className === 'selected' *)
  itemHref : jsstring;     (* the url its click listener follows *)
  itemTitle : jsstring;
  itemSnippet : jsstring
}.

(** The content of [#search-results]. *)
Inductive ResultsView : Type :=
| ViewEmpty
| ViewNoResults
| ViewList (items : list ResultItem).

(** The variables of [initSearch] and the parts of the page it writes. *)
Record State : Type := {
  searchActive : bool;
  searchQuery : jsstring;
  searchResults : list Document;
  selectedResultIndex : Z;
  lunrIndex : option LunrIndex;
  documents : list Document;
  lunrDefined : bool;            (* typeof lunr !== 'undefined' *)
  overlayShown : bool;           (* class 'active' on the overlay *)
  inputValue : jsstring;         (* searchInput.value *)
  resultsView : ResultsView;
  location : option jsstring     (* window.location.href, once assigned *)
}.

Definition set_searchActive (v : bool) (s : State) : State :=
  {| searchActive := v; searchQuery := searchQuery s;
     searchResults := searchResults s;
     selectedResultIndex := selectedResultIndex s;
     lunrIndex := lunrIndex s; documents := documents s;
     lunrDefined := lunrDefined s; overlayShown := overlayShown s;
     inputValue := inputValue s; resultsView := resultsView s;
     location := location s |}.

Definition set_searchQuery (v : jsstring) (s : State) : State :=
  {| searchActive := searchActive s; searchQuery := v;
     searchResults := searchResults s;
     selectedResultIndex := selectedResultIndex s;
     lunrIndex := lunrIndex s; documents := documents s;
     lunrDefined := lunrDefined s; overlayShown := overlayShown s;
     inputValue := inputValue s; resultsView := resultsView s;
     location := location s |}.

Definition set_searchResults (v : list Document) (s : State) : State :=
  {| searchActive := searchActive s; searchQuery := searchQuery s;
     searchResults := v;
     selectedResultIndex := selectedResultIndex s;
     lunrIndex := lunrIndex s; documents := documents s;
     lunrDefined := lunrDefined s; overlayShown := overlayShown s;
     inputValue := inputValue s; resultsView := resultsView s;
     location := location s |}.

Definition set_selectedResultIndex (v : Z) (s : State) : State :=
  {| searchActive := searchActive s; searchQuery := searchQuery s;
     searchResults := searchResults s;
     selectedResultIndex := v;
     lunrIndex := lunrIndex s; documents := documents s;
     lunrDefined := lunrDefined s; overlayShown := overlayShown s;
     inputValue := inputValue s; resultsView := resultsView s;
     location := location s |}.

Definition set_lunrIndex (v : option LunrIndex) (s : State) : State :=
  {| searchActive := searchActive s; searchQuery := searchQuery s;
     searchResults := searchResults s;
     selectedResultIndex := selectedResultIndex s;
     lunrIndex := v; documents := documents s;
     lunrDefined := lunrDefined s; overlayShown := overlayShown s;
     inputValue := inputValue s; resultsView := resultsView s;
     location := location s |}.

Definition set_documents (v : list Document) (s : State) : State :=
  {| searchActive := searchActive s; searchQuery := searchQuery s;
     searchResults := searchResults s;
     selectedResultIndex := selectedResultIndex s;
     lunrIndex := lunrIndex s; documents := v;
     lunrDefined := lunrDefined s; overlayShown := overlayShown s;
     inputValue := inputValue s; resultsView := resultsView s;
     location := location s |}.

Definition set_lunrDefined (v : bool) (s : State) : State :=
  {| searchActive := searchActive s; searchQuery := searchQuery s;
     searchResults := searchResults s;
     selectedResultIndex := selectedResultIndex s;
     lunrIndex := lunrIndex s; documents := documents s;
     lunrDefined := v; overlayShown := overlayShown s;
     inputValue := inputValue s; resultsView := resultsView s;
     location := location s |}.

Definition set_overlayShown (v : bool) (s : State) : State :=
  {| searchActive := searchActive s; searchQuery := searchQuery s;
     searchResults := searchResults s;
     selectedResultIndex := selectedResultIndex s;
     lunrIndex := lunrIndex s; documents := documents s;
     lunrDefined := lunrDefined s; overlayShown := v;
     inputValue := inputValue s; resultsView := resultsView s;
     location := location s |}.

Definition set_inputValue (v : jsstring) (s : State) : State :=
  {| searchActive := searchActive s; searchQuery := searchQuery s;
     searchResults := searchResults s;
     selectedResultIndex := selectedResultIndex s;
     lunrIndex := lunrIndex s; documents := documents s;
     lunrDefined := lunrDefined s; overlayShown := overlayShown s;
     inputValue := v; resultsView := resultsView s;
     location := location s |}.

Definition set_resultsView (v : ResultsView) (s : State) : State :=
  {| searchActive := searchActive s; searchQuery := searchQuery s;
     searchResults := searchResults s;
     selectedResultIndex := selectedResultIndex s;
     lunrIndex := lunrIndex s; documents := documents s;
     lunrDefined := lunrDefined s; overlayShown := overlayShown s;
     inputValue := inputValue s; resultsView := v;
     location := location s |}.

Definition set_location (v : option jsstring) (s : State) : State :=
  {| searchActive := searchActive s; searchQuery := searchQuery s;
     searchResults := searchResults s;
     selectedResultIndex := selectedResultIndex s;
     lunrIndex := lunrIndex s; documents := documents s;
     lunrDefined := lunrDefined s; overlayShown := overlayShown s;
     inputValue := inputValue s; resultsView := resultsView s;
     location := v |}.

(** The variables as [initSearch] declares them. *)
Definition initial : State :=
  {| searchActive := false; searchQuery := [];
     searchResults := []; selectedResultIndex := -1;
     lunrIndex := None; documents := [];
     lunrDefined := false; overlayShown := false;
     inputValue := []; resultsView := ViewEmpty;
     location := None |}.

Section WithHost.

Variable host : Host.

(** ** getSnippet *)

(** [lowerQuery.split(/\s+/).filter(t => t.length > 0)] *)
Definition queryTerms (query : jsstring) : list jsstring :=
  List.filter (fun t => 0 <? len t) (splitWs (toLowerCase query)).

(** The loop over the terms: [matchIndex] is assigned the offset of each
    term in turn and the loop is left at the first one that is not [-1]. *)
Fixpoint findMatchIndex (lowerContent : jsstring) (terms : list jsstring)
    (matchIndex : Z) : Z :=
  match terms with
  | [] => matchIndex
  | term :: rest =>
      let matchIndex := indexOf lowerContent term in
      if negb (matchIndex =? -1) then matchIndex
      else findMatchIndex lowerContent rest matchIndex
  end.

Definition snippetMatchIndex (content query : jsstring) : Z :=
  findMatchIndex (toLowerCase content) (queryTerms query) (-1).

Definition contextSize : Z := 75.

(** [start] and [end] of the excerpt around [matchIndex]. *)
Definition windowAround (content : jsstring) (matchIndex : Z) : Z * Z :=
  (Z.max 0 (matchIndex - contextSize),
   Z.min (len content) (matchIndex + contextSize)).

(** One round of the highlighting [forEach]. *)
Definition highlightTerm (snippet term : jsstring) : completion jsstring :=
  if 2 <? len term then
    match newRegExp (str "(" ++ term ++ str ")") with
    | Normal regex => Normal (replaceMark host regex snippet)
    | Throw e => Throw e
    end
  else Normal snippet.

Fixpoint highlightTerms (terms : list jsstring) (snippet : jsstring)
  : completion jsstring :=
  match terms with
  | [] => Normal snippet
  | term :: rest =>
      match highlightTerm snippet term with
      | Normal snippet' => highlightTerms rest snippet'
      | Throw e => Throw e
      end
  end.

Definition getSnippet (content query : jsstring) : completion jsstring :=
  if (len content =? 0) || (len query =? 0) then Normal []
  else
    let matchIndex := snippetMatchIndex content query in
    if matchIndex =? -1 then
      Normal (substring content 0 150
              ++ (if 150 <? len content then str "..." else []))
    else
      let '(start, end_) := windowAround content matchIndex in
      let snippet := substring content start end_ in
      let snippet := if 0 <? start then str "..." ++ snippet else snippet in
      let snippet :=
        if end_ <? len content then snippet ++ str "..." else snippet in
      highlightTerms (queryTerms query) snippet.

(** ** renderResults *)

Fixpoint renderItems (query : jsstring) (selected : Z) (index : Z)
    (results : list Document) : completion (list ResultItem) :=
  match results with
  | [] => Normal []
  | result :: rest =>
      match getSnippet (content result) query with
      | Throw e => Throw e
      | Normal snippet =>
          match renderItems query selected (index + 1) rest with
          | Throw e => Throw e
          | Normal items =>
              Normal ({| itemSelected := index =? selected;
                         itemHref := url result;
                         itemTitle := title result;
                         itemSnippet := snippet |} :: items)
          end
      end
  end.

Local Open Scope js_scope.

Definition renderResults : Js State unit :=
  modify (set_resultsView ViewEmpty) ;;
  let* s := get in
  if Z.of_nat (length (searchResults s)) =? 0 then
    if negb (len (trim (searchQuery s)) =? 0)
    then modify (set_resultsView ViewNoResults)
    else ret tt
  else
    let* items := lift (renderItems (searchQuery s) (selectedResultIndex s) 0
                               (searchResults s)) in
    modify (set_resultsView (ViewList items)).

(** ** performSearch and fallbackSearch *)

Definition fallbackMatches (lowerQuery : jsstring) (doc : Document) : bool :=
  includes (toLowerCase (title doc)) lowerQuery
  || includes (toLowerCase (content doc)) lowerQuery.

Definition fallbackSearch (query : jsstring) : Js State unit :=
  let lowerQuery := toLowerCase query in
  let* s := get in
  modify (set_searchResults
            (take 10 (List.filter (fallbackMatches lowerQuery) (documents s)))) ;;
  modify (set_selectedResultIndex (-1)) ;;
  renderResults.

(** [documents.find(d => d.id === ref)] *)
Definition findById (docs : list Document) (ref : jsstring) : option Document :=
  List.find (fun d => strictEq (id d) ref) docs.

(** [.filter(doc => doc)]: [undefined] is dropped. *)
Fixpoint filterDefined (l : list (option Document)) : list Document :=
  match l with
  | [] => []
  | Some d :: l' => d :: filterDefined l'
  | None :: l' => filterDefined l'
  end.

Definition performSearch (query : jsstring) : Js State unit :=
  if len (trim query) =? 0 then
    modify (set_searchResults []) ;;
    renderResults
  else
    let* s := get in
    match lunrIndex s with
    | Some index =>
        if negb (lunrDefined s) then fallbackSearch query
        else
          tryCatch
            (let* results := lift (index (query ++ str "*")) in
             let* s := get in
             modify (set_searchResults
                       (take 10 (filterDefined
                                   (map (findById (documents s)) results)))))
            (fun _ => modify (set_searchResults [])) ;;
          modify (set_selectedResultIndex (-1)) ;;
          renderResults
    | None => fallbackSearch query
    end.

(** ** Index loading *)

Definition buildLunrIndex : Js State unit :=
  let* s := get in
  if negb (lunrDefined s) || (Z.of_nat (length (documents s)) =? 0) then ret tt
  else
    tryCatch
      (let* index := lift (lunr host (documents s)) in
       modify (set_lunrIndex (Some index)))
      (fun _ => ret tt).

(** The [then] of the fetch in [loadSearchIndex]. *)
Definition indexFetched (data : list Document) : Js State unit :=
  modify (set_documents data) ;;
  buildLunrIndex.

(** ** Opening and closing *)

Definition openSearch : Js State unit :=
  modify (set_searchActive true) ;;
  modify (set_overlayShown true) ;;
  modify (set_inputValue []) ;;
  modify (set_searchQuery []) ;;
  modify (set_searchResults []) ;;
  modify (set_selectedResultIndex (-1)) ;;
  renderResults.

Definition closeSearch : Js State unit :=
  modify (set_searchActive false) ;;
  modify (set_overlayShown false) ;;
  modify (set_inputValue []) ;;
  modify (set_searchQuery []) ;;
  modify (set_searchResults []) ;;
  modify (set_selectedResultIndex (-1)).

(** ** Listeners *)

(** ['input'] on the search box. *)
Definition onInput (value : jsstring) : Js State unit :=
  modify (set_inputValue value) ;;
  modify (set_searchQuery value) ;;
  performSearch value.

(** [searchResults[i]] *)
Definition resultAt (s : State) (i : Z) : option Document :=
  if i <? 0 then None else searchResults s !! Z.to_nat i.

(** ['keydown'] on the document. *)
Definition onKeydown (e : KeyEvent) : Js State unit :=
  let* s := get in
  (if keyIs e "h" || keyIs e "H" then
     if negb (searchActive s) && negb (tagIs e "INPUT")
        && negb (tagIs e "TEXTAREA")
        && negb (ctrlKey e) && negb (metaKey e) && negb (altKey e)
     then modify (set_location (Some (str "/")))
     else ret tt
   else ret tt) ;;
  (if keyIs e "/" && negb (searchActive s) && negb (tagIs e "INPUT")
      && negb (tagIs e "TEXTAREA")
   then openSearch
   else ret tt) ;;
  let* s := get in
  if negb (searchActive s) then ret tt
  else if keyIs e "Escape" then closeSearch
  else if keyIs e "ArrowDown" then
    let nextIndex :=
      Z.min (selectedResultIndex s + 1) (Z.of_nat (length (searchResults s)) - 1) in
    if 0 <=? nextIndex then
      modify (set_selectedResultIndex nextIndex) ;;
      renderResults
    else ret tt
  else if keyIs e "ArrowUp" then
    let prevIndex := Z.max (selectedResultIndex s - 1) (-1) in
    modify (set_selectedResultIndex prevIndex) ;;
    renderResults
  else if keyIs e "Enter" && (0 <=? selectedResultIndex s) then
    match resultAt s (selectedResultIndex s) with
    | Some doc => modify (set_location (Some (url doc)))
    | None => ret tt
    end
  else ret tt.

(** A click inside the overlay; [onBackdrop] tells that it hit the overlay
    itself and not the search box. *)
Definition onOverlayClick (onBackdrop : bool) : Js State unit :=
  if onBackdrop then closeSearch else ret tt.

(** A click on the [i]-th rendered result. *)
Definition onResultClick (i : nat) : Js State unit :=
  let* s := get in
  match resultsView s with
  | ViewList items =>
      match items !! i with
      | Some item => modify (set_location (Some (itemHref item)))
      | None => ret tt
      end
  | _ => ret tt
  end.

Inductive Event : Type :=
| Input (value : jsstring)
| Keydown (e : KeyEvent)
| SearchButtonClick
| HeroSearchFocus
| OverlayClick (onBackdrop : bool)
| ResultClick (i : nat)
| IndexFetched (data : list Document)
| LunrLoaded        (* the library script has run *)
| LunrWaitOver.     (* the callback of waitForLunr *)

Definition handle (ev : Event) : Js State unit :=
  match ev with
  | Input value => onInput value
  | Keydown e => onKeydown e
  | SearchButtonClick => openSearch
  | HeroSearchFocus => openSearch
  | OverlayClick b => onOverlayClick b
  | ResultClick i => onResultClick i
  | IndexFetched data => indexFetched data
  | LunrLoaded => modify (set_lunrDefined true)
  | LunrWaitOver => buildLunrIndex
  end.

(** The state after a sequence of events; an exception ends the handler
    that raised it and nothing else. *)
Definition run (evs : list Event) (s : State) : State :=
  fold_left (fun s ev => exec (handle ev) s) evs s.

End WithHost.

End Overlay.

(* ================================================================== *)
(** * The page-list navigator                                          *)
(* ================================================================== *)

Module ListNav.

(** One [a[data-number]] of the list. *)
Record Link : Type := {
  href : jsstring;
  highlighted : bool     (* class 'highlighted' *)
}.

(** The variables of the closure, the timers it has armed, and the parts of
    the page it writes.  Timer identifiers are positive and never reused,
    as [setTimeout] hands them out. *)
Record State : Type := {
  links : list Link;
  currentIndex : Z;
  numberBuffer : jsstring;
  numberTimeout : option nat;
  keyboardNavActive : bool;
  navClass : bool;               (* class 'keyboard-nav-active' *)
  pendingTimers : list nat;      (* armed, neither fired nor cleared *)
  nextTimerId : nat;
  scrolledTo : option Z;         (* the link the last scrollTo aimed at *)
  location : option jsstring     (* window.location.href, once assigned *)
}.

Definition set_links (v : list Link) (s : State) : State :=
  {| links := v; currentIndex := currentIndex s;
     numberBuffer := numberBuffer s; numberTimeout := numberTimeout s;
     keyboardNavActive := keyboardNavActive s; navClass := navClass s;
     pendingTimers := pendingTimers s; nextTimerId := nextTimerId s;
     scrolledTo := scrolledTo s; location := location s |}.

Definition set_currentIndex (v : Z) (s : State) : State :=
  {| links := links s; currentIndex := v;
     numberBuffer := numberBuffer s; numberTimeout := numberTimeout s;
     keyboardNavActive := keyboardNavActive s; navClass := navClass s;
     pendingTimers := pendingTimers s; nextTimerId := nextTimerId s;
     scrolledTo := scrolledTo s; location := location s |}.

Definition set_numberBuffer (v : jsstring) (s : State) : State :=
  {| links := links s; currentIndex := currentIndex s;
     numberBuffer := v; numberTimeout := numberTimeout s;
     keyboardNavActive := keyboardNavActive s; navClass := navClass s;
     pendingTimers := pendingTimers s; nextTimerId := nextTimerId s;
     scrolledTo := scrolledTo s; location := location s |}.

Definition set_numberTimeout (v : option nat) (s : State) : State :=
  {| links := links s; currentIndex := currentIndex s;
     numberBuffer := numberBuffer s; numberTimeout := v;
     keyboardNavActive := keyboardNavActive s; navClass := navClass s;
     pendingTimers := pendingTimers s; nextTimerId := nextTimerId s;
     scrolledTo := scrolledTo s; location := location s |}.

Definition set_keyboardNavActive (v : bool) (s : State) : State :=
  {| links := links s; currentIndex := currentIndex s;
     numberBuffer := numberBuffer s; numberTimeout := numberTimeout s;
     keyboardNavActive := v; navClass := navClass s;
     pendingTimers := pendingTimers s; nextTimerId := nextTimerId s;
     scrolledTo := scrolledTo s; location := location s |}.

Definition set_navClass (v : bool) (s : State) : State :=
  {| links := links s; currentIndex := currentIndex s;
     numberBuffer := numberBuffer s; numberTimeout := numberTimeout s;
     keyboardNavActive := keyboardNavActive s; navClass := v;
     pendingTimers := pendingTimers s; nextTimerId := nextTimerId s;
     scrolledTo := scrolledTo s; location := location s |}.

Definition set_pendingTimers (v : list nat) (s : State) : State :=
  {| links := links s; currentIndex := currentIndex s;
     numberBuffer := numberBuffer s; numberTimeout := numberTimeout s;
     keyboardNavActive := keyboardNavActive s; navClass := navClass s;
     pendingTimers := v; nextTimerId := nextTimerId s;
     scrolledTo := scrolledTo s; location := location s |}.

Definition set_nextTimerId (v : nat) (s : State) : State :=
  {| links := links s; currentIndex := currentIndex s;
     numberBuffer := numberBuffer s; numberTimeout := numberTimeout s;
     keyboardNavActive := keyboardNavActive s; navClass := navClass s;
     pendingTimers := pendingTimers s; nextTimerId := v;
     scrolledTo := scrolledTo s; location := location s |}.

Definition set_scrolledTo (v : option Z) (s : State) : State :=
  {| links := links s; currentIndex := currentIndex s;
     numberBuffer := numberBuffer s; numberTimeout := numberTimeout s;
     keyboardNavActive := keyboardNavActive s; navClass := navClass s;
     pendingTimers := pendingTimers s; nextTimerId := nextTimerId s;
     scrolledTo := v; location := location s |}.

Definition set_location (v : option jsstring) (s : State) : State :=
  {| links := links s; currentIndex := currentIndex s;
     numberBuffer := numberBuffer s; numberTimeout := numberTimeout s;
     keyboardNavActive := keyboardNavActive s; navClass := navClass s;
     pendingTimers := pendingTimers s; nextTimerId := nextTimerId s;
     scrolledTo := scrolledTo s; location := v |}.

(** The closure as the script leaves it on a page whose list has the
    links [hrefs]. *)
Definition initial (hrefs : list jsstring) : State :=
  {| links := map (fun h => {| href := h; highlighted := false |}) hrefs;
     currentIndex := -1; numberBuffer := []; numberTimeout := None;
     keyboardNavActive := false; navClass := false;
     pendingTimers := []; nextTimerId := 1;
     scrolledTo := None; location := None |}.

Local Open Scope js_scope.

(** [links.length] *)
Definition linkCount (s : State) : Z := Z.of_nat (length (links s)).

(** [links[i]]; reading a property of the result throws when there is no
    such element. *)
Definition linkAt (i : Z) : Js State Link :=
  let* s := get in
  match (if i <? 0 then None else links s !! Z.to_nat i) with
  | Some l => ret l
  | None => throw TypeError
  end.

Definition setKeyboardNavMode (active : bool) : Js State unit :=
  modify (set_keyboardNavActive active) ;;
  modify (set_navClass active).

Definition unmark (l : Link) : Link := {| href := href l; highlighted := false |}.
Definition mark (l : Link) : Link := {| href := href l; highlighted := true |}.

Definition clearHighlight : Js State unit :=
  let* s := get in
  modify (set_links (map unmark (links s))).

Definition highlightLink (index : Z) : Js State unit :=
  clearHighlight ;;
  setKeyboardNavMode true ;;
  let* s := get in
  if (0 <=? index) && (index <? linkCount s) then
    modify (set_currentIndex index) ;;
    let* _ := linkAt index in
    let* s := get in
    modify (set_links (alter mark (Z.to_nat index) (links s))) ;;
    modify (set_scrolledTo (Some index))
  else ret tt.

Definition navigateToLink : Js State unit :=
  let* s := get in
  if (0 <=? currentIndex s) && (currentIndex s <? linkCount s) then
    let* l := linkAt (currentIndex s) in
    modify (set_location (Some (href l)))
  else ret tt.

Definition clearTimeout (t : nat) : Js State unit :=
  let* s := get in
  modify (set_pendingTimers (List.filter (fun u => negb (u =? t)%nat)
                                         (pendingTimers s))).

Definition setTimeout : Js State nat :=
  let* s := get in
  modify (set_pendingTimers (nextTimerId s :: pendingTimers s)) ;;
  modify (set_nextTimerId (S (nextTimerId s))) ;;
  ret (nextTimerId s).

(** The callback handed to [setTimeout] by [handleNumberKey]. *)
Definition settle : Js State unit :=
  let* s := get in
  let linkIndex := (fun n => n - 1) <$> parseInt (numberBuffer s) in
  match linkIndex with
  | Some i =>
      if (0 <=? i) && (i <? linkCount s) then highlightLink i else ret tt
  | None => ret tt
  end ;;
  modify (set_numberBuffer []).

Definition handleNumberKey (num : jsstring) : Js State unit :=
  let* s := get in
  match numberTimeout s with
  | Some t => clearTimeout t
  | None => ret tt
  end ;;
  let* s := get in
  modify (set_numberBuffer (numberBuffer s ++ num)) ;;
  let* t := setTimeout in
  modify (set_numberTimeout (Some t)).

Definition cancelNumber : Js State unit :=
  modify (set_numberBuffer []) ;;
  let* s := get in
  match numberTimeout s with
  | Some t => clearTimeout t
  | None => ret tt
  end.

(** ['keydown'] on the document. *)
Definition onKeydown (e : KeyEvent) : Js State unit :=
  if (tagIs e "INPUT" || tagIs e "TEXTAREA") && negb (keyIs e "/") then ret tt
  else if ctrlKey e || metaKey e || altKey e then ret tt
  else
    let* s := get in
    if keyIs e "ArrowDown" then
      let nextIndex := currentIndex s + 1 in
      (if nextIndex <? linkCount s then highlightLink nextIndex else ret tt) ;;
      cancelNumber
    else if keyIs e "ArrowUp" then
      let prevIndex := currentIndex s - 1 in
      (if 0 <=? prevIndex then highlightLink prevIndex else ret tt) ;;
      cancelNumber
    else if keyIs e "Enter" && (0 <=? currentIndex s) then navigateToLink
    else if geStr (key e) (str "0") && leStr (key e) (str "9")
    then handleNumberKey (key e)
    else ret tt.

(** ['mousemove'] on the list. *)
Definition onMouseMove : Js State unit :=
  let* s := get in
  if keyboardNavActive s then
    setKeyboardNavMode false ;;
    clearHighlight ;;
    modify (set_currentIndex (-1))
  else ret tt.

(** A timer that is still pending runs its callback; any other one has
    nothing left to run. *)
Definition onTimer (t : nat) : Js State unit :=
  let* s := get in
  if existsb (Nat.eqb t) (pendingTimers s) then
    clearTimeout t ;;
    settle
  else ret tt.

Inductive Event : Type :=
| Keydown (e : KeyEvent)
| MouseMove
| TimerFired (t : nat).

Definition handle (ev : Event) : Js State unit :=
  match ev with
  | Keydown e => onKeydown e
  | MouseMove => onMouseMove
  | TimerFired t => onTimer t
  end.

Definition run (evs : list Event) (s : State) : State :=
  fold_left (fun s ev => exec (handle ev) s) evs s.

End ListNav.

(* ================================================================== *)
(** * The top-navigation shortcuts (static/script.js)                  *)
(* ================================================================== *)

Module Script.

(** One [.nav__list .link--nav]. *)
Record NavLink : Type := {
  textContent : jsstring;
  href : jsstring
}.

Record State : Type := {
  navLinks : list NavLink;
  scrollPosition : Z;            (* window.pageYOffset *)
  historyBack : bool;            (* window.history.back() was called *)
  scrolledToTop : bool;
  location : option jsstring     (* window.location.href, once assigned *)
}.

Definition initial (nav : list NavLink) (scroll : Z) : State :=
  {| navLinks := nav; scrollPosition := scroll; historyBack := false;
     scrolledToTop := false; location := None |}.

Definition set_location (v : option jsstring) (s : State) : State :=
  {| navLinks := navLinks s; scrollPosition := scrollPosition s;
     historyBack := historyBack s; scrolledToTop := scrolledToTop s;
     location := v |}.

Definition set_historyBack (v : bool) (s : State) : State :=
  {| navLinks := navLinks s; scrollPosition := scrollPosition s;
     historyBack := v; scrolledToTop := scrolledToTop s;
     location := location s |}.

Definition set_scrolledToTop (v : bool) (s : State) : State :=
  {| navLinks := navLinks s; scrollPosition := scrollPosition s;
     historyBack := historyBack s; scrolledToTop := v;
     location := location s |}.

(** ['keydown'] on the document. *)
Definition onKeydown (e : KeyEvent) (s : State) : State :=
  if tagIs e "INPUT" || tagIs e "TEXTAREA" then s
  else if ctrlKey e || metaKey e || altKey e then s
  else if keyIs e "h" || keyIs e "H" then set_location (Some (str "/")) s
  else if keyIs e "u" || keyIs e "U" then
    if scrollPosition s <=? 10 then set_historyBack true s
    else set_scrolledToTop true s
  else if Z.of_nat (length (navLinks s)) =? 0 then s
  else
    let pressed := toLowerCase (key e) in
    match List.find (fun link =>
                 startsWith (toLowerCase (trim (textContent link))) pressed)
               (navLinks s) with
    | Some link => set_location (Some (href link)) s
    | None => s
    end.

End Script.

(* ================================================================== *)
(** * A page that loads both scripts                                   *)
(* ================================================================== *)

Module Page.

(** Both scripts register a ['keydown'] listener on the document; the
    browser calls each of them for every key. *)
Record State : Type := {
  overlay : Overlay.State;
  script : Script.State
}.

Definition onKeydown (host : Overlay.Host) (e : KeyEvent) (s : State) : State :=
  {| overlay := exec (Overlay.onKeydown host e) (overlay s);
     script := Script.onKeydown e (script s) |}.

(** An assignment of ['/'] to [window.location.href]. *)
Definition isHome (target : option jsstring) : bool :=
  match target with
  | Some u => strictEq u (str "/")
  | None => false
  end.

(** Some listener has sent the browser to the home page. *)
Definition wentHome (s : State) : bool :=
  isHome (Overlay.location (overlay s)) || isHome (Script.location (script s)).

End Page.

(* ================================================================== *)
(** * Vocabulary of the specification                                  *)
(* ================================================================== *)

Module Spec.

(** [t] occurs in [s] at offset [i]. *)
Definition OccursAt (s t : jsstring) (i : Z) : Prop :=
  exists pre post, s = pre ++ t ++ post /\ len pre = i.



(** [FirstMatching P n l r]: [r] lists, in the order of [l], the first [n]
    elements of [l] that satisfy [P], or all of them when there are fewer. *)
Inductive FirstMatching {A : Type} (P : A -> Prop)
  : nat -> list A -> list A -> Prop :=
| fm_end n : FirstMatching P n [] []
| fm_full l : FirstMatching P 0 l []
| fm_keep n x l r :
    P x -> FirstMatching P n l r -> FirstMatching P (S n) (x :: l) (x :: r)
| fm_skip n x l r :
    ~ P x -> FirstMatching P (S n) l r -> FirstMatching P (S n) (x :: l) r.

(** [search(queryText)]: the result sequence [performSearch] leaves in
    [searchResults]. *)
Definition search (host : Overlay.Host) (s : Overlay.State)
    (queryText : jsstring) : list Overlay.Document :=
  Overlay.searchResults (exec (Overlay.performSearch host queryText) s).

(** The invariant the data model states for [SearchState]. *)
Definition selectionInRange (s : Overlay.State) : Prop :=
  -1 <= Overlay.selectedResultIndex s
  <= Z.of_nat (length (Overlay.searchResults s)) - 1.


(** The value of a sequence of decimal digit keys read as one number. *)
Definition decimalValue (digits : list ascii) : Z :=
  fold_left (fun acc d => 10 * acc + (code d - 48)) digits 0.

(** The list with every highlight removed and keyboard mode on: what
    [highlightLink] leaves when its index is out of range. *)
Definition cleared (s : ListNav.State) : ListNav.State :=
  ListNav.set_navClass true
    (ListNav.set_keyboardNavActive true
       (ListNav.set_links (map ListNav.unmark (ListNav.links s)) s)).

(** Link [i] highlighted alone, current, and scrolled to. *)
Definition highlightedAt (i : Z) (s : ListNav.State) : ListNav.State :=
  ListNav.set_scrolledTo (Some i)
    (ListNav.set_links
       (alter ListNav.mark (Z.to_nat i) (map ListNav.unmark (ListNav.links s)))
       (ListNav.set_currentIndex i (cleared s))).

(** The state with [num] appended to the buffer and one fresh timer
    pending in place of the previous one. *)
Definition buffered (num : jsstring) (s : ListNav.State) : ListNav.State :=
  ListNav.set_numberTimeout (Some (ListNav.nextTimerId s))
    (ListNav.set_nextTimerId (S (ListNav.nextTimerId s))
       (ListNav.set_pendingTimers [ListNav.nextTimerId s]
          (ListNav.set_numberBuffer (ListNav.numberBuffer s ++ num) s))).

(** The settle timer is single-slot: nothing is pending, or the one
    pending timer is the one [numberTimeout] names. *)
Definition singleSlot (s : ListNav.State) : Prop :=
  ListNav.pendingTimers s = []
  \/ exists t, ListNav.pendingTimers s = [t] /\ ListNav.numberTimeout s = Some t.

(** A digit key pressed with no modifier and the focus outside any text
    field. *)
Definition digitKey (d : ascii) : KeyEvent :=
  {| key := [d]; targetTag := str "BODY";
     ctrlKey := false; metaKey := false; altKey := false |}.

(** A code unit that the pattern grammar reads as itself wherever it
    stands: anything but [( ) | * + ? { ^ $ [ \]. *)
Definition plainChar (c : ascii) : bool :=
  negb (isChar c "(" || isChar c ")" || isChar c "|" || isChar c "*"
        || isChar c "+" || isChar c "?" || isChar c "{" || isChar c "^"
        || isChar c "$" || isChar c "[" || isChar c "\").

(** What each path of [performSearch] leaves in [searchResults]. *)
Definition resultsOf (s : Overlay.State) (query : jsstring)
  : list Overlay.Document :=
  if len (trim query) =? 0 then []
  else
    let fallback :=
      take 10 (List.filter (Overlay.fallbackMatches (toLowerCase query)) (Overlay.documents s)) in
    match Overlay.lunrIndex s with
    | Some index =>
        if negb (Overlay.lunrDefined s) then fallback
        else match index (query ++ str "*") with
             | Normal refs =>
                 take 10 (Overlay.filterDefined (map (Overlay.findById (Overlay.documents s)) refs))
             | Throw _ => []
             end
    | None => fallback
    end.

(** The list keeps its length [n] and the current index stays in
    [-1, n-1]. *)
Definition inBounds (n : Z) (s : ListNav.State) : Prop :=
  ListNav.linkCount s = n /\ -1 <= ListNav.currentIndex s <= n - 1.

End Spec.

(* ================================================================== *)
(** * Example pages                                                    *)
(* ================================================================== *)

Module Fixtures.

Import Overlay.

(** A host whose indexing library fails to build and whose highlighter
    hands the excerpt back as it is. *)
Definition plainHost : Host :=
  {| lunr := fun _ => Throw LibraryError;
     replaceMark := fun _ snippet => snippet |}.

Definition intro : Document :=
  {| id := str "a"; title := str "Intro";
     content := str "How the cache is filled"; url := str "/a" |}.

Definition cacheDesign : Document :=
  {| id := str "b"; title := str "Cache Design";
     content := str "Notes on C++ templates"; url := str "/b" |}.

Definition corpus : list Document := [intro; cacheDesign].

(** The corpus is fetched, the index is not built. *)
Definition loaded : State := set_documents corpus initial.

(** An index that ranks the page with the hit in its title (boost 10)
    before the page with the hit in its content. *)
Definition ranked : LunrIndex := fun _ => Normal [str "b"; str "a"].

Definition indexed : State :=
  set_lunrDefined true (set_lunrIndex (Some ranked) loaded).

(** Eleven pages with the same title. *)
Definition page (n : nat) : Document :=
  {| id := [ascii_of_nat (97 + n)]; title := str "Cache notes";
     content := []; url := str "/p/" ++ [ascii_of_nat (97 + n)] |}.

Definition eleven : list Document := map page (seq 0 11).


(** The overlay with the query "cache" typed and its first result
    selected. *)
Definition selected : State :=
  run plainHost
    [SearchButtonClick; Input (str "cache");
     Keydown (press "ArrowDown" "INPUT")]
    loaded.

(** A page list of twelve links, as the script finds it. *)
Definition twelve : list jsstring :=
  map (fun n => str "/p/" ++ [ascii_of_nat (97 + n)]) (seq 0 12).

Definition listPage : ListNav.State := ListNav.initial twelve.

(** The same list with its first link current. *)
Definition onFirst : ListNav.State :=
  ListNav.run [ListNav.Keydown (press "ArrowDown" "BODY")] listPage.

(** The same list with its last link current. *)
Definition onLast : ListNav.State :=
  ListNav.run (repeat (ListNav.Keydown (press "ArrowDown" "BODY")) 12) listPage.

(** The page with the overlay open and nothing typed; the top navigation
    has no links. *)
Definition overlayOpen : Page.State :=
  {| Page.overlay := exec (openSearch plainHost) loaded;
     Page.script := Script.initial [] 0 |}.

End Fixtures.

(* ================================================================== *)
(** * Waiting for the indexing library (waitForLunr)                   *)
(* ================================================================== *)

Module LunrWait.

(** The closure of one call of [waitForLunr] and what it has done: the
    interval is running until it is cleared, [callbacks] counts the calls
    of the callback, [warned] tells that the warning was logged. *)
Record Poll : Type := {
  start : Z;                 (* Date.now() at the call *)
  timeout : Z;
  intervalActive : bool;
  callbacks : nat;
  warned : bool
}.

(** The default value of the [timeout] parameter. *)
Definition defaultTimeout : Z := 5000.

(** [waitForLunr(callback, timeout)] called at time [now]. *)
Definition waitForLunr (now timeout : Z) : Poll :=
  {| start := now; timeout := timeout; intervalActive := true;
     callbacks := 0; warned := false |}.

(** One run of the function handed to [setInterval], at time [now], with
    [lunrDefined] telling whether [typeof lunr !== 'undefined']. *)
Definition check (now : Z) (lunrDefined : bool) (p : Poll) : Poll :=
  if lunrDefined then
    {| start := start p; timeout := timeout p; intervalActive := false;
       callbacks := S (callbacks p); warned := warned p |}
  else if timeout p <? now - start p then
    {| start := start p; timeout := timeout p; intervalActive := false;
       callbacks := S (callbacks p); warned := true |}
  else p.

(** The interval fires only while it has not been cleared. *)
Definition tick (p : Poll) (t : Z * bool) : Poll :=
  if intervalActive p then check (fst t) (snd t) p else p.

Definition run (ticks : list (Z * bool)) (p : Poll) : Poll :=
  fold_left tick ticks p.

(** A tick that ends the wait: the library is there, or more than
    [timeout] milliseconds have passed. *)
Definition ends (p : Poll) (t : Z * bool) : bool :=
  snd t || (timeout p <? fst t - start p).

End LunrWait.

(* ================================================================== *)
(** * The theme toggle (site/static/theme.js)                          *)
(* ================================================================== *)

Module Theme.

(** The [data-theme] attribute of the document element and the entry
    ['theme'] of [localStorage]; [None] is [null]. *)
Record State : Type := {
  dataTheme : option jsstring;
  stored : option jsstring
}.

(** The value of [x || d] for a string or [null] [x]. *)
Definition orElse (x : option jsstring) (d : jsstring) : jsstring :=
  match x with
  | Some (c :: r) => c :: r
  | _ => d
  end.

(** Truthiness of a string or [null]. *)
Definition truthy (x : option jsstring) : bool :=
  match x with
  | Some (_ :: _) => true
  | _ => false
  end.

(** [initTheme()], with [prefersDark] the value of [prefersDark.matches]. *)
Definition initTheme (prefersDark : bool) (s : State) : State :=
  match stored s with
  | Some (c :: r) => {| dataTheme := Some (c :: r); stored := stored s |}
  | _ =>
      if prefersDark
      then {| dataTheme := Some (str "dark"); stored := stored s |}
      else {| dataTheme := Some (str "light"); stored := stored s |}
  end.

Definition toggleTheme (s : State) : State :=
  let current := orElse (dataTheme s) (str "dark") in
  let next := if strictEq current (str "light") then str "dark"
              else str "light" in
  {| dataTheme := Some next; stored := Some next |}.

(** The ['change'] listener of the colour-scheme media query. *)
Definition onSystemChange (matches : bool) (s : State) : State :=
  if negb (truthy (stored s))
  then {| dataTheme := Some (if matches then str "dark" else str "light");
          stored := stored s |}
  else s.

Inductive Event : Type :=
| Click                          (* on the theme button *)
| SystemChange (matches : bool)
| Load (prefersDark : bool).     (* the script runs again on a new page *)

Definition handle (s : State) (ev : Event) : State :=
  match ev with
  | Click => toggleTheme s
  | SystemChange m => onSystemChange m s
  | Load p => initTheme p s
  end.

Definition run (evs : list Event) (s : State) : State := fold_left handle evs s.

End Theme.

(* ================================================================== *)
(** * Further vocabulary                                               *)
(* ================================================================== *)

Module Extra.

(** The events of the overlay that may assign [window.location.href]: the
    keys H and Enter and a click on a result. *)
Definition mayNavigate (ev : Overlay.Event) : bool :=
  match ev with
  | Overlay.Keydown e => keyIs e "h" || keyIs e "H" || keyIs e "Enter"
  | Overlay.ResultClick _ => true
  | _ => false
  end.

(** A key the list navigator and the top navigation do not act on: the
    focus is in a text field or a modifier is held. *)
Definition suppressed (e : KeyEvent) : bool :=
  tagIs e "INPUT" || tagIs e "TEXTAREA"
  || ctrlKey e || metaKey e || altKey e.

(** The timer of the list navigator is single-slot and the buffer holds
    digits only while a timer is pending. *)
Definition timerInvariant (s : ListNav.State) : Prop :=
  Spec.singleSlot s
  /\ (ListNav.pendingTimers s = [] -> ListNav.numberBuffer s = []).

(** The links keep their targets [hrefs], the current index is in range,
    link [i] is highlighted exactly when [i] is the current index, and
    outside keyboard mode nothing is current. *)
Definition highlightInvariant (hrefs : list jsstring) (s : ListNav.State)
  : Prop :=
  map ListNav.href (ListNav.links s) = hrefs
  /\ -1 <= ListNav.currentIndex s <= Z.of_nat (length hrefs) - 1
  /\ (forall i l, ListNav.links s !! i = Some l ->
                  ListNav.highlighted l
                  = (Z.of_nat i =? ListNav.currentIndex s))
  /\ (ListNav.keyboardNavActive s = false -> ListNav.currentIndex s = -1).

(** The colour-scheme flag an event of the theme script carries when it
    comes from the system or from a page load; a click carries none. *)
Definition fromSystem (ev : Theme.Event) : option bool :=
  match ev with
  | Theme.Click => None
  | Theme.SystemChange m => Some m
  | Theme.Load p => Some p
  end.

(** The theme the script sets for a colour-scheme flag. *)
Definition themeOf (dark : bool) : jsstring :=
  if dark then str "dark" else str "light".

End Extra.

(* ================================================================== *)
(** * Further example pages                                            *)
(* ================================================================== *)

Module MoreFixtures.

Import Overlay Fixtures.

(** An index whose search throws. *)
Definition failingIndex : LunrIndex := fun _ => Throw LibraryError.

Definition broken : State :=
  set_lunrDefined true (set_lunrIndex (Some failingIndex) loaded).

(** A host whose indexing library builds the ranked index. *)
Definition buildingHost : Host :=
  {| lunr := fun _ => Normal ranked;
     replaceMark := fun _ snippet => snippet |}.

(** The overlay just opened on the loaded corpus. *)
Definition opened : State := exec (openSearch plainHost) loaded.

(** The list navigator with the digits 1 and 2 buffered. *)
Definition typing : ListNav.State :=
  ListNav.run [ListNav.Keydown (Spec.digitKey "1");
               ListNav.Keydown (Spec.digitKey "2")] listPage.

(** A top navigation with three sections, the user scrolled down. *)
Definition topNav : Script.State :=
  Script.initial
    [ {| Script.textContent := str " Blog "; Script.href := str "/blog/" |};
      {| Script.textContent := str "Books"; Script.href := str "/books/" |};
      {| Script.textContent := str "Hobbies"; Script.href := str "/hobbies/" |} ]
    300.

End MoreFixtures.

(* ================================================================== *)
(** * Facts about the string model                                     *)
(* ================================================================== *)

Section StringFacts.

Lemma strictEq_spec (a b : jsstring) : strictEq a b = true <-> a = b.
Proof.
  revert b; induction a as [|x a IH]; intros [|y b]; simpl; try easy.
  rewrite andb_true_iff, Ascii.eqb_eq, IH.
  split; [intros [-> ->]; reflexivity | intros [= -> ->]; auto].
Qed.

Lemma strictEq_refl (a : jsstring) : strictEq a a = true.
Proof. now apply strictEq_spec. Qed.

Lemma startsWith_spec (s t : jsstring) :
  startsWith s t = true <-> exists post, s = t ++ post.
Proof.
  revert s; induction t as [|y t IH]; intros s; simpl.
  - split; [intros _; now exists s | reflexivity].
  - destruct s as [|x s].
    + split; [discriminate | intros [post [=]]].
    + rewrite andb_true_iff, Ascii.eqb_eq, IH. split.
      * intros [-> [post ->]]. now exists post.
      * intros [post [= -> ->]]. split; [reflexivity | now exists post].
Qed.

Lemma OccursAt_nonneg (s t : jsstring) (j : Z) : Spec.OccursAt s t j -> 0 <= j.
Proof. intros (pre & post & _ & <-). unfold len. lia. Qed.

Lemma OccursAt_zero (s t : jsstring) :
  Spec.OccursAt s t 0 <-> startsWith s t = true.
Proof.
  rewrite startsWith_spec. split.
  - intros (pre & post & -> & Hlen). destruct pre; [|discriminate Hlen].
    now exists post.
  - intros [post ->]. now exists [], post.
Qed.

Lemma OccursAt_cons (x : ascii) (s t : jsstring) (j : Z) :
  Spec.OccursAt (x :: s) t j <->
  (j = 0 /\ startsWith (x :: s) t = true) \/ Spec.OccursAt s t (j - 1).
Proof.
  split.
  - intros (pre & post & Heq & Hlen). destruct pre as [|y pre].
    + left. split; [now subst|]. apply startsWith_spec. now exists post.
    + right. injection Heq as -> ->. exists pre, post. split; [reflexivity|].
      unfold len in *. simpl in Hlen. lia.
  - intros [[-> H] | (pre & post & -> & Hlen)].
    + now apply OccursAt_zero.
    + exists (x :: pre), post. split; [reflexivity|].
      unfold len in *. simpl. lia.
Qed.

(** [indexOf] returns the least offset at which the needle occurs, and
    [-1] exactly when it occurs nowhere. *)
Lemma indexOfFrom_spec (s t : jsstring) (i : Z) :
  (indexOfFrom i s t = -1 /\ forall j, ~ Spec.OccursAt s t j)
  \/ (exists k, indexOfFrom i s t = i + k /\ Spec.OccursAt s t k
               /\ forall j, Spec.OccursAt s t j -> k <= j).
Proof.
  revert i; induction s as [|x s IH]; intros i; simpl.
  - destruct (startsWith [] t) eqn:E.
    + right. exists 0. split; [lia|]. split; [now apply OccursAt_zero|].
      intros j Hj. now apply OccursAt_nonneg in Hj.
    + left. split; [reflexivity|]. intros j (pre & post & Heq & _).
      destruct pre; [|discriminate]. destruct t; [|discriminate].
      discriminate E.
  - destruct (startsWith (x :: s) t) eqn:E.
    + right. exists 0. split; [lia|]. split; [now apply OccursAt_zero|].
      intros j Hj. now apply OccursAt_nonneg in Hj.
    + destruct (IH (i + 1)) as [[Hm Hno] | (k & Hk & Hocc & Hmin)].
      * left. split; [exact Hm|]. intros j Hj.
        apply OccursAt_cons in Hj as [[_ Hs] | Hj]; [congruence|].
        now apply (Hno (j - 1)).
      * right. exists (k + 1). split; [lia|]. split.
        -- apply OccursAt_cons. right. now replace (k + 1 - 1) with k by lia.
        -- intros j Hj. apply OccursAt_cons in Hj as [[_ Hs] | Hj]; [congruence|].
           apply Hmin in Hj. lia.
Qed.

Lemma indexOf_range (s t : jsstring) : -1 <= indexOf s t <= len s.
Proof.
  unfold indexOf.
  destruct (indexOfFrom_spec s t 0) as [[-> _] | (k & -> & Hocc & _)].
  - unfold len; lia.
  - destruct Hocc as (pre & post & -> & <-). unfold len.
    rewrite !length_app. lia.
Qed.

Lemma indexOf_none (s t : jsstring) :
  indexOf s t = -1 <-> forall j, ~ Spec.OccursAt s t j.
Proof.
  unfold indexOf.
  destruct (indexOfFrom_spec s t 0) as [[Hm Hno] | (k & Hk & Hocc & _)].
  - tauto.
  - split.
    + intros H. apply OccursAt_nonneg in Hocc. lia.
    + intros Hno. now destruct (Hno k).
Qed.

Lemma indexOf_least (s t : jsstring) :
  indexOf s t <> -1 ->
  Spec.OccursAt s t (indexOf s t)
  /\ forall j, Spec.OccursAt s t j -> indexOf s t <= j.
Proof.
  unfold indexOf. intros Hne.
  destruct (indexOfFrom_spec s t 0) as [[Hm _] | (k & Hk & Hocc & Hmin)].
  - congruence.
  - rewrite Hk. simpl. split; [exact Hocc | exact Hmin].
Qed.










End StringFacts.

(* ================================================================== *)
(** * Facts about handlers                                             *)
(* ================================================================== *)

Section HandlerFacts.

Context {S : Type}.

Lemma preserves_ret {A} (I : S -> Prop) (a : A) : preserves I (ret a).
Proof. intros s H. exact H. Qed.

Lemma preserves_modify (I : S -> Prop) (f : S -> S) :
  (forall s, I s -> I (f s)) -> preserves I (modify f).
Proof. intros Hf s H. now apply Hf. Qed.

Lemma preserves_bind {A B} (I : S -> Prop) (m : Js S A) (k : A -> Js S B) :
  preserves I m -> (forall a, preserves I (k a)) -> preserves I (bind m k).
Proof.
  intros Hm Hk s H. specialize (Hm s H). unfold exec, bind in *.
  destruct (m s) as [[a|e] s']; simpl in *; [now apply Hk | exact Hm].
Qed.

Lemma preserves_get {B} (I : S -> Prop) (k : S -> Js S B) :
  (forall s, I s -> I (exec (k s) s)) -> preserves I (bind get k).
Proof. intros Hk s H. now apply Hk. Qed.

Lemma preserves_tryCatch {A} (I : S -> Prop) (m : Js S A)
    (h : JsError -> Js S A) :
  preserves I m -> (forall e, preserves I (h e)) -> preserves I (tryCatch m h).
Proof.
  intros Hm Hh s H. specialize (Hm s H). unfold exec, tryCatch in *.
  destruct (m s) as [[a|e] s']; simpl in *; [exact Hm | now apply Hh].
Qed.

Lemma neverThrows_ret {A} (a : A) : neverThrows (S := S) (ret a).
Proof. intros s. now exists a. Qed.

Lemma neverThrows_modify (f : S -> S) : neverThrows (modify f).
Proof. intros s. now exists tt. Qed.

Lemma neverThrows_bind {A B} (m : Js S A) (k : A -> Js S B) :
  neverThrows m -> (forall a, neverThrows (k a)) -> neverThrows (bind m k).
Proof.
  intros Hm Hk s. destruct (Hm s) as [a Ha]. unfold outcome, bind in *.
  destruct (m s) as [[a'|e] s']; simpl in *; [apply Hk | discriminate Ha].
Qed.

Lemma neverThrows_get {B} (k : S -> Js S B) :
  (forall s, neverThrows (k s)) -> neverThrows (bind get k).
Proof. intros Hk s. apply (Hk s s). Qed.

Lemma neverThrows_run {A} (m : Js S A) (f : S -> A * S) :
  (forall s, m s = (Normal (fst (f s)), snd (f s))) -> neverThrows m.
Proof. intros H s. exists (fst (f s)). unfold outcome. now rewrite H. Qed.

Lemma unit_outcome (m : Js S unit) (s : S) :
  neverThrows m -> outcome m s = Normal tt.
Proof. intros H. destruct (H s) as [[] Ha]. exact Ha. Qed.

End HandlerFacts.

(* ================================================================== *)
(** * Facts about the search overlay                                   *)
(* ================================================================== *)

Section OverlayFacts.

Import Overlay.

Variable host : Host.

Ltac js_unfold :=
  unfold exec, outcome, bind, modify, get, ret, lift, throw, tryCatch in *.

(** Rendering writes the results view and nothing else, also when a
    snippet throws. *)
Lemma renderResults_state (s : State) :
  exists v, exec (renderResults host) s = set_resultsView v s.
Proof.
  unfold renderResults. js_unfold. simpl.
  destruct (Z.of_nat (length (searchResults s)) =? 0).
  - destruct (negb (len (trim (searchQuery s)) =? 0)); simpl; eauto.
  - destruct (renderItems host _ _ _ _); simpl; eauto.
Qed.

Lemma renderResults_searchResults (s : State) :
  searchResults (exec (renderResults host) s) = searchResults s.
Proof. destruct (renderResults_state s) as [v ->]. reflexivity. Qed.

Lemma renderResults_selected (s : State) :
  selectedResultIndex (exec (renderResults host) s) = selectedResultIndex s.
Proof. destruct (renderResults_state s) as [v ->]. reflexivity. Qed.

Lemma renderResults_location (s : State) :
  location (exec (renderResults host) s) = location s.
Proof. destruct (renderResults_state s) as [v ->]. reflexivity. Qed.

Lemma exec_then_render {A} (m : Js State A) (s : State) :
  exists v,
    exec (bind m (fun _ => renderResults host)) s
    = match outcome m s with
      | Normal _ => set_resultsView v (exec m s)
      | Throw _ => exec m s
      end.
Proof.
  unfold exec, outcome, bind.
  destruct (m s) as [[a|e] s']; simpl.
  - destruct (renderResults_state s') as [v Hv]. exists v. exact Hv.
  - now exists ViewEmpty.
Qed.

Lemma fallbackSearch_results (s : State) (query : jsstring) :
  searchResults (exec (fallbackSearch host query) s)
  = take 10 (List.filter (fallbackMatches (toLowerCase query)) (documents s)).
Proof.
  unfold fallbackSearch.
  change (exec _ s) with
    (exec (renderResults host)
       (set_selectedResultIndex (-1)
          (set_searchResults
             (take 10 (List.filter (fallbackMatches (toLowerCase query))
                                   (documents s))) s))).
  now rewrite renderResults_searchResults.
Qed.

Lemma performSearch_results (s : State) (query : jsstring) :
  searchResults (exec (performSearch host query) s) = Spec.resultsOf s query.
Proof.
  unfold performSearch, Spec.resultsOf.
  destruct (len (trim query) =? 0).
  - change (exec _ s) with
      (exec (renderResults host) (set_searchResults [] s)).
    now rewrite renderResults_searchResults.
  - unfold exec at 1, bind at 1, get. simpl.
    destruct (lunrIndex s) as [index|]; [|apply fallbackSearch_results].
    destruct (negb (lunrDefined s)); [apply fallbackSearch_results|].
    js_unfold. simpl.
    destruct (index _) as [refs|e]; simpl;
      exact (renderResults_searchResults _).
Qed.

(** C4. For every query text and every corpus, the result sequence of
    search has at most ten entries, whichever path [performSearch] takes:
    the blank query, the fallback substring search, the indexed search or
    the indexed search that throws. *)
Theorem search_at_most_ten (s : State) (query : jsstring) :
  (length (Spec.search host s query) <= 10)%nat.
Proof.
  unfold Spec.search. rewrite performSearch_results. unfold Spec.resultsOf.
  destruct (len (trim query) =? 0); [simpl; lia|].
  destruct (lunrIndex s) as [index|].
  - destruct (negb (lunrDefined s)).
    + rewrite length_take. lia.
    + destruct (index _); [rewrite length_take|simpl]; lia.
  - rewrite length_take. lia.
Qed.

(** ** The fallback path *)



(** [FirstMatching] leaves no choice: it describes one list. *)
Lemma FirstMatching_unique {A} (P : A -> Prop) n (l r r' : list A) :
  Spec.FirstMatching P n l r -> Spec.FirstMatching P n l r' -> r = r'.
Proof.
  intros H. revert r'. induction H; intros r' H'; inversion H'; subst;
    try reflexivity; try contradiction.
  - f_equal. now apply IHFirstMatching.
  - now apply IHFirstMatching.
Qed.




(** ** The indexed path *)


Lemma findById_none (docs : list Document) (ref : jsstring) :
  findById docs ref = None <-> forall d, In d docs -> id d <> ref.
Proof.
  unfold findById. split.
  - intros H d Hin Heq. apply (find_none _ _ H) in Hin.
    apply strictEq_spec in Heq. congruence.
  - intros H. destruct (List.find _ docs) as [d|] eqn:E; [|reflexivity].
    apply find_some in E as [Hin Heq]. apply strictEq_spec in Heq.
    now destruct (H d Hin).
Qed.





(** ** The selection *)

Lemma renderResults_preserves (I : State -> Prop) :
  (forall v s, I s -> I (set_resultsView v s)) ->
  preserves I (renderResults host).
Proof.
  intros HI s H. destruct (renderResults_state s) as [v ->]. now apply HI.
Qed.

Lemma selection_render : preserves Spec.selectionInRange (renderResults host).
Proof. apply renderResults_preserves. intros v s H. exact H. Qed.

Lemma selection_reset (r : list Document) (s : State) :
  Spec.selectionInRange (set_selectedResultIndex (-1) (set_searchResults r s)).
Proof. unfold Spec.selectionInRange. simpl. lia. Qed.

Lemma selection_open : preserves Spec.selectionInRange (openSearch host).
Proof.
  intros s _. unfold openSearch.
  match goal with |- Spec.selectionInRange (exec _ ?s0) =>
    change (Spec.selectionInRange
              (exec (renderResults host)
                 (set_selectedResultIndex (-1) (set_searchResults []
                    (set_searchQuery [] (set_inputValue []
                       (set_overlayShown true (set_searchActive true s0))))))))
  end.
  apply selection_render. unfold Spec.selectionInRange. simpl. lia.
Qed.

Lemma selection_close : preserves Spec.selectionInRange closeSearch.
Proof. intros s _. unfold Spec.selectionInRange. simpl. lia. Qed.

Lemma selection_keydown (e : KeyEvent) :
  preserves Spec.selectionInRange (onKeydown host e).
Proof.
  unfold onKeydown. apply preserves_get. intros s0 H0.
  revert H0. apply preserves_bind.
  { destruct (keyIs e "h" || keyIs e "H"); [|apply preserves_ret].
    destruct (_ && _); [|apply preserves_ret].
    apply preserves_modify. intros s H. exact H. }
  intros _. apply preserves_bind.
  { destruct (_ && _); [apply selection_open | apply preserves_ret]. }
  intros _. apply preserves_get. intros s H.
  destruct (negb (searchActive s)); [exact H|].
  destruct (keyIs e "Escape"); [now apply selection_close|].
  destruct (keyIs e "ArrowDown").
  { destruct (0 <=? _) eqn:E; [|exact H].
    apply Z.leb_le in E.
    match goal with |- Spec.selectionInRange (exec _ ?s0) =>
      change (Spec.selectionInRange
                (exec (renderResults host)
                   (set_selectedResultIndex
                      (Z.min (selectedResultIndex s0 + 1)
                             (Z.of_nat (length (searchResults s0)) - 1)) s0)))
    end.
    apply selection_render. unfold Spec.selectionInRange. simpl. lia. }
  destruct (keyIs e "ArrowUp").
  { match goal with |- Spec.selectionInRange (exec _ ?s0) =>
      change (Spec.selectionInRange
                (exec (renderResults host)
                   (set_selectedResultIndex
                      (Z.max (selectedResultIndex s0 - 1) (-1)) s0)))
    end.
    apply selection_render. unfold Spec.selectionInRange in *. simpl. lia. }
  destruct (_ && _); [|exact H].
  destruct (resultAt s _); exact H.
Qed.

Lemma selection_fallback (query : jsstring) :
  preserves Spec.selectionInRange (fallbackSearch host query).
Proof.
  intros s _. unfold fallbackSearch.
  match goal with |- Spec.selectionInRange (exec _ ?s0) =>
    change (Spec.selectionInRange
       (exec (renderResults host)
          (set_selectedResultIndex (-1)
             (set_searchResults
                (take 10 (List.filter (fallbackMatches (toLowerCase query))
                                      (documents s0))) s0))))
  end.
  apply selection_render, selection_reset.
Qed.

(** A query that is not blank resets the selection on every path. *)
Lemma selection_search (query : jsstring) :
  trim query <> [] -> preserves Spec.selectionInRange (performSearch host query).
Proof.
  intros Hq. unfold performSearch.
  destruct (len (trim query) =? 0) eqn:E.
  { apply Z.eqb_eq in E. unfold len in E.
    destruct (trim query); [contradiction | discriminate E]. }
  apply preserves_get. intros s H.
  destruct (lunrIndex s) as [index|]; [|now apply selection_fallback].
  destruct (negb (lunrDefined s)); [now apply selection_fallback|].
  unfold exec, bind, tryCatch, lift, get, modify. simpl.
  destruct (index _) as [refs|err]; simpl.
  all: match goal with |- Spec.selectionInRange (snd (renderResults host ?s1)) =>
         change (Spec.selectionInRange (exec (renderResults host) s1))
       end; apply selection_render, selection_reset.
Qed.

(** Every event keeps the selection inside the results, a blank query
    typed into the search box being the one exception. *)
Lemma selection_handle (ev : Event) :
  (forall value, ev = Input value -> trim value <> []) ->
  preserves Spec.selectionInRange (handle host ev).
Proof.
  intros Hev. destruct ev as [value|e| | |b|i|data| |]; simpl.
  - intros s H. unfold onInput.
    change (Spec.selectionInRange
              (exec (performSearch host value)
                    (set_searchQuery value (set_inputValue value s)))).
    apply selection_search; [now apply Hev | exact H].
  - apply selection_keydown.
  - apply selection_open.
  - apply selection_open.
  - destruct b; [apply selection_close | apply preserves_ret].
  - unfold onResultClick. apply preserves_get. intros s H.
    destruct (resultsView s) as [| |items]; try exact H.
    destruct (items !! i); exact H.
  - intros s H. unfold indexFetched, buildLunrIndex.
    unfold exec, bind, modify, get, tryCatch, lift, ret. simpl.
    destruct (_ || _); simpl; [exact H|].
    destruct (lunr host data); simpl; exact H.
  - intros s H. exact H.
  - intros s H. unfold buildLunrIndex.
    unfold exec, bind, modify, get, tryCatch, lift, ret. simpl.
    destruct (_ || _); simpl; [exact H|].
    destruct (lunr host _); simpl; exact H.
Qed.

(** A blank query empties the results and leaves the selection where it
    was. *)
Lemma blank_input_keeps_selection (value : jsstring) (s : State) :
  trim value = [] ->
  searchResults (exec (onInput host value) s) = []
  /\ selectedResultIndex (exec (onInput host value) s) = selectedResultIndex s.
Proof.
  intros Hv. unfold onInput.
  change (exec _ s) with
    (exec (performSearch host value)
          (set_searchQuery value (set_inputValue value s))).
  set (s0 := set_searchQuery value (set_inputValue value s)).
  unfold performSearch. rewrite Hv. simpl (len [] =? 0). cbv iota.
  change (exec _ s0) with (exec (renderResults host) (set_searchResults [] s0)).
  now rewrite renderResults_searchResults, renderResults_selected.
Qed.

End OverlayFacts.

(* ================================================================== *)
(** * The search overlay on the example pages                          *)
(* ================================================================== *)

Section OverlayExamples.

Import Overlay Fixtures.

(** C1.  The claim: after any sequence of open, close, query change and
    arrow keys the selection lies in [-1, len(results)-1], a query change
    to a blank text included, which resets it to -1.  The code leaves
    [performSearch] early on a blank query, before the reset: after
    opening the overlay, typing "cache", pressing ArrowDown and clearing
    the box, the results are empty and the selection is still 0. *)
Theorem blank_query_leaves_stale_selection :
  let s := run plainHost
             [SearchButtonClick; Input (str "cache");
              Keydown (press "ArrowDown" "INPUT"); Input []]
             loaded in
  searchResults s = []
  /\ selectedResultIndex s = 0
  /\ ~ Spec.selectionInRange s.
Proof.
  repeat split.
  intros [_ H]. vm_compute in H. now apply H.
Qed.





End OverlayExamples.

(* ================================================================== *)
(** * Facts about the page-list navigator                              *)
(* ================================================================== *)

Section ListNavFacts.

Import ListNav.

Lemma linkAt_in_range (i : Z) (s : State) :
  0 <= i < linkCount s ->
  exists l, links s !! Z.to_nat i = Some l /\ linkAt i s = (Normal l, s).
Proof.
  intros Hi. unfold linkCount in Hi.
  destruct (lookup_lt_is_Some_2 (links s) (Z.to_nat i)) as [l Hl]; [lia|].
  exists l. split; [exact Hl|].
  unfold linkAt, bind, get, ret.
  destruct (i <? 0) eqn:E; [apply Z.ltb_lt in E; lia|].
  now rewrite Hl.
Qed.

(** [highlightLink] never throws, and leaves one of two states. *)
Lemma highlightLink_run (i : Z) (s : State) :
  highlightLink i s
  = (Normal tt,
     if (0 <=? i) && (i <? linkCount s)
     then Spec.highlightedAt i s else Spec.cleared s).
Proof.
  unfold highlightLink, clearHighlight, setKeyboardNavMode.
  unfold bind at 1 2 3 4 5, get at 1 2, modify at 1 2 3. simpl.
  change (linkCount (set_navClass true _)) with
    (Z.of_nat (length (map unmark (links s)))).
  rewrite length_map. fold (linkCount s).
  destruct ((0 <=? i) && (i <? linkCount s)) eqn:E; [|reflexivity].
  apply andb_true_iff in E as [E1 E2].
  apply Z.leb_le in E1. apply Z.ltb_lt in E2.
  unfold bind at 1, modify at 1.
  set (s1 := set_currentIndex i _).
  destruct (linkAt_in_range i s1) as (l & _ & Hl).
  { unfold s1, linkCount. simpl. rewrite length_map. fold (linkCount s). lia. }
  unfold bind at 1. rewrite Hl. reflexivity.
Qed.

Lemma linkCount_highlightedAt (i : Z) (s : State) :
  linkCount (Spec.highlightedAt i s) = linkCount s.
Proof.
  unfold linkCount, Spec.highlightedAt. simpl.
  now rewrite length_alter, length_map.
Qed.

Lemma linkCount_cleared (s : State) : linkCount (Spec.cleared s) = linkCount s.
Proof. unfold linkCount, Spec.cleared. simpl. now rewrite length_map. Qed.

Lemma navigateToLink_run (s : State) :
  navigateToLink s
  = (Normal tt,
     if (0 <=? currentIndex s) && (currentIndex s <? linkCount s)
     then match links s !! Z.to_nat (currentIndex s) with
          | Some l => set_location (Some (href l)) s
          | None => s
          end
     else s).
Proof.
  unfold navigateToLink, bind at 1, get at 1.
  destruct ((0 <=? currentIndex s) && (currentIndex s <? linkCount s)) eqn:E;
    [|reflexivity].
  apply andb_true_iff in E as [E1 E2].
  apply Z.leb_le in E1. apply Z.ltb_lt in E2.
  destruct (linkAt_in_range (currentIndex s) s) as (l & Hl & Hrun); [lia|].
  unfold bind. rewrite Hrun, Hl. reflexivity.
Qed.

Lemma cancelNumber_run (s : State) :
  cancelNumber s
  = (Normal tt,
     match numberTimeout s with
     | Some t =>
         set_pendingTimers
           (List.filter (fun u => negb (u =? t)%nat) (pendingTimers s))
           (set_numberBuffer [] s)
     | None => set_numberBuffer [] s
     end).
Proof.
  unfold cancelNumber, clearTimeout, bind, modify, get, ret. simpl.
  destruct (numberTimeout s); reflexivity.
Qed.

Lemma handleNumberKey_run (num : jsstring) (s : State) :
  Spec.singleSlot s ->
  handleNumberKey num s = (Normal tt, Spec.buffered num s).
Proof.
  intros Hs. unfold handleNumberKey, clearTimeout, setTimeout.
  unfold bind, get, modify, ret, Spec.buffered.
  destruct Hs as [Hp | (t & Hp & Ht)].
  - destruct (numberTimeout s) as [t0|] eqn:E; simpl; rewrite ?Hp; reflexivity.
  - rewrite Ht. simpl. rewrite Hp. simpl. rewrite Nat.eqb_refl. reflexivity.
Qed.

Lemma settle_run (s : State) :
  settle s
  = (Normal tt,
     set_numberBuffer []
       match parseInt (numberBuffer s) with
       | Some v =>
           if (0 <=? v - 1) && (v - 1 <? linkCount s)
           then Spec.highlightedAt (v - 1) s else s
       | None => s
       end).
Proof.
  unfold settle, bind at 1 2, get at 1.
  destruct (parseInt (numberBuffer s)) as [v|]; simpl; [|reflexivity].
  destruct ((0 <=? v - 1) && (v - 1 <? linkCount s)) eqn:E; [|reflexivity].
  rewrite highlightLink_run, E. reflexivity.
Qed.

(** ** Nothing in the navigator throws *)

Lemma highlightLink_total (i : Z) : neverThrows (highlightLink i).
Proof. intros s. exists tt. unfold outcome. now rewrite highlightLink_run. Qed.

Lemma navigateToLink_total : neverThrows navigateToLink.
Proof. intros s. exists tt. unfold outcome. now rewrite navigateToLink_run. Qed.

Lemma cancelNumber_total : neverThrows cancelNumber.
Proof. intros s. exists tt. unfold outcome. now rewrite cancelNumber_run. Qed.

Lemma settle_total : neverThrows settle.
Proof. intros s. exists tt. unfold outcome. now rewrite settle_run. Qed.

Lemma clearTimeout_total (t : nat) : neverThrows (clearTimeout t).
Proof. intros s. now exists tt. Qed.

Lemma handleNumberKey_total (num : jsstring) : neverThrows (handleNumberKey num).
Proof.
  unfold handleNumberKey. apply neverThrows_get. intros s.
  apply neverThrows_bind.
  { destruct (numberTimeout s); [apply clearTimeout_total | apply neverThrows_ret]. }
  intros _ s'. now exists tt.
Qed.

Lemma onKeydown_total (e : KeyEvent) : neverThrows (onKeydown e).
Proof.
  unfold onKeydown.
  destruct (_ && _); [apply neverThrows_ret|].
  destruct (_ || _); [apply neverThrows_ret|].
  apply neverThrows_get. intros s.
  destruct (keyIs e "ArrowDown").
  { apply neverThrows_bind; [|intros _; apply cancelNumber_total].
    destruct (_ <? _); [apply highlightLink_total | apply neverThrows_ret]. }
  destruct (keyIs e "ArrowUp").
  { apply neverThrows_bind; [|intros _; apply cancelNumber_total].
    destruct (_ <=? _); [apply highlightLink_total | apply neverThrows_ret]. }
  destruct (_ && _); [apply navigateToLink_total|].
  destruct (_ && _); [apply handleNumberKey_total | apply neverThrows_ret].
Qed.

Lemma handle_total (ev : Event) : neverThrows (handle ev).
Proof.
  destruct ev as [e| |t]; simpl.
  - apply onKeydown_total.
  - unfold onMouseMove. apply neverThrows_get. intros s.
    destruct (keyboardNavActive s); [|apply neverThrows_ret].
    intros s'. now exists tt.
  - unfold onTimer. apply neverThrows_get. intros s.
    destruct (existsb _ _); [|apply neverThrows_ret].
    apply neverThrows_bind; [apply clearTimeout_total|].
    intros _. apply settle_total.
Qed.

(** ** The current index stays in range *)

Lemma inBounds_highlightLink (n i : Z) : preserves (Spec.inBounds n) (highlightLink i).
Proof.
  intros s [Hn Hc]. unfold exec. rewrite highlightLink_run. simpl.
  destruct ((0 <=? i) && (i <? linkCount s)) eqn:E.
  - apply andb_true_iff in E as [E1 E2].
    apply Z.leb_le in E1. apply Z.ltb_lt in E2.
    split; [now rewrite linkCount_highlightedAt|]. simpl. lia.
  - split; [now rewrite linkCount_cleared | exact Hc].
Qed.

Lemma inBounds_cancelNumber (n : Z) : preserves (Spec.inBounds n) cancelNumber.
Proof.
  intros s H. unfold exec. rewrite cancelNumber_run. simpl.
  destruct (numberTimeout s); exact H.
Qed.

Lemma inBounds_navigateToLink (n : Z) : preserves (Spec.inBounds n) navigateToLink.
Proof.
  intros s H. unfold exec. rewrite navigateToLink_run. simpl.
  destruct (_ && _); [|exact H].
  destruct (links s !! _); exact H.
Qed.

Lemma inBounds_handleNumberKey (n : Z) (num : jsstring) :
  preserves (Spec.inBounds n) (handleNumberKey num).
Proof.
  unfold handleNumberKey. apply preserves_get. intros s H. revert H.
  apply preserves_bind.
  { destruct (numberTimeout s); intros s' H'; exact H'. }
  intros _ s' H'. exact H'.
Qed.

Lemma inBounds_settle (n : Z) : preserves (Spec.inBounds n) settle.
Proof.
  intros s H. unfold exec. rewrite settle_run. simpl.
  destruct (parseInt (numberBuffer s)) as [v|]; [|exact H].
  destruct (_ && _) eqn:E; [|exact H].
  change (exec (highlightLink (v - 1)) s) with (snd (highlightLink (v - 1) s))
    in *.
  pose proof (inBounds_highlightLink n (v - 1) s H) as Hh.
  unfold exec in Hh. rewrite highlightLink_run, E in Hh. exact Hh.
Qed.

Lemma inBounds_onKeydown (n : Z) (e : KeyEvent) :
  preserves (Spec.inBounds n) (onKeydown e).
Proof.
  unfold onKeydown.
  destruct (_ && _); [apply preserves_ret|].
  destruct (_ || _); [apply preserves_ret|].
  apply preserves_get. intros s H. revert H.
  destruct (keyIs e "ArrowDown").
  { apply preserves_bind; [|intros _; apply inBounds_cancelNumber].
    destruct (_ <? _); [apply inBounds_highlightLink | apply preserves_ret]. }
  destruct (keyIs e "ArrowUp").
  { apply preserves_bind; [|intros _; apply inBounds_cancelNumber].
    destruct (_ <=? _); [apply inBounds_highlightLink | apply preserves_ret]. }
  destruct (_ && _); [apply inBounds_navigateToLink|].
  destruct (_ && _); [apply inBounds_handleNumberKey | apply preserves_ret].
Qed.

Lemma inBounds_handle (n : Z) (ev : Event) : preserves (Spec.inBounds n) (handle ev).
Proof.
  destruct ev as [e| |t]; simpl.
  - apply inBounds_onKeydown.
  - unfold onMouseMove. apply preserves_get. intros s [Hn Hc].
    destruct (keyboardNavActive s); [|now split].
    split; [simpl; unfold linkCount in *; simpl; now rewrite length_map|].
    simpl. unfold linkCount in Hn. lia.
  - unfold onTimer. apply preserves_get. intros s H.
    destruct (existsb _ _); [|exact H]. revert H.
    apply preserves_bind; [intros s' H'; exact H'|].
    intros _. apply inBounds_settle.
Qed.

Lemma inBounds_run (n : Z) (evs : list Event) (s : State) :
  Spec.inBounds n s -> Spec.inBounds n (run evs s).
Proof.
  revert s. induction evs as [|ev evs IH]; intros s H; [exact H|].
  simpl. apply IH. now apply inBounds_handle.
Qed.

(** C7.  Whatever keys are pressed, timers fire or the mouse moves, the
    list keeps its links and the current index stays in [-1, linkCount-1];
    ArrowUp at index 0 and ArrowDown at the last index leave the current
    index, the highlight and the scroll position as they are: there is no
    wraparound. *)
Theorem arrow_keys_stay_in_bounds :
  (forall (hrefs : list jsstring) (evs : list Event),
      let s := run evs (initial hrefs) in
      linkCount s = Z.of_nat (length hrefs)
      /\ -1 <= currentIndex s <= linkCount s - 1)
  /\ (forall (e : KeyEvent) (s : State),
        key e = str "ArrowUp" -> currentIndex s = 0 ->
        let s' := exec (onKeydown e) s in
        currentIndex s' = 0 /\ links s' = links s
        /\ scrolledTo s' = scrolledTo s)
  /\ (forall (e : KeyEvent) (s : State),
        key e = str "ArrowDown" -> currentIndex s = linkCount s - 1 ->
        let s' := exec (onKeydown e) s in
        currentIndex s' = linkCount s - 1 /\ links s' = links s
        /\ scrolledTo s' = scrolledTo s).
Proof.
  split; [|split].
  - intros hrefs evs s.
    assert (H : Spec.inBounds (Z.of_nat (length hrefs)) s).
    { apply inBounds_run. split.
      - unfold linkCount, initial. simpl. now rewrite length_map.
      - unfold initial. simpl. lia. }
    destruct H as [Hn Hc]. split; [exact Hn | lia].
  - intros e s Hk Hc s'. subst s'. unfold onKeydown, keyIs. rewrite Hk.
    destruct (_ && _); [now auto|].
    destruct (_ || _); [now auto|].
    unfold exec, bind, get, ret. simpl. rewrite Hc. simpl.
    rewrite cancelNumber_run. simpl.
    destruct (numberTimeout s); simpl; auto.
  - intros e s Hk Hc s'. subst s'. unfold onKeydown, keyIs. rewrite Hk.
    destruct (_ && _); [auto|].
    destruct (_ || _); [auto|].
    unfold exec, bind, get, ret. simpl.
    replace (currentIndex s + 1 <? linkCount s) with false
      by (symmetry; apply Z.ltb_ge; lia).
    rewrite cancelNumber_run. simpl.
    destruct (numberTimeout s); simpl; auto.
Qed.

(** ** Buffered digits *)

Lemma parseDigits_value (ds : list ascii) (a : Z) :
  Forall (fun d => isDecimalDigit d = true) ds ->
  parseDigits (Some a) ds
  = Some (fold_left (fun acc d => 10 * acc + (code d - 48)) ds a).
Proof.
  intros H. revert a. induction H as [|d ds Hd _ IH]; intros a; simpl.
  - reflexivity.
  - rewrite Hd. apply IH.
Qed.

Lemma digit_not_space (d : ascii) :
  isDecimalDigit d = true ->
  isWhiteSpace d = false /\ isChar d "-" = false /\ isChar d "+" = false.
Proof. destruct d as [[] [] [] [] [] [] [] []]; now intros H. Qed.

(** [parseInt] reads a run of digits as their decimal value. *)
Lemma parseInt_digits (ds : list ascii) :
  ds <> [] -> Forall (fun d => isDecimalDigit d = true) ds ->
  parseInt ds = Some (Spec.decimalValue ds).
Proof.
  intros Hne H. destruct H as [|d ds Hd Hds]; [contradiction|].
  destruct (digit_not_space d Hd) as (Hw & Hm & Hp).
  unfold parseInt. simpl. rewrite Hw, Hm, Hp. simpl. rewrite Hd.
  now apply parseDigits_value.
Qed.

Lemma digitKey_run (d : ascii) (s : State) :
  isDecimalDigit d = true ->
  onKeydown (Spec.digitKey d) s = handleNumberKey [d] s.
Proof.
  intros Hd. unfold onKeydown, keyIs, tagIs, bind at 1, get at 1. simpl.
  rewrite !andb_false_r. simpl.
  unfold geStr. simpl.
  unfold isDecimalDigit, between in Hd.
  apply andb_true_iff in Hd as [H1 H2].
  apply Z.leb_le in H1. apply Z.leb_le in H2.
  change (code "0") with 48. change (code "9") with 57.
  destruct (48 <? code d) eqn:E1; destruct (code d <? 48) eqn:E2;
    destruct (code d <? 57) eqn:E3; destruct (57 <? code d) eqn:E4;
    try reflexivity;
    repeat match goal with
           | H : (_ <? _) = true |- _ => apply Z.ltb_lt in H
           | H : (_ <? _) = false |- _ => apply Z.ltb_ge in H
           end; lia.
Qed.

Lemma singleSlot_buffered (num : jsstring) (s : State) :
  Spec.singleSlot (Spec.buffered num s).
Proof. right. now exists (nextTimerId s). Qed.

(** Digit keys only fill the buffer and re-arm the timer. *)
Lemma digits_run (ds : list ascii) :
  Forall (fun d => isDecimalDigit d = true) ds ->
  forall s, Spec.singleSlot s ->
  let s1 := run (map (fun d => Keydown (Spec.digitKey d)) ds) s in
  Spec.singleSlot s1
  /\ numberBuffer s1 = numberBuffer s ++ ds
  /\ links s1 = links s
  /\ currentIndex s1 = currentIndex s
  /\ location s1 = location s
  /\ scrolledTo s1 = scrolledTo s
  /\ (ds <> [] -> exists t, pendingTimers s1 = [t]).
Proof.
  induction 1 as [|d ds Hd _ IH]; intros s Hs; cbv zeta.
  - simpl. rewrite app_nil_r. repeat split; auto. now intros [].
  - change (run (map (fun d => Keydown (Spec.digitKey d)) (d :: ds)) s)
      with (run (map (fun d => Keydown (Spec.digitKey d)) ds)
                (exec (onKeydown (Spec.digitKey d)) s)).
    assert (E : exec (onKeydown (Spec.digitKey d)) s = Spec.buffered [d] s).
    { unfold exec. now rewrite digitKey_run, handleNumberKey_run. }
    rewrite E.
    destruct (IH (Spec.buffered [d] s) (singleSlot_buffered [d] s))
      as (H1 & H2 & H3 & H4 & H5 & H6 & H7).
    repeat split; try assumption.
    + rewrite H2. simpl. now rewrite <- app_assoc.
    + intros _. destruct ds as [|d' ds'].
      * simpl. now exists (nextTimerId s).
      * now apply H7.
Qed.

Lemma onTimer_run (t : nat) (s : State) :
  pendingTimers s = [t] -> onTimer t s = settle (set_pendingTimers [] s).
Proof.
  intros Hp. unfold onTimer, clearTimeout, bind, get, modify.
  rewrite Hp. simpl. rewrite Nat.eqb_refl. simpl.
  rewrite Hp. simpl. rewrite Nat.eqb_refl. reflexivity.
Qed.

(** C6.  Digit keys pressed with no timer firing in between are read, on
    settle, as one number written in base ten and counted from 1: pressing
    them changes nothing but the buffer and the pending timer; when the
    timer fires and the number is in range, that link becomes current and
    highlighted and nothing is navigated to; when it is out of range the
    current index and the links stay as they were; in both cases the
    buffer is empty afterwards. *)
Theorem buffered_digits_settle_as_one_number (s : State) (ds : list ascii) :
  numberBuffer s = [] -> pendingTimers s = [] -> ds <> [] ->
  Forall (fun d => isDecimalDigit d = true) ds ->
  let s1 := run (map (fun d => Keydown (Spec.digitKey d)) ds) s in
  let n := Spec.decimalValue ds in
  exists t,
    pendingTimers s1 = [t]
    /\ numberBuffer s1 = ds
    /\ currentIndex s1 = currentIndex s
    /\ location s1 = location s
    /\ let s2 := exec (handle (TimerFired t)) s1 in
       numberBuffer s2 = []
       /\ pendingTimers s2 = []
       /\ location s2 = location s
       /\ (1 <= n <= linkCount s ->
           currentIndex s2 = n - 1
           /\ highlighted <$> links s2 !! Z.to_nat (n - 1) = Some true)
       /\ (~ 1 <= n <= linkCount s ->
           currentIndex s2 = currentIndex s /\ links s2 = links s).
Proof.
  intros Hb Hp Hne Hds s1 n.
  destruct (digits_run ds Hds s (or_introl Hp))
    as (_ & H2 & H3 & H4 & H5 & _ & H7).
  fold s1 in H2, H3, H4, H5, H7.
  destruct (H7 Hne) as [t Ht]. exists t.
  rewrite Hb in H2. simpl in H2.
  split; [exact Ht|]. split; [exact H2|]. split; [exact H4|].
  split; [exact H5|]. intros s2.
  set (s1' := set_pendingTimers [] s1).
  assert (Hlc : linkCount s1' = linkCount s)
    by (unfold linkCount, s1'; simpl; now rewrite H3).
  assert (E : s2 = set_numberBuffer []
                     (if (0 <=? n - 1) && (n - 1 <? linkCount s)
                      then Spec.highlightedAt (n - 1) s1' else s1')).
  { subst s2. simpl handle. unfold exec.
    rewrite (onTimer_run t s1 Ht), settle_run. fold s1'. simpl snd.
    change (numberBuffer s1') with (numberBuffer s1).
    now rewrite H2, (parseInt_digits ds Hne Hds), Hlc. }
  rewrite E. clear E.
  destruct ((0 <=? n - 1) && (n - 1 <? linkCount s)) eqn:R.
  - apply andb_true_iff in R as [R1 R2].
    apply Z.leb_le in R1. apply Z.ltb_lt in R2.
    split; [reflexivity|]. split; [reflexivity|]. split; [exact H5|].
    split; [|intros Hn; lia]. intros _. split; [reflexivity|].
    simpl. rewrite H3.
    destruct (lookup_lt_is_Some_2 (links s) (Z.to_nat (n - 1))) as [l Hl];
      [unfold linkCount in *; lia|].
    rewrite list_lookup_alter_eq, list_lookup_fmap, Hl. reflexivity.
  - split; [reflexivity|]. split; [reflexivity|]. split; [exact H5|].
    split; [|intros _; split; [exact H4 | exact H3]].
    intros Hn. apply andb_false_iff in R as [R|R];
      [apply Z.leb_gt in R | apply Z.ltb_ge in R]; lia.
Qed.

End ListNavFacts.

(* ================================================================== *)
(** * Navigation                                                       *)
(* ================================================================== *)

Section NavigationFacts.

Import Fixtures.

Lemma resultAt_some (s : Overlay.State) (i : Z) :
  0 <= i < Z.of_nat (length (Overlay.searchResults s)) ->
  exists doc, Overlay.searchResults s !! Z.to_nat i = Some doc
              /\ Overlay.resultAt s i = Some doc.
Proof.
  intros Hi.
  destruct (lookup_lt_is_Some_2 (Overlay.searchResults s) (Z.to_nat i))
    as [doc Hd]; [lia|].
  exists doc. split; [exact Hd|]. unfold Overlay.resultAt.
  destruct (i <? 0) eqn:E; [apply Z.ltb_lt in E; lia | exact Hd].
Qed.

Lemma resultAt_none (s : Overlay.State) (i : Z) :
  ~ 0 <= i < Z.of_nat (length (Overlay.searchResults s)) ->
  0 <= i -> Overlay.resultAt s i = None.
Proof.
  intros Hi H0. unfold Overlay.resultAt.
  destruct (i <? 0); [reflexivity|].
  apply lookup_ge_None_2. lia.
Qed.

(** Enter in the overlay: what the handler does, on every state. *)
Lemma overlay_enter_run (host : Overlay.Host) (e : KeyEvent)
    (s : Overlay.State) :
  key e = str "Enter" ->
  Overlay.onKeydown host e s
  = (Normal tt,
     if Overlay.searchActive s && (0 <=? Overlay.selectedResultIndex s)
     then match Overlay.resultAt s (Overlay.selectedResultIndex s) with
          | Some doc => Overlay.set_location (Some (Overlay.url doc)) s
          | None => s
          end
     else s).
Proof.
  intros Hk. unfold Overlay.onKeydown, keyIs. rewrite Hk.
  unfold bind, get, ret, modify. simpl.
  destruct (Overlay.searchActive s); simpl; [|reflexivity].
  destruct (0 <=? Overlay.selectedResultIndex s); [|reflexivity].
  destruct (Overlay.resultAt s _); reflexivity.
Qed.

(** Enter in the list navigator. *)
Lemma listnav_enter_run (e : KeyEvent) (s : ListNav.State) :
  key e = str "Enter" ->
  ListNav.onKeydown e s
  = (Normal tt,
     if tagIs e "INPUT" || tagIs e "TEXTAREA"
        || ctrlKey e || metaKey e || altKey e
     then s
     else if (0 <=? ListNav.currentIndex s)
             && (ListNav.currentIndex s <? ListNav.linkCount s)
     then match ListNav.links s !! Z.to_nat (ListNav.currentIndex s) with
          | Some l => ListNav.set_location (Some (ListNav.href l)) s
          | None => s
          end
     else s).
Proof.
  intros Hk. unfold ListNav.onKeydown, keyIs. rewrite Hk. simpl.
  rewrite andb_true_r.
  destruct (tagIs e "INPUT" || tagIs e "TEXTAREA"); [reflexivity|]. simpl.
  destruct (ctrlKey e || metaKey e || altKey e); [reflexivity|].
  unfold bind at 1, get at 1.
  destruct (0 <=? ListNav.currentIndex s) eqn:E; simpl; [|reflexivity].
  rewrite navigateToLink_run, E. reflexivity.
Qed.

(** C9.  Enter navigates only from a valid selection and is otherwise a
    no-op.  In the overlay it follows the url of the selected result when
    the overlay is open and the selection is an index of the current
    results, and leaves the state untouched otherwise (selection -1 or
    stale).  In the list navigator it follows the current link when the
    key is not suppressed and the current index is in [0, linkCount-1],
    and leaves the state untouched otherwise.  Neither handler throws, and
    no handler of the list navigator nor a click on a result does. *)
Theorem enter_navigation_is_guarded :
  (forall (host : Overlay.Host) (e : KeyEvent) (s : Overlay.State),
      key e = str "Enter" ->
      let valid :=
        Overlay.searchActive s = true
        /\ 0 <= Overlay.selectedResultIndex s
             < Z.of_nat (length (Overlay.searchResults s)) in
      let s' := exec (Overlay.onKeydown host e) s in
      outcome (Overlay.onKeydown host e) s = Normal tt
      /\ (valid ->
          exists doc,
            Overlay.searchResults s
              !! Z.to_nat (Overlay.selectedResultIndex s) = Some doc
            /\ s' = Overlay.set_location (Some (Overlay.url doc)) s)
      /\ (~ valid -> s' = s))
  /\ (forall (e : KeyEvent) (s : ListNav.State),
        key e = str "Enter" ->
        let valid :=
          (tagIs e "INPUT" || tagIs e "TEXTAREA"
           || ctrlKey e || metaKey e || altKey e) = false
          /\ 0 <= ListNav.currentIndex s < ListNav.linkCount s in
        let s' := exec (ListNav.onKeydown e) s in
        outcome (ListNav.onKeydown e) s = Normal tt
        /\ (valid ->
            exists l,
              ListNav.links s !! Z.to_nat (ListNav.currentIndex s) = Some l
              /\ s' = ListNav.set_location (Some (ListNav.href l)) s)
        /\ (~ valid -> s' = s))
  /\ (forall (ev : ListNav.Event) (s : ListNav.State),
        outcome (ListNav.handle ev) s = Normal tt)
  /\ (forall (i : nat) (s : Overlay.State),
        outcome (Overlay.onResultClick i) s = Normal tt).
Proof.
  split; [|split; [|split]].
  - intros host e s Hk valid s'. subst s'. unfold exec, outcome.
    rewrite (overlay_enter_run host e s Hk). simpl.
    split; [reflexivity|]. split.
    + intros [Ha Hi]. destruct (resultAt_some s _ Hi) as (doc & Hd & Hr).
      exists doc. split; [exact Hd|].
      rewrite Ha, Hr. simpl.
      now replace (0 <=? Overlay.selectedResultIndex s) with true
        by (symmetry; apply Z.leb_le; lia).
    + intros Hv. destruct (Overlay.searchActive s) eqn:Ha; [|reflexivity].
      simpl. destruct (0 <=? Overlay.selectedResultIndex s) eqn:E;
        [|reflexivity].
      apply Z.leb_le in E. rewrite resultAt_none; [reflexivity| |exact E].
      intros Hi. apply Hv. now split.
  - intros e s Hk valid s'. subst s'. unfold exec, outcome.
    rewrite (listnav_enter_run e s Hk). simpl.
    split; [reflexivity|]. split.
    + intros [Hg Hi]. rewrite Hg.
      destruct (lookup_lt_is_Some_2 (ListNav.links s)
                  (Z.to_nat (ListNav.currentIndex s))) as [l Hl];
        [unfold ListNav.linkCount in Hi; lia|].
      exists l. split; [exact Hl|]. rewrite Hl.
      now replace ((0 <=? ListNav.currentIndex s)
                   && (ListNav.currentIndex s <? ListNav.linkCount s))
        with true
        by (symmetry; apply andb_true_iff; split;
            [apply Z.leb_le | apply Z.ltb_lt]; lia).
    + intros Hv.
      destruct (tagIs e "INPUT" || tagIs e "TEXTAREA"
                || ctrlKey e || metaKey e || altKey e) eqn:Hg; [reflexivity|].
      destruct ((0 <=? ListNav.currentIndex s)
                && (ListNav.currentIndex s <? ListNav.linkCount s)) eqn:E;
        [|reflexivity].
      apply andb_true_iff in E as [E1 E2].
      apply Z.leb_le in E1. apply Z.ltb_lt in E2.
      destruct Hv. split; [reflexivity | lia].
  - intros ev s. apply unit_outcome, handle_total.
  - intros i s. unfold Overlay.onResultClick, outcome, bind, get.
    destruct (Overlay.resultsView s) as [| |items]; try reflexivity.
    destruct (items !! i); reflexivity.
Qed.

End NavigationFacts.

Section NavigationExamples.

Import Fixtures.

(** The keys 1 and 2 on a list of twelve links settle on the twelfth. *)
Lemma buffered_digits_settle_as_one_number_witness :
  ListNav.numberBuffer listPage = []
  /\ ListNav.pendingTimers listPage = []
  /\ str "12" <> []
  /\ Forall (fun d => isDecimalDigit d = true) (str "12")
  /\ let s1 := ListNav.run
                 [ListNav.Keydown (Spec.digitKey "1");
                  ListNav.Keydown (Spec.digitKey "2")] listPage in
     exists t,
       ListNav.pendingTimers s1 = [t]
       /\ ListNav.currentIndex
            (exec (ListNav.handle (ListNav.TimerFired t)) s1) = 11
       /\ ListNav.location
            (exec (ListNav.handle (ListNav.TimerFired t)) s1) = None.
Proof.
  assert (Hd : Forall (fun d => isDecimalDigit d = true) (str "12"))
    by (repeat constructor).
  split; [reflexivity|]. split; [reflexivity|]. split; [discriminate|].
  split; [exact Hd|].
  destruct (buffered_digits_settle_as_one_number listPage (str "12")
              eq_refl eq_refl ltac:(discriminate) Hd)
    as (t & Ht & _ & _ & _ & _ & _ & Hloc & Hin & _).
  exists t. split; [exact Ht|]. split; [|exact Hloc].
  apply Hin. cbv. split; discriminate.
Defined.

(** ArrowUp on the first link and ArrowDown on the last of twelve. *)
Lemma arrow_keys_stay_in_bounds_witness :
  (key (press "ArrowUp" "BODY") = str "ArrowUp"
   /\ ListNav.currentIndex onFirst = 0
   /\ ListNav.currentIndex
        (exec (ListNav.onKeydown (press "ArrowUp" "BODY")) onFirst) = 0)
  /\ (key (press "ArrowDown" "BODY") = str "ArrowDown"
      /\ ListNav.currentIndex onLast = ListNav.linkCount onLast - 1
      /\ ListNav.currentIndex
           (exec (ListNav.onKeydown (press "ArrowDown" "BODY")) onLast)
         = ListNav.linkCount onLast - 1).
Proof.
  destruct arrow_keys_stay_in_bounds as (_ & Hup & Hdown).
  split.
  - split; [reflexivity|]. split; [reflexivity|].
    apply (Hup (press "ArrowUp" "BODY") onFirst eq_refl eq_refl).
  - split; [reflexivity|]. split; [reflexivity|].
    apply (Hdown (press "ArrowDown" "BODY") onLast eq_refl eq_refl).
Defined.

(** Enter on the first result of the overlay and on the first link of
    the list. *)
Lemma enter_navigation_is_guarded_witness :
  (key (press "Enter" "INPUT") = str "Enter"
   /\ Overlay.searchActive selected = true
   /\ 0 <= Overlay.selectedResultIndex selected
        < Z.of_nat (length (Overlay.searchResults selected))
   /\ exists doc,
        Overlay.searchResults selected
          !! Z.to_nat (Overlay.selectedResultIndex selected) = Some doc
        /\ exec (Overlay.onKeydown plainHost (press "Enter" "INPUT")) selected
           = Overlay.set_location (Some (Overlay.url doc)) selected)
  /\ (key (press "Enter" "BODY") = str "Enter"
      /\ 0 <= ListNav.currentIndex onFirst < ListNav.linkCount onFirst
      /\ exists l,
           ListNav.links onFirst
             !! Z.to_nat (ListNav.currentIndex onFirst) = Some l
           /\ exec (ListNav.onKeydown (press "Enter" "BODY")) onFirst
              = ListNav.set_location (Some (ListNav.href l)) onFirst).
Proof.
  destruct enter_navigation_is_guarded as (Hov & Hnav & _ & _).
  assert (R1 : 0 <= Overlay.selectedResultIndex selected
                 < Z.of_nat (length (Overlay.searchResults selected)))
    by (cbv; split; [discriminate | reflexivity]).
  assert (R2 : 0 <= ListNav.currentIndex onFirst < ListNav.linkCount onFirst)
    by (cbv; split; [discriminate | reflexivity]).
  split.
  - split; [reflexivity|]. split; [reflexivity|]. split; [exact R1|].
    destruct (Hov plainHost (press "Enter" "INPUT") selected eq_refl)
      as (_ & Hgo & _).
    apply Hgo. split; [reflexivity | exact R1].
  - split; [reflexivity|]. split; [exact R2|].
    destruct (Hnav (press "Enter" "BODY") onFirst eq_refl) as (_ & Hgo & _).
    apply Hgo. split; [reflexivity | exact R2].
Defined.

End NavigationExamples.

(* ================================================================== *)
(** * The home shortcut                                                *)
(* ================================================================== *)

Section HomeShortcut.

Import Fixtures.

(** The listener of the search overlay leaves the location alone when H
    is pressed while the overlay is open. *)
Lemma overlay_ignores_home_key_when_open (host : Overlay.Host)
    (e : KeyEvent) (s : Overlay.State) :
  key e = str "h" \/ key e = str "H" ->
  Overlay.searchActive s = true ->
  exec (Overlay.onKeydown host e) s = s.
Proof.
  intros Hk Ha. unfold Overlay.onKeydown, keyIs.
  destruct Hk as [-> | ->]; unfold exec, bind, get, ret; simpl;
    rewrite Ha; simpl; rewrite Ha; reflexivity.
Qed.

(** The listener of the top navigation does not look at the overlay: H
    outside a text field and with no modifier always goes home. *)
Lemma script_home_key_goes_home (e : KeyEvent) (s : Script.State) :
  key e = str "h" \/ key e = str "H" ->
  (tagIs e "INPUT" || tagIs e "TEXTAREA") = false ->
  (ctrlKey e || metaKey e || altKey e) = false ->
  Script.location (Script.onKeydown e s) = Some (str "/").
Proof.
  intros Hk Ht Hm. unfold Script.onKeydown, keyIs. rewrite Ht, Hm.
  destruct Hk as [-> | ->]; reflexivity.
Qed.

(** C8.  The claim: H pressed while the overlay is open never sends the
    browser home, whichever listener receives the key.  The code: with the
    overlay open and the focus on an element that is not a text field
    (after a click on the hint line of the search box, say), the listener
    of the overlay ignores the key and the listener of the top navigation
    assigns ['/'] to the location. *)
Theorem home_key_fires_while_overlay_open :
  let e := press "h" "DIV" in
  let after := Page.onKeydown plainHost e overlayOpen in
  Overlay.searchActive (Page.overlay overlayOpen) = true
  /\ Overlay.location (Page.overlay after) = None
  /\ Script.location (Page.script after) = Some (str "/")
  /\ Page.wentHome after = true.
Proof. repeat split. Qed.

End HomeShortcut.

(* ================================================================== *)
(** * Facts about the snippet                                          *)
(* ================================================================== *)

Section SnippetFacts.

Import Overlay.

Variable host : Host.

(** The loop over the terms stops at the first term, in query order, that
    occurs in the content, and returns the offset [indexOf] gives for that
    term. *)
Lemma findMatchIndex_spec (lowerContent : jsstring) (terms : list jsstring) :
  (findMatchIndex lowerContent terms (-1) = -1
   /\ forall t, In t terms -> indexOf lowerContent t = -1)
  \/ (exists before term after,
        terms = before ++ term :: after
        /\ (forall t, In t before -> indexOf lowerContent t = -1)
        /\ indexOf lowerContent term <> -1
        /\ findMatchIndex lowerContent terms (-1) = indexOf lowerContent term).
Proof.
  induction terms as [|term rest IH]; simpl.
  - left. split; [reflexivity | intros t []].
  - destruct (indexOf lowerContent term =? -1) eqn:E; simpl.
    + apply Z.eqb_eq in E. rewrite E.
      destruct IH as [[Hm Hno] | (before & t0 & after & -> & Hb & Ht & Hm)].
      * left. split; [exact Hm|]. intros t [<- | Hin]; auto.
      * right. exists (term :: before), t0, after.
        split; [reflexivity|]. split; [|split; assumption].
        intros t [<- | Hin]; auto.
    + apply Z.eqb_neq in E. right. exists [], term, rest.
      split; [reflexivity|]. split; [intros t []|]. split; [exact E|reflexivity].
Qed.


Lemma len_nonempty (s : jsstring) : s <> [] -> (len s =? 0) = false.
Proof.
  intros H. apply Z.eqb_neq. unfold len.
  destruct s; [contradiction | simpl; lia].
Qed.

Lemma toLowerCase_length (s : jsstring) : len (toLowerCase s) = len s.
Proof. unfold len, toLowerCase. now rewrite length_map. Qed.


(** ** Terms without pattern syntax *)

Lemma tokenAt_plain (c : ascii) (r : jsstring) :
  Spec.plainChar c = true -> tokenAt (c :: r) = (TAtom, 1%nat).
Proof.
  unfold Spec.plainChar. rewrite negb_true_iff. intros H.
  repeat (apply orb_false_iff in H as [H ?]).
  unfold tokenAt.
  repeat match goal with
         | E : isChar c _ = false |- _ => rewrite E; clear E
         end.
  reflexivity.
Qed.

Lemma tokenize_plain (term rest : jsstring) :
  Forall (fun c => Spec.plainChar c = true) term ->
  tokenizeFrom 0 (term ++ rest)
  = repeat TAtom (length term) ++ tokenizeFrom 0 rest.
Proof.
  induction 1 as [|c term Hc _ IH]; [reflexivity|].
  change (tokenizeFrom 0 ((c :: term) ++ rest))
    with (let '(t, n) := tokenAt (c :: term ++ rest) in
          t :: tokenizeFrom (n - 1) (term ++ rest)).
  rewrite (tokenAt_plain c _ Hc). simpl. now rewrite IH.
Qed.

Lemma wellNested_atoms (n : nat) (q : bool) :
  wellNested [Capturing] q (repeat TAtom n ++ [TClose]) = true.
Proof. revert q. induction n as [|n IH]; intros q; simpl; auto. Qed.

Lemma groupNames_atoms (n : nat) :
  groupNames (repeat TAtom n ++ [TClose]) = [].
Proof. induction n as [|n IH]; simpl; auto. Qed.

(** A term made of plain code units, put between parentheses, is a
    pattern. *)
Lemma patternOk_plain (term : jsstring) :
  Forall (fun c => Spec.plainChar c = true) term ->
  patternOk (str "(" ++ term ++ str ")") = true.
Proof.
  intros H. unfold patternOk, tokenize.
  assert (E : tokenizeFrom 0 (str "(" ++ term ++ str ")")
              = TOpen Capturing None :: repeat TAtom (length term) ++ [TClose]).
  { change (tokenizeFrom 0 (str "(" ++ term ++ str ")"))
      with (let '(t, n) := tokenAt ("("%char :: term ++ str ")") in
            t :: tokenizeFrom (n - 1) (term ++ str ")")).
    assert (G : tokenAt ("("%char :: term ++ str ")")
                = (TOpen Capturing None, 1%nat)).
    { unfold tokenAt, groupAt, peek. simpl.
      destruct H as [|c term Hc _]; [reflexivity|]. simpl.
      unfold Spec.plainChar in Hc. rewrite negb_true_iff in Hc.
      repeat (apply orb_false_iff in Hc as [Hc ?]).
      now replace (isChar c "?") with false. }
    rewrite G. cbv beta iota. change (1 - 1)%nat with 0%nat.
    now rewrite (tokenize_plain term (str ")") H). }
  rewrite E. unfold namedRefsOk. simpl.
  now rewrite wellNested_atoms, groupNames_atoms.
Qed.

Lemma highlightTerms_plain (terms : list jsstring) (snippet : jsstring) :
  Forall (fun t => Forall (fun c => Spec.plainChar c = true) t) terms ->
  exists out, highlightTerms host terms snippet = Normal out.
Proof.
  intros H. revert snippet. induction H as [|t terms Ht _ IH]; intros snippet.
  - now exists snippet.
  - simpl. unfold highlightTerm, newRegExp.
    destruct (2 <? len t); [|apply IH].
    rewrite (patternOk_plain t Ht). apply IH.
Qed.

(** Where the claim of C3 holds: a query whose terms hold no pattern
    syntax gets its snippet. *)
Lemma getSnippet_plain_terms (content query : jsstring) :
  Forall (fun t => Forall (fun c => Spec.plainChar c = true) t)
         (queryTerms query) ->
  exists out, getSnippet host content query = Normal out.
Proof.
  intros H. unfold getSnippet.
  destruct (_ || _); [now eexists|].
  destruct (_ =? -1); [now eexists|].
  unfold windowAround. now apply highlightTerms_plain.
Qed.

(** C3.  The claim: [getSnippet] returns a string for every content and
    every query, pattern metacharacters included.  The code builds a
    regular expression from each term of more than two code units without
    escaping it: for the content "Notes on C++ templates" and the query
    "c++" the pattern is [(c++)], [new RegExp] throws a SyntaxError, and
    the exception leaves [getSnippet], [renderResults] and the input
    listener uncaught. *)
Theorem snippet_throws_on_unescaped_term :
  getSnippet host (str "Notes on C++ templates") (str "c++") = Throw SyntaxError
  /\ let opened := exec (openSearch host) Fixtures.loaded in
     Spec.search host opened (str "c++") = [Fixtures.cacheDesign]
     /\ outcome (onInput host (str "c++")) opened = Throw SyntaxError.
Proof. repeat split. Qed.

End SnippetFacts.

Section SnippetExamples.

Import Overlay Fixtures.



End SnippetExamples.

(* ================================================================== *)
(** * More about the search overlay                                    *)
(* ================================================================== *)

Section OverlayMore.

Import Overlay.

Variable host : Host.

(** What [renderResults] returns and leaves, case by case. *)
Lemma renderResults_run (s : State) :
  renderResults host s
  = if Z.of_nat (length (searchResults s)) =? 0 then
      (Normal tt,
       set_resultsView
         (if len (trim (searchQuery s)) =? 0 then ViewEmpty else ViewNoResults)
         s)
    else
      match renderItems host (searchQuery s) (selectedResultIndex s) 0
                        (searchResults s) with
      | Normal items => (Normal tt, set_resultsView (ViewList items) s)
      | Throw e => (Throw e, set_resultsView ViewEmpty s)
      end.
Proof.
  unfold renderResults, bind, modify, get, ret, lift. simpl.
  destruct (Z.of_nat (length (searchResults s)) =? 0).
  - destruct (len (trim (searchQuery s)) =? 0); reflexivity.
  - destruct (renderItems host _ _ _ _); reflexivity.
Qed.

(** Every path of [performSearch] ends in [renderResults]. *)
Lemma performSearch_run (s : State) (query : jsstring) :
  performSearch host query s
  = renderResults host
      (if len (trim query) =? 0 then set_searchResults [] s
       else set_selectedResultIndex (-1)
              (set_searchResults (Spec.resultsOf s query) s)).
Proof.
  unfold performSearch, Spec.resultsOf, fallbackSearch.
  destruct (len (trim query) =? 0); [reflexivity|].
  unfold bind at 1, get at 1.
  destruct (lunrIndex s) as [index|]; [|reflexivity].
  destruct (negb (lunrDefined s)); [reflexivity|].
  unfold bind, tryCatch, lift, get, modify.
  destruct (index (query ++ str "*")) as [refs|e]; reflexivity.
Qed.

Lemma onInput_run (s : State) (value : jsstring) :
  onInput host value s
  = renderResults host
      (let s0 := set_searchQuery value (set_inputValue value s) in
       if len (trim value) =? 0 then set_searchResults [] s0
       else set_selectedResultIndex (-1)
              (set_searchResults (Spec.resultsOf s value) s0)).
Proof.
  unfold onInput.
  change (bind _ _ s) with
    (performSearch host value (set_searchQuery value (set_inputValue value s))).
  rewrite performSearch_run. reflexivity.
Qed.

(** X1.  After a change of the query, "No results found" is shown exactly
    when the query is not blank and nothing matched: with empty results
    the handler completes and the view is empty for a blank query and the
    message otherwise; with results the message is not shown; and a blank
    query always empties the results. *)
Theorem no_results_message (s : State) (value : jsstring) :
  let s1 := exec (onInput host value) s in
  (searchResults s1 = [] ->
     outcome (onInput host value) s = Normal tt
     /\ resultsView s1
        = if len (trim value) =? 0 then ViewEmpty else ViewNoResults)
  /\ (searchResults s1 <> [] -> resultsView s1 <> ViewNoResults)
  /\ (trim value = [] -> searchResults s1 = []).
Proof.
  intros s1. subst s1. unfold exec, outcome. rewrite onInput_run.
  cbv zeta.
  match goal with |- context [renderResults host ?x] => set (s' := x) end.
  assert (Hq : searchQuery s' = value)
    by (unfold s'; simpl; destruct (len (trim value) =? 0); reflexivity).
  rewrite (renderResults_searchResults host s' : searchResults (snd _) = _).
  rewrite renderResults_run, Hq.
  split; [|split].
  - intros E. rewrite E. simpl. split; reflexivity.
  - intros E. destruct (searchResults s') as [|d r]; [contradiction|].
    change (Z.of_nat (length (d :: r)) =? 0) with false. cbv iota.
    destruct (renderItems host value (selectedResultIndex s') 0 (d :: r));
      simpl; discriminate.
  - intros Hv. unfold s'. rewrite Hv. reflexivity.
Qed.

(** X2.  An exception of the index is swallowed: the handler of the search
    box completes, the results are empty, nothing is selected, the message
    "No results found" is shown and the browser stays on the page. *)
Theorem index_exception_gives_no_results
    (s : State) (value : jsstring) (index : LunrIndex) (e : JsError) :
  lunrIndex s = Some index -> lunrDefined s = true ->
  trim value <> [] -> index (value ++ str "*") = Throw e ->
  let s1 := exec (onInput host value) s in
  outcome (onInput host value) s = Normal tt
  /\ searchResults s1 = []
  /\ selectedResultIndex s1 = -1
  /\ resultsView s1 = ViewNoResults
  /\ location s1 = location s.
Proof.
  intros Hi Hd Hv He s1. subst s1. unfold exec, outcome.
  rewrite onInput_run. cbv zeta.
  rewrite (len_nonempty _ Hv).
  assert (Hr : Spec.resultsOf s value = []).
  { unfold Spec.resultsOf. now rewrite (len_nonempty _ Hv), Hi, Hd, He. }
  rewrite Hr, renderResults_run. simpl. rewrite (len_nonempty _ Hv).
  repeat split.
Qed.

Lemma closeSearch_run (s : State) :
  closeSearch s
  = (Normal tt,
     set_selectedResultIndex (-1)
       (set_searchResults []
          (set_searchQuery []
             (set_inputValue []
                (set_overlayShown false (set_searchActive false s)))))).
Proof. reflexivity. Qed.

(** X3.  Escape while the overlay is open closes it and puts the query,
    the input, the results and the selection back to their initial values;
    the corpus, the index and the location are left alone, and the handler
    completes. *)
Theorem escape_resets_overlay (e : KeyEvent) (s : State) :
  key e = str "Escape" -> searchActive s = true ->
  let s1 := exec (onKeydown host e) s in
  outcome (onKeydown host e) s = Normal tt
  /\ searchActive s1 = false
  /\ searchQuery s1 = [] /\ inputValue s1 = []
  /\ searchResults s1 = [] /\ selectedResultIndex s1 = -1
  /\ documents s1 = documents s /\ lunrIndex s1 = lunrIndex s
  /\ location s1 = location s.
Proof.
  intros Hk Ha s1. subst s1.
  unfold exec, outcome, onKeydown, keyIs. rewrite Hk.
  unfold bind, get, ret. simpl. rewrite Ha. simpl.
  repeat split.
Qed.

(** X4.  While the overlay is closed, a key other than H and the slash,
    or a slash typed into a text field, changes nothing: Escape, the
    arrows and Enter act on an open overlay only. *)
Theorem closed_overlay_ignores_keys (e : KeyEvent) (s : State) :
  searchActive s = false ->
  keyIs e "h" = false -> keyIs e "H" = false ->
  keyIs e "/" = false \/ tagIs e "INPUT" = true \/ tagIs e "TEXTAREA" = true ->
  onKeydown host e s = (Normal tt, s).
Proof.
  intros Ha Hh HH Hs. unfold onKeydown, bind, get, ret.
  rewrite Hh, HH, Ha. simpl.
  assert (G : keyIs e "/" && true && negb (tagIs e "INPUT")
              && negb (tagIs e "TEXTAREA") = false).
  { destruct Hs as [-> | [-> | ->]]; [reflexivity| |].
    - now rewrite andb_true_r, andb_false_r.
    - now rewrite andb_false_r. }
  rewrite G. simpl. now rewrite Ha.
Qed.

(** X5.  The slash opens a closed overlay when the focus is outside a text
    field, whatever modifier is held: query, input, results and selection
    start empty and the view is cleared.  On an open overlay the slash
    changes nothing, so it can be typed into the query. *)
Theorem slash_opens_closed_overlay (e : KeyEvent) (s : State) :
  key e = str "/" ->
  (searchActive s = false ->
   tagIs e "INPUT" = false -> tagIs e "TEXTAREA" = false ->
   let s1 := exec (onKeydown host e) s in
   outcome (onKeydown host e) s = Normal tt
   /\ searchActive s1 = true
   /\ searchQuery s1 = [] /\ inputValue s1 = []
   /\ searchResults s1 = [] /\ selectedResultIndex s1 = -1
   /\ resultsView s1 = ViewEmpty
   /\ location s1 = location s)
  /\ (searchActive s = true -> onKeydown host e s = (Normal tt, s)).
Proof.
  intros Hk. split.
  - intros Ha Hi Ht s1. subst s1.
    unfold exec, outcome, onKeydown, keyIs. rewrite Hk. fold (tagIs e "INPUT").
    unfold bind at 1 2, get at 1, ret at 1. simpl.
    rewrite Ha, Hi, Ht. simpl.
    unfold openSearch, renderResults, bind, modify, get, ret, lift. simpl.
    rewrite Ha. simpl.
    repeat split.
  - intros Ha. unfold onKeydown, keyIs. rewrite Hk.
    unfold bind, get, ret. simpl. rewrite Ha. simpl. now rewrite Ha.
Qed.

(** ** Arrow keys *)

Lemma arrowDown_run (e : KeyEvent) (s : State) :
  key e = str "ArrowDown" -> searchActive s = true ->
  onKeydown host e s
  = let nextIndex := Z.min (selectedResultIndex s + 1)
                           (Z.of_nat (length (searchResults s)) - 1) in
    if 0 <=? nextIndex
    then renderResults host (set_selectedResultIndex nextIndex s)
    else (Normal tt, s).
Proof.
  intros Hk Ha. unfold onKeydown, keyIs. rewrite Hk.
  unfold bind, get, ret, modify. simpl. rewrite Ha. simpl.
  destruct (0 <=? _); reflexivity.
Qed.

Lemma arrowUp_run (e : KeyEvent) (s : State) :
  key e = str "ArrowUp" -> searchActive s = true ->
  onKeydown host e s
  = renderResults host
      (set_selectedResultIndex (Z.max (selectedResultIndex s - 1) (-1)) s).
Proof.
  intros Hk Ha. unfold onKeydown, keyIs. rewrite Hk.
  unfold bind, get, ret, modify. simpl. rewrite Ha. reflexivity.
Qed.

Lemma render_fields (s : State) :
  let s1 := snd (renderResults host s) in
  searchActive s1 = searchActive s
  /\ searchResults s1 = searchResults s
  /\ selectedResultIndex s1 = selectedResultIndex s
  /\ location s1 = location s.
Proof.
  destruct (renderResults_state host s) as [v Hv]. unfold exec in Hv.
  cbv zeta. rewrite Hv. repeat split.
Qed.

Lemma arrowUp_repeat (e : KeyEvent) (k : nat) :
  key e = str "ArrowUp" ->
  forall s, searchActive s = true -> -1 <= selectedResultIndex s ->
  let s1 := run host (repeat (Keydown e) k) s in
  searchActive s1 = true
  /\ selectedResultIndex s1 = Z.max (selectedResultIndex s - Z.of_nat k) (-1).
Proof.
  intros Hk. induction k as [|k IH]; intros s Ha Hge; cbv zeta.
  - simpl. split; [exact Ha | lia].
  - change (run host (repeat (Keydown e) (S k)) s)
      with (run host (repeat (Keydown e) k) (exec (onKeydown host e) s)).
    unfold exec. rewrite (arrowUp_run e s Hk Ha).
    destruct (render_fields
                (set_selectedResultIndex
                   (Z.max (selectedResultIndex s - 1) (-1)) s))
      as (F1 & _ & F3 & _).
    simpl in F1, F3.
    destruct (IH _ (eq_trans F1 Ha)) as [I1 I2]; [rewrite F3; lia|].
    split; [exact I1|]. rewrite I2, F3. lia.
Qed.

Lemma arrowDown_repeat (e : KeyEvent) (k : nat) :
  key e = str "ArrowDown" ->
  forall s, searchActive s = true ->
  searchResults s <> [] ->
  selectedResultIndex s <= Z.of_nat (length (searchResults s)) - 1 ->
  -1 <= selectedResultIndex s ->
  let s1 := run host (repeat (Keydown e) k) s in
  searchActive s1 = true
  /\ searchResults s1 = searchResults s
  /\ selectedResultIndex s1
     = Z.min (selectedResultIndex s + Z.of_nat k)
             (Z.of_nat (length (searchResults s)) - 1).
Proof.
  intros Hk. induction k as [|k IH]; intros s Ha Hne Hle Hge; cbv zeta.
  - simpl. repeat split; [exact Ha | lia].
  - change (run host (repeat (Keydown e) (S k)) s)
      with (run host (repeat (Keydown e) k) (exec (onKeydown host e) s)).
    unfold exec. rewrite (arrowDown_run e s Hk Ha). cbv zeta.
    assert (Hlen : 1 <= Z.of_nat (length (searchResults s)))
      by (destruct (searchResults s); [contradiction | simpl; lia]).
    replace (0 <=? Z.min (selectedResultIndex s + 1)
                         (Z.of_nat (length (searchResults s)) - 1))
      with true by (symmetry; apply Z.leb_le; lia).
    destruct (render_fields
                (set_selectedResultIndex
                   (Z.min (selectedResultIndex s + 1)
                          (Z.of_nat (length (searchResults s)) - 1)) s))
      as (F1 & F2 & F3 & _).
    simpl in F1, F2, F3.
    destruct (IH _ (eq_trans F1 Ha)) as (I1 & I2 & I3).
    + now rewrite F2.
    + rewrite F2, F3. lia.
    + rewrite F3. lia.
    + split; [exact I1|]. split; [now rewrite I2, F2|].
      rewrite I3, F2, F3. lia.
Qed.

(** X6.  In the open overlay the arrows move the selection one step at a
    time and stop at the ends: [k] presses of ArrowUp from a selection in
    range lead to [max (selected - k) (-1)], so going up from the first
    result gives "no selection" and not the last result; [k] presses of
    ArrowDown lead to [min (selected + k) (len - 1)]; with no results
    ArrowDown changes nothing. *)
Theorem overlay_arrows_clamp (eDown eUp : KeyEvent) (s : State) (k : nat) :
  key eDown = str "ArrowDown" -> key eUp = str "ArrowUp" ->
  searchActive s = true -> Spec.selectionInRange s ->
  selectedResultIndex (run host (repeat (Keydown eUp) k) s)
  = Z.max (selectedResultIndex s - Z.of_nat k) (-1)
  /\ (searchResults s <> [] ->
      selectedResultIndex (run host (repeat (Keydown eDown) k) s)
      = Z.min (selectedResultIndex s + Z.of_nat k)
              (Z.of_nat (length (searchResults s)) - 1))
  /\ (searchResults s = [] -> onKeydown host eDown s = (Normal tt, s)).
Proof.
  intros Hd Hu Ha [Hlo Hhi]. split; [|split].
  - now destruct (arrowUp_repeat eUp k Hu s Ha Hlo) as [_ H].
  - intros Hne.
    now destruct (arrowDown_repeat eDown k Hd s Ha Hne Hhi Hlo) as (_ & _ & H).
  - intros He. rewrite (arrowDown_run eDown s Hd Ha), He. cbv zeta. simpl.
    replace (0 <=? Z.min (selectedResultIndex s + 1) (Z.of_nat 0 - 1))
      with false by (symmetry; apply Z.leb_gt; lia).
    reflexivity.
Qed.

(** ** The rendered list *)

Lemma renderItems_spec (query : jsstring) (selected : Z)
    (results : list Document) :
  forall (index : Z) (items : list ResultItem),
  renderItems host query selected index results = Normal items ->
  map itemHref items = map url results
  /\ map itemTitle items = map title results
  /\ (forall i it, items !! i = Some it ->
        itemSelected it = (index + Z.of_nat i =? selected)).
Proof.
  induction results as [|d results IH]; intros index items H; simpl in H.
  - injection H as <-. repeat split. intros i it Hi. discriminate Hi.
  - destruct (getSnippet host (content d) query) as [snippet|]; [|discriminate].
    destruct (renderItems host query selected (index + 1) results)
      as [rest|] eqn:E; [|discriminate].
    injection H as <-. destruct (IH _ _ E) as (H1 & H2 & H3).
    simpl. rewrite H1, H2. repeat split.
    intros [|i] it Hi; simpl in Hi.
    + injection Hi as <-. simpl. f_equal. lia.
    + rewrite (H3 i it Hi). f_equal. lia.
Qed.

(** X7.  When rendering completes on a non-empty result list, the list
    shown has one entry per result, in order, each with the url and the
    title of its result, and the entry marked as selected is the one at
    the selected index and no other. *)
Theorem rendered_list_mirrors_results (s : State) :
  searchResults s <> [] ->
  outcome (renderResults host) s = Normal tt ->
  exists items,
    resultsView (exec (renderResults host) s) = ViewList items
    /\ map itemHref items = map url (searchResults s)
    /\ map itemTitle items = map title (searchResults s)
    /\ (forall i it, items !! i = Some it ->
          itemSelected it = (Z.of_nat i =? selectedResultIndex s)).
Proof.
  intros Hne. unfold outcome, exec. rewrite renderResults_run.
  destruct (searchResults s) as [|d r] eqn:E; [contradiction|].
  change (Z.of_nat (length (d :: r)) =? 0) with false. cbv iota.
  destruct (renderItems host (searchQuery s) (selectedResultIndex s) 0 (d :: r))
    as [items|e] eqn:R; simpl; [|discriminate].
  intros _. exists items. split; [reflexivity|].
  destruct (renderItems_spec _ _ _ _ _ R) as (H1 & H2 & H3).
  repeat split; assumption.
Qed.

(** X8.  After a query change whose rendering completed, a click on the
    [i]-th entry of the list sends the browser to the url of the [i]-th
    search result, whatever is selected; a click past the end of the list
    does nothing. *)
Theorem result_click_follows_result (s : State) (value : jsstring) (i : nat) :
  outcome (onInput host value) s = Normal tt ->
  let s1 := exec (onInput host value) s in
  exec (onResultClick i) s1
  = match searchResults s1 !! i with
    | Some d => set_location (Some (url d)) s1
    | None => s1
    end.
Proof.
  unfold outcome, exec. rewrite onInput_run. cbv zeta.
  match goal with |- context [renderResults host ?x] => set (s' := x) end.
  rewrite renderResults_run.
  destruct (searchResults s') as [|d r] eqn:E.
  - simpl. intros _. rewrite E.
    unfold onResultClick, bind, get, ret. simpl.
    destruct (len (trim (searchQuery s')) =? 0); reflexivity.
  - change (Z.of_nat (length (d :: r)) =? 0) with false. cbv iota.
    destruct (renderItems host (searchQuery s') (selectedResultIndex s') 0
                          (d :: r)) as [items|e] eqn:R; simpl; [|discriminate].
    intros _. rewrite E.
    destruct (renderItems_spec _ _ _ _ _ R) as (H1 & _ & _).
    unfold onResultClick, bind, get, ret, modify. simpl.
    assert (Hi : itemHref <$> (items !! i) = url <$> ((d :: r) !! i)).
    { apply (f_equal (fun l => l !! i)) in H1.
      now rewrite !list_lookup_fmap in H1. }
    destruct (items !! i) as [it|]; destruct ((d :: r) !! i) as [d'|];
      simpl in Hi; try discriminate; [|reflexivity].
    injection Hi as ->. reflexivity.
Qed.

(** ** Navigation *)

Lemma openSearch_run (s : State) :
  openSearch host s
  = renderResults host
      (set_selectedResultIndex (-1)
         (set_searchResults []
            (set_searchQuery []
               (set_inputValue []
                  (set_overlayShown true (set_searchActive true s)))))).
Proof. reflexivity. Qed.

Lemma buildLunrIndex_run (s : State) :
  buildLunrIndex host s
  = (Normal tt,
     if negb (lunrDefined s) || (Z.of_nat (length (documents s)) =? 0) then s
     else match lunr host (documents s) with
          | Normal index => set_lunrIndex (Some index) s
          | Throw _ => s
          end).
Proof.
  unfold buildLunrIndex, bind, get, ret, tryCatch, lift, modify.
  destruct (_ || _); [reflexivity|].
  destruct (lunr host (documents s)); reflexivity.
Qed.

Lemma location_keydown (e : KeyEvent) (target : option jsstring) :
  keyIs e "h" || keyIs e "H" || keyIs e "Enter" = false ->
  preserves (fun s => location s = target) (onKeydown host e).
Proof.
  intros H. apply orb_false_iff in H as [H He].
  apply orb_false_iff in H as [Hh HH].
  set (I := fun s' : State => location s' = target).
  assert (Hrender : preserves I (renderResults host))
    by (apply renderResults_preserves; intros v s' H'; exact H').
  unfold onKeydown. rewrite Hh, HH, He. simpl.
  apply preserves_get. intros s0 H0. revert H0.
  apply preserves_bind; [apply preserves_ret|]. intros _.
  apply preserves_bind.
  { destruct (_ && _); [|apply preserves_ret].
    intros s1 H1. unfold exec. rewrite openSearch_run.
    apply Hrender. exact H1. }
  intros _. apply preserves_get. intros s1 H1.
  destruct (negb (searchActive s1)); [exact H1|].
  destruct (keyIs e "Escape"); [exact H1|].
  destruct (keyIs e "ArrowDown").
  { destruct (0 <=? _); [|exact H1].
    revert H1. apply preserves_bind; [|intros _; exact Hrender].
    apply preserves_modify. intros s2 H2. exact H2. }
  destruct (keyIs e "ArrowUp"); [|exact H1].
  revert H1. apply preserves_bind; [|intros _; exact Hrender].
  apply preserves_modify. intros s2 H2. exact H2.
Qed.

(** X9.  Only the keys H and Enter and a click on a result can send the
    browser elsewhere: typing, the arrows, Escape, the slash, opening and
    closing the overlay and the loading of the index leave the location as
    it is, also when rendering throws. *)
Theorem only_home_enter_and_click_navigate (ev : Event) (s : State) :
  Extra.mayNavigate ev = false ->
  location (exec (handle host ev) s) = location s.
Proof.
  intros H. destruct ev as [value|e| | |b|i|data| |]; unfold handle.
  - unfold exec. rewrite onInput_run. cbv zeta.
    match goal with |- context [renderResults host ?x] =>
      destruct (render_fields x) as (_ & _ & _ & ->)
    end.
    destruct (len (trim value) =? 0); reflexivity.
  - now apply (location_keydown e (location s)).
  - unfold exec. rewrite openSearch_run.
    match goal with |- context [renderResults host ?x] =>
      now destruct (render_fields x) as (_ & _ & _ & ->)
    end.
  - unfold exec. rewrite openSearch_run.
    match goal with |- context [renderResults host ?x] =>
      now destruct (render_fields x) as (_ & _ & _ & ->)
    end.
  - destruct b; reflexivity.
  - discriminate H.
  - unfold exec, indexFetched, bind, modify. rewrite buildLunrIndex_run. simpl.
    destruct (_ || _); [reflexivity|]. destruct (lunr host data); reflexivity.
  - reflexivity.
  - unfold exec. rewrite buildLunrIndex_run. simpl.
    destruct (_ || _); [reflexivity|]. destruct (lunr host _); reflexivity.
Qed.

(** ** Building the index *)

Lemma indexFetched_exec (data : list Document) (s : State) :
  exec (handle host (IndexFetched data)) s
  = if negb (lunrDefined s) || (Z.of_nat (length data) =? 0)
    then set_documents data s
    else match lunr host data with
         | Normal index => set_lunrIndex (Some index) (set_documents data s)
         | Throw _ => set_documents data s
         end.
Proof.
  unfold handle, exec, indexFetched, bind, modify.
  rewrite buildLunrIndex_run. simpl.
  destruct (_ || _); [reflexivity|]. destruct (lunr host data); reflexivity.
Qed.

Lemma lunrWaitOver_exec (s : State) :
  exec (handle host LunrWaitOver) s
  = if negb (lunrDefined s) || (Z.of_nat (length (documents s)) =? 0) then s
    else match lunr host (documents s) with
         | Normal index => set_lunrIndex (Some index) s
         | Throw _ => s
         end.
Proof. unfold handle, exec. now rewrite buildLunrIndex_run. Qed.

Lemma run_three (a b c : Event) (s : State) :
  run host [a; b; c] s
  = exec (handle host c) (exec (handle host b) (exec (handle host a) s)).
Proof. reflexivity. Qed.

(** X10.  The index is built from the fetched corpus as soon as both the
    corpus and the library are there, whichever comes first; but when the
    wait for the library is over before the library has loaded, the corpus
    fetched before stays without an index. *)
Theorem index_is_built_in_either_order
    (data : list Document) (index : LunrIndex) (s : State) :
  data <> [] -> lunr host data = Normal index ->
  lunrIndex (run host [IndexFetched data; LunrLoaded; LunrWaitOver] s)
  = Some index
  /\ lunrIndex (run host [LunrLoaded; LunrWaitOver; IndexFetched data] s)
     = Some index
  /\ (lunrDefined s = false ->
      lunrIndex (run host [IndexFetched data; LunrWaitOver; LunrLoaded] s)
      = lunrIndex s).
Proof.
  intros Hne Hl.
  assert (Hlen : (Z.of_nat (length data) =? 0) = false)
    by (apply Z.eqb_neq; destruct data; [contradiction | simpl; lia]).
  rewrite !run_three.
  change (exec (handle host LunrLoaded)) with (set_lunrDefined true).
  rewrite !lunrWaitOver_exec, !indexFetched_exec, Hlen, Hl.
  split; [|split].
  - destruct (negb (lunrDefined s)); simpl; rewrite ?Hlen, ?Hl; reflexivity.
  - simpl.
    destruct (Z.of_nat (length (documents s)) =? 0); simpl;
      [reflexivity|].
    destruct (lunr host (documents s)); reflexivity.
  - intros Hd. rewrite Hd. simpl. rewrite Hd. reflexivity.
Qed.

(** X11.  A failed build is silent and keeps what was there: when the
    library throws on the fetched corpus, the fetch handler completes, the
    corpus is replaced and the index built before stays in use. *)
Theorem failed_build_keeps_previous_index
    (data : list Document) (e : JsError) (s : State) :
  lunr host data = Throw e ->
  handle host (IndexFetched data) s = (Normal tt, set_documents data s).
Proof.
  intros Hl. simpl. unfold indexFetched, bind, modify.
  rewrite buildLunrIndex_run. simpl. rewrite Hl.
  destruct (_ || _); reflexivity.
Qed.

End OverlayMore.

(* ================================================================== *)
(** * More about the snippet                                           *)
(* ================================================================== *)

Section SnippetMore.

Import Overlay.

Lemma substring_from_zero (s : jsstring) (n : Z) :
  0 <= n -> substring s 0 n = take (Z.to_nat n) s.
Proof.
  intros Hn. unfold substring, clampIndex, len.
  replace (Z.to_nat (Z.min (Z.max 0 0) (Z.of_nat (length s)))) with 0%nat by lia.
  rewrite Nat.min_0_l, Nat.max_0_l, Nat.sub_0_r, drop_0.
  destruct (Z_le_gt_dec n (Z.of_nat (length s))).
  - f_equal. lia.
  - rewrite !take_ge by lia. reflexivity.
Qed.

Lemma substring_length (s : jsstring) (a b : Z) :
  0 <= a <= b -> len (substring s a b) <= b - a.
Proof.
  intros H. unfold substring, clampIndex, len.
  rewrite length_take, length_drop. lia.
Qed.

Lemma findMatchIndex_range (lowerContent : jsstring) (terms : list jsstring) :
  -1 <= findMatchIndex lowerContent terms (-1) <= len lowerContent.
Proof.
  destruct (findMatchIndex_spec lowerContent terms)
    as [[-> _] | (b & t & a & _ & _ & _ & ->)].
  - unfold len. lia.
  - apply indexOf_range.
Qed.

(** X12.  When no term of the query occurs in the content, the snippet is
    the first 150 code units of the content, followed by an ellipsis when
    the content is longer; a content of at most 150 code units comes back
    unchanged.  No regular expression is built on this path, so it
    completes whatever the terms are. *)
Theorem snippet_without_match (host : Host) (content query : jsstring) :
  content <> [] -> query <> [] ->
  (forall t j, In t (queryTerms query) ->
               ~ Spec.OccursAt (toLowerCase content) t j) ->
  getSnippet host content query
  = Normal (take 150 content ++ (if 150 <? len content then str "..." else []))
  /\ (len content <= 150 -> getSnippet host content query = Normal content).
Proof.
  intros Hc Hq Hno.
  assert (Hm : snippetMatchIndex content query = -1).
  { unfold snippetMatchIndex.
    destruct (findMatchIndex_spec (toLowerCase content) (queryTerms query))
      as [[Hm _] | (b & t & a & Hs & _ & Hne & _)]; [exact Hm|].
    destruct (indexOf_least _ _ Hne) as [Hocc _].
    destruct (Hno t _ ltac:(rewrite Hs; apply in_or_app; right; now left) Hocc). }
  assert (E : getSnippet host content query
              = Normal (take 150 content
                        ++ (if 150 <? len content then str "..." else []))).
  { unfold getSnippet.
    rewrite (len_nonempty _ Hc), (len_nonempty _ Hq), Hm. simpl orb.
    cbv iota zeta. change (-1 =? -1) with true. cbv iota.
    now rewrite substring_from_zero by lia. }
  split; [exact E|].
  intros Hl. rewrite E.
  replace (150 <? len content) with false by (symmetry; apply Z.ltb_ge; lia).
  rewrite app_nil_r, take_ge; [reflexivity|]. unfold len in Hl. lia.
Qed.

Lemma highlightTerms_short (host : Host) (terms : list jsstring)
    (snippet : jsstring) :
  (forall t, In t terms -> len t <= 2) ->
  highlightTerms host terms snippet = Normal snippet.
Proof.
  induction terms as [|t terms IH]; intros H; [reflexivity|].
  simpl. unfold highlightTerm.
  replace (2 <? len t) with false
    by (symmetry; apply Z.ltb_ge; apply H; now left).
  apply IH. intros t' Hin. apply H. now right.
Qed.

(** X13.  Terms of one or two code units are never highlighted: when every
    term of the query is that short, the snippet is the plain excerpt,
    the same whatever the page's [replace] does, of at most 156 code
    units, and no exception is raised even if the terms are pattern
    syntax. *)
Theorem short_terms_are_not_highlighted (content query : jsstring) :
  (forall t, In t (queryTerms query) -> len t <= 2) ->
  exists out,
    (forall host, getSnippet host content query = Normal out)
    /\ len out <= 156.
Proof.
  intros Hshort. unfold getSnippet.
  destruct ((len content =? 0) || (len query =? 0)).
  { exists []. split; [reflexivity | unfold len; simpl; lia]. }
  pose proof (findMatchIndex_range (toLowerCase content) (queryTerms query))
    as Hr.
  rewrite toLowerCase_length in Hr. fold (snippetMatchIndex content query) in Hr.
  destruct (snippetMatchIndex content query =? -1) eqn:E.
  { eexists. split; [reflexivity|].
    unfold len. rewrite length_app, substring_from_zero by lia.
    rewrite length_take.
    destruct (150 <? _);
      [change (length (str "...")) with 3%nat
      |change (length (@nil ascii)) with 0%nat]; lia. }
  apply Z.eqb_neq in E. unfold windowAround, contextSize.
  set (m := snippetMatchIndex content query) in *.
  eexists. split.
  { intros host. now rewrite (highlightTerms_short host _ _ Hshort). }
  pose proof (substring_length content (Z.max 0 (m - 75))
                (Z.min (len content) (m + 75)) ltac:(lia)) as Hl.
  unfold len in *.
  destruct (0 <? _); destruct (_ <? Z.of_nat (length content));
    rewrite ?length_app, ?app_nil_r; simpl app;
    change (length (str "...")) with 3%nat; simpl length; lia.
Qed.

End SnippetMore.

Section SnippetMoreExamples.

Import Overlay Fixtures.

(** A page about templates searched for "cache (((". *)
Lemma snippet_without_match_witness :
  str "Notes on C++ templates" <> []
  /\ str "cache (((" <> []
  /\ getSnippet plainHost (str "Notes on C++ templates") (str "cache (((")
     = Normal (str "Notes on C++ templates").
Proof.
  split; [discriminate|]. split; [discriminate|].
  apply (snippet_without_match plainHost (str "Notes on C++ templates")
           (str "cache (((")); [discriminate | discriminate | | cbv; discriminate].
  intros t j Hin Hocc.
  assert (Hi : indexOf (toLowerCase (str "Notes on C++ templates")) t = -1)
    by (destruct Hin as [<- | [<- | []]]; reflexivity).
  rewrite indexOf_none in Hi. exact (Hi j Hocc).
Defined.

(** The query "c+ ((" on the same page. *)
Lemma short_terms_are_not_highlighted_witness :
  (forall t, In t (queryTerms (str "c+ ((")) -> len t <= 2)
  /\ exists out,
       (forall host,
          getSnippet host (str "Notes on C++ templates") (str "c+ ((")
          = Normal out)
       /\ len out <= 156.
Proof.
  assert (H : forall t, In t (queryTerms (str "c+ ((")) -> len t <= 2)
    by (intros t [<- | [<- | []]]; cbv; discriminate).
  split; [exact H|].
  exact (short_terms_are_not_highlighted (str "Notes on C++ templates")
           (str "c+ ((") H).
Defined.

End SnippetMoreExamples.

Section OverlayMoreExamples.

Import Overlay Fixtures MoreFixtures.

(** The query "zebra" matches nothing in the example corpus. *)
Lemma no_results_message_witness :
  searchResults (exec (onInput plainHost (str "zebra")) opened) = []
  /\ outcome (onInput plainHost (str "zebra")) opened = Normal tt
  /\ resultsView (exec (onInput plainHost (str "zebra")) opened)
     = ViewNoResults.
Proof.
  destruct (no_results_message plainHost opened (str "zebra")) as (H & _ & _).
  assert (E : searchResults (exec (onInput plainHost (str "zebra")) opened) = [])
    by reflexivity.
  split; [exact E|]. exact (H E).
Defined.

(** The query "cac" against an index whose search throws. *)
Lemma index_exception_gives_no_results_witness :
  lunrIndex broken = Some failingIndex
  /\ lunrDefined broken = true
  /\ trim (str "cac") <> []
  /\ failingIndex (str "cac" ++ str "*") = Throw LibraryError
  /\ outcome (onInput plainHost (str "cac")) broken = Normal tt
  /\ searchResults (exec (onInput plainHost (str "cac")) broken) = [].
Proof.
  split; [reflexivity|]. split; [reflexivity|]. split; [discriminate|].
  split; [reflexivity|].
  destruct (index_exception_gives_no_results plainHost broken (str "cac")
              failingIndex LibraryError eq_refl eq_refl ltac:(discriminate)
              eq_refl) as (H1 & H2 & _).
  split; [exact H1 | exact H2].
Defined.

(** Escape after typing "cache" and selecting the first result. *)
Lemma escape_resets_overlay_witness :
  key (press "Escape" "INPUT") = str "Escape"
  /\ searchActive selected = true
  /\ searchActive (exec (onKeydown plainHost (press "Escape" "INPUT")) selected)
     = false
  /\ selectedResultIndex
       (exec (onKeydown plainHost (press "Escape" "INPUT")) selected) = -1.
Proof.
  split; [reflexivity|]. split; [reflexivity|].
  destruct (escape_resets_overlay plainHost (press "Escape" "INPUT") selected
              eq_refl eq_refl) as (_ & H1 & _ & _ & _ & H2 & _).
  split; [exact H1 | exact H2].
Defined.

(** Enter on the closed overlay. *)
Lemma closed_overlay_ignores_keys_witness :
  searchActive loaded = false
  /\ keyIs (press "Enter" "BODY") "h" = false
  /\ keyIs (press "Enter" "BODY") "H" = false
  /\ keyIs (press "Enter" "BODY") "/" = false
  /\ onKeydown plainHost (press "Enter" "BODY") loaded = (Normal tt, loaded).
Proof.
  repeat (split; [reflexivity|]).
  apply (closed_overlay_ignores_keys plainHost (press "Enter" "BODY") loaded);
    [reflexivity | reflexivity | reflexivity | left; reflexivity].
Defined.

(** The slash on the closed overlay and on the open one. *)
Lemma slash_opens_closed_overlay_witness :
  key (press "/" "BODY") = str "/"
  /\ searchActive loaded = false
  /\ searchActive (exec (onKeydown plainHost (press "/" "BODY")) loaded) = true
  /\ searchActive selected = true
  /\ onKeydown plainHost (press "/" "INPUT") selected = (Normal tt, selected).
Proof.
  split; [reflexivity|]. split; [reflexivity|].
  destruct (slash_opens_closed_overlay plainHost (press "/" "BODY") loaded
              eq_refl) as [Hopen _].
  destruct (slash_opens_closed_overlay plainHost (press "/" "INPUT") selected
              eq_refl) as [_ Hstay].
  split; [exact (proj1 (proj2 (Hopen eq_refl eq_refl eq_refl)))|].
  split; [reflexivity | exact (Hstay eq_refl)].
Defined.

(** Five presses of ArrowDown and of ArrowUp on two results, the first one
    selected. *)
Lemma overlay_arrows_clamp_witness :
  key (press "ArrowDown" "INPUT") = str "ArrowDown"
  /\ key (press "ArrowUp" "INPUT") = str "ArrowUp"
  /\ searchActive selected = true
  /\ Spec.selectionInRange selected
  /\ selectedResultIndex
       (run plainHost (repeat (Keydown (press "ArrowUp" "INPUT")) 5) selected)
     = Z.max (selectedResultIndex selected - 5) (-1)
  /\ selectedResultIndex
       (run plainHost (repeat (Keydown (press "ArrowDown" "INPUT")) 5) selected)
     = Z.min (selectedResultIndex selected + 5)
             (Z.of_nat (length (searchResults selected)) - 1).
Proof.
  assert (R : Spec.selectionInRange selected)
    by (cbv; split; discriminate).
  split; [reflexivity|]. split; [reflexivity|]. split; [reflexivity|].
  split; [exact R|].
  destruct (overlay_arrows_clamp plainHost (press "ArrowDown" "INPUT")
              (press "ArrowUp" "INPUT") selected 5 eq_refl eq_refl eq_refl R)
    as (Hup & Hdown & _).
  split; [exact Hup | apply Hdown; discriminate].
Defined.

(** The list rendered for "cache" with the first result selected. *)
Lemma rendered_list_mirrors_results_witness :
  searchResults selected <> []
  /\ outcome (renderResults plainHost) selected = Normal tt
  /\ exists items,
       resultsView (exec (renderResults plainHost) selected) = ViewList items
       /\ map itemHref items = map url (searchResults selected).
Proof.
  split; [discriminate|]. split; [reflexivity|].
  destruct (rendered_list_mirrors_results plainHost selected
              ltac:(discriminate) eq_refl) as (items & H1 & H2 & _).
  exists items. split; [exact H1 | exact H2].
Defined.

(** A click on the second result for "cache". *)
Lemma result_click_follows_result_witness :
  outcome (onInput plainHost (str "cache")) opened = Normal tt
  /\ location (exec (onResultClick 1)
                 (exec (onInput plainHost (str "cache")) opened))
     = Some (str "/b").
Proof.
  split; [reflexivity|].
  rewrite (result_click_follows_result plainHost opened (str "cache") 1 eq_refl).
  reflexivity.
Defined.

(** Typing "c++", whose rendering throws, does not leave the page. *)
Lemma only_home_enter_and_click_navigate_witness :
  Extra.mayNavigate (Input (str "c++")) = false
  /\ location (exec (handle plainHost (Input (str "c++"))) opened)
     = location opened.
Proof.
  split; [reflexivity|].
  apply (only_home_enter_and_click_navigate plainHost (Input (str "c++")) opened).
  reflexivity.
Defined.

(** The example corpus and a library that builds. *)
Lemma index_is_built_in_either_order_witness :
  corpus <> []
  /\ lunr buildingHost corpus = Normal ranked
  /\ lunrIndex (run buildingHost
                  [IndexFetched corpus; LunrLoaded; LunrWaitOver] initial)
     = Some ranked
  /\ lunrIndex (run buildingHost
                  [LunrLoaded; LunrWaitOver; IndexFetched corpus] initial)
     = Some ranked.
Proof.
  split; [discriminate|]. split; [reflexivity|].
  destruct (index_is_built_in_either_order buildingHost corpus ranked initial
              ltac:(discriminate) eq_refl) as (H1 & H2 & _).
  split; [exact H1 | exact H2].
Defined.

(** A new corpus arrives while the library throws. *)
Lemma failed_build_keeps_previous_index_witness :
  lunr plainHost eleven = Throw LibraryError
  /\ lunrIndex (exec (handle plainHost (IndexFetched eleven)) indexed)
     = Some ranked.
Proof.
  split; [reflexivity|].
  unfold exec.
  rewrite (failed_build_keeps_previous_index plainHost eleven LibraryError
             indexed eq_refl).
  reflexivity.
Defined.

End OverlayMoreExamples.

(* ================================================================== *)
(** * More about the page-list navigator                               *)
(* ================================================================== *)

Section ListNavMore.

Import ListNav.

Lemma exec_bind {S A B} (m : Js S A) (k : A -> Js S B) (s : S) :
  exec (bind m k) s
  = match m s with
    | (Normal a, s') => exec (k a) s'
    | (Throw _, s') => s'
    end.
Proof. unfold exec, bind. destruct (m s) as [[a|e] s']; reflexivity. Qed.

(** ** The settle timer *)

Lemma timer_highlightLink (i : Z) :
  preserves Extra.timerInvariant (highlightLink i).
Proof.
  intros s H. unfold exec. rewrite highlightLink_run. simpl.
  destruct (_ && _); exact H.
Qed.

Lemma timer_cancelNumber : preserves Extra.timerInvariant cancelNumber.
Proof.
  intros s [Hs _]. unfold exec. rewrite cancelNumber_run. simpl.
  destruct Hs as [Hp | (t & Hp & Ht)].
  - destruct (numberTimeout s);
      (split; [left; simpl; now rewrite ?Hp | reflexivity]).
  - rewrite Ht. split; [|reflexivity]. left. simpl. rewrite Hp. simpl.
    now rewrite Nat.eqb_refl.
Qed.

Lemma timer_handleNumberKey (num : jsstring) :
  preserves Extra.timerInvariant (handleNumberKey num).
Proof.
  intros s [Hs _]. unfold exec. rewrite (handleNumberKey_run num s Hs). simpl.
  split; [apply singleSlot_buffered | discriminate].
Qed.

Lemma timer_settle (s : State) :
  Spec.singleSlot s -> Extra.timerInvariant (exec settle s).
Proof.
  intros Hs. unfold exec. rewrite settle_run. simpl.
  split; [|reflexivity].
  destruct (parseInt (numberBuffer s)) as [v|]; [|exact Hs].
  destruct (_ && _); exact Hs.
Qed.

Lemma timer_onKeydown (e : KeyEvent) :
  preserves Extra.timerInvariant (onKeydown e).
Proof.
  unfold onKeydown.
  destruct (_ && _); [apply preserves_ret|].
  destruct (_ || _); [apply preserves_ret|].
  apply preserves_get. intros s H. revert H.
  destruct (keyIs e "ArrowDown").
  { apply preserves_bind; [|intros _; apply timer_cancelNumber].
    destruct (_ <? _); [apply timer_highlightLink | apply preserves_ret]. }
  destruct (keyIs e "ArrowUp").
  { apply preserves_bind; [|intros _; apply timer_cancelNumber].
    destruct (_ <=? _); [apply timer_highlightLink | apply preserves_ret]. }
  destruct (_ && _).
  { intros H'. unfold exec. rewrite navigateToLink_run. simpl.
    destruct (_ && _); [|exact H']. destruct (links s !! _); exact H'. }
  destruct (_ && _); [apply timer_handleNumberKey | apply preserves_ret].
Qed.

Lemma timer_handle (ev : Event) : preserves Extra.timerInvariant (handle ev).
Proof.
  destruct ev as [e| |t]; unfold handle.
  - apply timer_onKeydown.
  - unfold onMouseMove. apply preserves_get. intros s H.
    destruct (keyboardNavActive s); exact H.
  - intros s [Hs Hb]. unfold onTimer. rewrite exec_bind. unfold get.
    destruct (existsb (Nat.eqb t) (pendingTimers s)) eqn:E; [|now split].
    rewrite exec_bind. unfold clearTimeout, bind, get, modify.
    apply timer_settle. left. simpl.
    destruct Hs as [Hp | (t' & Hp & _)]; rewrite Hp in *; [discriminate E|].
    simpl in E. rewrite orb_false_r in E. apply Nat.eqb_eq in E. subst t'.
    simpl. now rewrite Nat.eqb_refl.
Qed.

Lemma timer_run (evs : list Event) (s : State) :
  Extra.timerInvariant s -> Extra.timerInvariant (run evs s).
Proof.
  revert s. induction evs as [|ev evs IH]; intros s H; [exact H|].
  simpl. apply IH. now apply timer_handle.
Qed.

(** X14.  The settle timer is single-slot: whatever keys are pressed,
    timers fire or the mouse does, at most one timer is pending, it is the
    one [numberTimeout] names, and the buffer holds digits only while a
    timer is pending to settle them. *)
Theorem settle_timer_is_single_slot
    (hrefs : list jsstring) (evs : list Event) :
  Extra.timerInvariant (run evs (initial hrefs)).
Proof. apply timer_run. split; [now left | reflexivity]. Qed.

(** ** The highlight *)

Lemma href_unmark (l : list Link) : map href (map unmark l) = map href l.
Proof. induction l as [|x l IH]; simpl; [reflexivity | now rewrite IH]. Qed.

Lemma href_alter_mark (i : nat) (l : list Link) :
  map href (alter mark i l) = map href l.
Proof.
  revert i. induction l as [|x l IH]; intros [|i]; simpl; try reflexivity.
  f_equal. apply IH.
Qed.

Lemma highlight_linkCount (hrefs : list jsstring) (s : State) :
  Extra.highlightInvariant hrefs s -> linkCount s = Z.of_nat (length hrefs).
Proof.
  intros (H & _). unfold linkCount. now rewrite <- H, length_map.
Qed.

Lemma highlight_highlightedAt (hrefs : list jsstring) (i : Z) (s : State) :
  Extra.highlightInvariant hrefs s ->
  0 <= i < Z.of_nat (length hrefs) ->
  Extra.highlightInvariant hrefs (Spec.highlightedAt i s).
Proof.
  intros (Hh & _ & _ & _) Hi. split; [|split; [|split]].
  - simpl. now rewrite href_alter_mark, href_unmark.
  - simpl. lia.
  - simpl. intros j l Hl.
    destruct (Nat.eq_dec (Z.to_nat i) j) as [<- | Hne].
    + rewrite list_lookup_alter_eq, list_lookup_fmap in Hl.
      destruct (links s !! Z.to_nat i); [|discriminate Hl].
      injection Hl as <-. simpl. symmetry. apply Z.eqb_eq. lia.
    + rewrite list_lookup_alter_ne, list_lookup_fmap in Hl by exact Hne.
      destruct (links s !! j); [|discriminate Hl].
      injection Hl as <-. simpl. symmetry. apply Z.eqb_neq. lia.
  - discriminate.
Qed.

Lemma highlight_fields (hrefs : list jsstring) (s s' : State) :
  links s' = links s -> currentIndex s' = currentIndex s ->
  keyboardNavActive s' = keyboardNavActive s ->
  Extra.highlightInvariant hrefs s -> Extra.highlightInvariant hrefs s'.
Proof. unfold Extra.highlightInvariant. intros -> -> ->. tauto. Qed.

Lemma highlight_cancelNumber (hrefs : list jsstring) (s : State) :
  Extra.highlightInvariant hrefs s ->
  Extra.highlightInvariant hrefs (exec cancelNumber s).
Proof.
  unfold exec. rewrite cancelNumber_run. simpl.
  apply highlight_fields; destruct (numberTimeout s); reflexivity.
Qed.

Lemma highlight_settle (hrefs : list jsstring) (s : State) :
  Extra.highlightInvariant hrefs s ->
  Extra.highlightInvariant hrefs (exec settle s).
Proof.
  intros H. unfold exec. rewrite settle_run. simpl.
  pose proof (highlight_linkCount hrefs s H) as Hn.
  destruct (parseInt (numberBuffer s)) as [v|].
  - destruct ((0 <=? v - 1) && (v - 1 <? linkCount s)) eqn:E.
    + apply andb_true_iff in E as [E1 E2].
      apply Z.leb_le in E1. apply Z.ltb_lt in E2.
      eapply highlight_fields;
        [| | |apply (highlight_highlightedAt hrefs (v - 1) s H); lia];
        reflexivity.
    + eapply highlight_fields; [| | |exact H]; reflexivity.
  - eapply highlight_fields; [| | |exact H]; reflexivity.
Qed.

Lemma highlight_onKeydown (hrefs : list jsstring) (e : KeyEvent) (s : State) :
  Extra.highlightInvariant hrefs s ->
  Extra.highlightInvariant hrefs (exec (onKeydown e) s).
Proof.
  intros H. pose proof (highlight_linkCount hrefs s H) as Hn.
  pose proof H as (_ & Hc & _ & _).
  unfold onKeydown.
  destruct (_ && _); [exact H|]. destruct (_ || _); [exact H|].
  rewrite exec_bind. unfold get.
  destruct (keyIs e "ArrowDown").
  { rewrite exec_bind.
    destruct (currentIndex s + 1 <? linkCount s) eqn:E.
    - apply Z.ltb_lt in E. rewrite highlightLink_run.
      replace ((0 <=? currentIndex s + 1)
               && (currentIndex s + 1 <? linkCount s)) with true
        by (symmetry; apply andb_true_iff; split;
            [apply Z.leb_le | apply Z.ltb_lt]; lia).
      apply highlight_cancelNumber, highlight_highlightedAt; [exact H | lia].
    - now apply highlight_cancelNumber. }
  destruct (keyIs e "ArrowUp").
  { rewrite exec_bind.
    destruct (0 <=? currentIndex s - 1) eqn:E.
    - apply Z.leb_le in E. rewrite highlightLink_run.
      replace ((0 <=? currentIndex s - 1)
               && (currentIndex s - 1 <? linkCount s)) with true
        by (symmetry; apply andb_true_iff; split;
            [apply Z.leb_le | apply Z.ltb_lt]; lia).
      apply highlight_cancelNumber, highlight_highlightedAt; [exact H | lia].
    - now apply highlight_cancelNumber. }
  destruct (_ && _).
  { unfold exec. rewrite navigateToLink_run. simpl.
    destruct (_ && _); [|exact H].
    destruct (links s !! _); [|exact H].
    eapply highlight_fields; [| | |exact H]; reflexivity. }
  destruct (_ && _); [|exact H].
  assert (P : preserves (Extra.highlightInvariant hrefs)
                        (handleNumberKey (key e))).
  { unfold handleNumberKey. apply preserves_get. intros s0 H0. revert H0.
    apply preserves_bind.
    { destruct (numberTimeout s0); intros s' H'; exact H'. }
    intros _ s' H'. exact H'. }
  now apply P.
Qed.

Lemma highlight_handle (hrefs : list jsstring) (ev : Event) (s : State) :
  Extra.highlightInvariant hrefs s ->
  Extra.highlightInvariant hrefs (exec (handle ev) s).
Proof.
  intros H. destruct ev as [e| |t]; unfold handle.
  - now apply highlight_onKeydown.
  - unfold onMouseMove. rewrite exec_bind. unfold get.
    destruct (keyboardNavActive s) eqn:K; [|exact H].
    destruct H as (Hh & Hc & _ & _).
    split; [|split; [|split]]; simpl.
    + now rewrite href_unmark.
    + lia.
    + intros i l Hl. rewrite list_lookup_fmap in Hl.
      destruct (links s !! i); [|discriminate Hl].
      injection Hl as <-. simpl. symmetry. apply Z.eqb_neq. lia.
    + reflexivity.
  - unfold onTimer. rewrite exec_bind. unfold get.
    destruct (existsb _ _); [|exact H].
    rewrite exec_bind. unfold clearTimeout, bind, get, modify.
    apply highlight_settle.
    eapply highlight_fields; [| | |exact H]; reflexivity.
Qed.

Lemma highlight_run (hrefs : list jsstring) (evs : list Event) (s : State) :
  Extra.highlightInvariant hrefs s ->
  Extra.highlightInvariant hrefs (run evs s).
Proof.
  revert s. induction evs as [|ev evs IH]; intros s H; [exact H|].
  simpl. apply IH. now apply highlight_handle.
Qed.

Lemma highlight_initial (hrefs : list jsstring) :
  Extra.highlightInvariant hrefs (initial hrefs).
Proof.
  split; [|split; [|split]]; simpl.
  - rewrite map_map. simpl. apply map_id.
  - lia.
  - intros i l Hl. rewrite list_lookup_fmap in Hl.
    destruct (hrefs !! i); [|discriminate Hl]. injection Hl as <-.
    simpl. symmetry. apply Z.eqb_neq. lia.
  - reflexivity.
Qed.

(** X15.  The highlight follows the current index: whatever keys are
    pressed, timers fire or the mouse does, the links keep their targets,
    link [i] carries the highlight exactly when [i] is the current index
    (so at most one link is highlighted, and none when nothing is
    current), and outside keyboard mode nothing is current. *)
Theorem highlight_follows_current_index
    (hrefs : list jsstring) (evs : list Event) :
  Extra.highlightInvariant hrefs (run evs (initial hrefs)).
Proof. apply highlight_run, highlight_initial. Qed.

(** X16.  After a move of the mouse nothing is selected: the current index
    is [-1], no link is highlighted, and Enter does nothing, whatever
    happened before. *)
Theorem mouse_move_clears_selection
    (hrefs : list jsstring) (evs : list Event) (tag : string) :
  let s := run (evs ++ [MouseMove]) (initial hrefs) in
  currentIndex s = -1
  /\ Forall (fun l => highlighted l = false) (links s)
  /\ onKeydown (press "Enter" tag) s = (Normal tt, s).
Proof.
  intros s.
  assert (J : Extra.highlightInvariant hrefs s)
    by apply highlight_run, highlight_initial.
  assert (K : keyboardNavActive s = false).
  { unfold s, run. rewrite fold_left_app. simpl.
    fold (run evs (initial hrefs)).
    unfold onMouseMove. rewrite exec_bind. unfold get.
    destruct (keyboardNavActive (run evs (initial hrefs))) eqn:E;
      [reflexivity | exact E]. }
  destruct J as (_ & _ & Hm & Hk). pose proof (Hk K) as Hc.
  split; [exact Hc|]. split.
  - apply List.Forall_forall. intros l Hin.
    apply list_elem_of_In, list_elem_of_lookup in Hin as [i Hi].
    rewrite (Hm i l Hi), Hc. apply Z.eqb_neq. lia.
  - rewrite listnav_enter_run by reflexivity. rewrite Hc. simpl.
    destruct (_ || _); reflexivity.
Qed.

(** ** Keys *)

(** X17.  An arrow key cancels the digits typed before it: after ArrowDown
    or ArrowUp the buffer is empty and no timer is pending, so no timer
    that fires later has any effect. *)
Theorem arrow_cancels_buffered_digits (e : KeyEvent) (s : State) :
  key e = str "ArrowDown" \/ key e = str "ArrowUp" ->
  Extra.suppressed e = false ->
  Spec.singleSlot s ->
  let s1 := exec (onKeydown e) s in
  numberBuffer s1 = []
  /\ pendingTimers s1 = []
  /\ forall t, handle (TimerFired t) s1 = (Normal tt, s1).
Proof.
  intros Hk Hs Hslot s1.
  assert (E : exists u, s1 = exec cancelNumber u
                        /\ pendingTimers u = pendingTimers s
                        /\ numberTimeout u = numberTimeout s).
  { unfold s1, onKeydown. unfold Extra.suppressed in Hs.
    apply orb_false_iff in Hs as [Hs Ha]. apply orb_false_iff in Hs as [Hs Hm].
    apply orb_false_iff in Hs as [Hs Hc]. rewrite Hs, Hc, Hm, Ha. simpl.
    rewrite exec_bind. unfold get, keyIs.
    destruct Hk as [Hk | Hk]; rewrite Hk; simpl; rewrite exec_bind.
    - destruct (_ <? _); [rewrite highlightLink_run|];
        eexists; (split; [reflexivity|]);
        [destruct (_ && _)|]; split; reflexivity.
    - destruct (_ <=? _); [rewrite highlightLink_run|];
        eexists; (split; [reflexivity|]);
        [destruct (_ && _)|]; split; reflexivity. }
  destruct E as (u & -> & Hp & Ht). unfold exec. rewrite cancelNumber_run.
  assert (P : pendingTimers
                (match numberTimeout u with
                 | Some t =>
                     set_pendingTimers
                       (List.filter (fun v => negb (v =? t)%nat)
                                    (pendingTimers u))
                       (set_numberBuffer [] u)
                 | None => set_numberBuffer [] u
                 end) = []).
  { rewrite Hp, Ht. destruct Hslot as [Hq | (t & Hq & Hn)].
    - destruct (numberTimeout s); simpl; now rewrite ?Hp, Hq.
    - rewrite Hn. simpl. rewrite Hq. simpl. now rewrite Nat.eqb_refl. }
  simpl snd. split; [destruct (numberTimeout u); reflexivity|].
  split; [exact P|].
  intros t. unfold handle, onTimer, bind, get. rewrite P. reflexivity.
Qed.

(** A key pressed in a text field or with Ctrl, Meta or Alt held is not
    acted on. *)
Lemma suppressed_key_run (e : KeyEvent) (s : State) :
  Extra.suppressed e = true -> onKeydown e s = (Normal tt, s).
Proof.
  intros H. unfold onKeydown.
  destruct ((tagIs e "INPUT" || tagIs e "TEXTAREA") && negb (keyIs e "/"))
    eqn:G; [reflexivity|].
  destruct (ctrlKey e || metaKey e || altKey e) eqn:M; [reflexivity|].
  unfold Extra.suppressed in H.
  apply orb_false_iff in M as [M Ha]. apply orb_false_iff in M as [Hc Hm].
  rewrite Hc, Hm, Ha, !orb_false_r in H.
  rewrite H in G. simpl in G. apply negb_false_iff in G.
  unfold keyIs in *. apply strictEq_spec in G. rewrite G. reflexivity.
Qed.

(** A key that is no digit, arrow or Enter falls through every branch. *)
Lemma other_key_run (e : KeyEvent) (s : State)
    (c : ascii) (rest : jsstring) :
  key e = c :: rest -> isDecimalDigit c = false ->
  keyIs e "ArrowDown" = false -> keyIs e "ArrowUp" = false ->
  keyIs e "Enter" = false ->
  onKeydown e s = (Normal tt, s).
Proof.
  intros Hk Hd Hdn Hup Hen. unfold onKeydown.
  destruct (_ && _); [reflexivity|]. destruct (_ || _); [reflexivity|].
  unfold bind, get. rewrite Hdn, Hup, Hen. simpl.
  rewrite Hk. unfold geStr. simpl.
  change (code "0") with 48. change (code "9") with 57.
  unfold isDecimalDigit, between in Hd.
  destruct (48 <? code c) eqn:E1; destruct (code c <? 48) eqn:E2;
    destruct (code c <? 57) eqn:E3; destruct (57 <? code c) eqn:E4;
    try reflexivity;
    repeat match goal with
           | H : (_ <? _) = true |- _ => apply Z.ltb_lt in H
           | H : (_ <? _) = false |- _ => apply Z.ltb_ge in H
           end;
    try lia;
    apply andb_false_iff in Hd as [Hd | Hd]; apply Z.leb_gt in Hd; lia.
Qed.

(** X18.  The navigator leaves alone every key it has no use for: a key
    pressed in a text field or with Ctrl, Meta or Alt held (digits, the
    arrows and Enter included), and elsewhere a key whose name does not
    start with a digit and is not ArrowDown, ArrowUp or Enter.  The
    selection, the buffered digits and the pending timer stay as they
    were and the handler completes. *)
Theorem unused_keys_are_ignored (e : KeyEvent) (s : State) :
  Extra.suppressed e = true
  \/ (exists c rest,
        key e = c :: rest /\ isDecimalDigit c = false
        /\ keyIs e "ArrowDown" = false /\ keyIs e "ArrowUp" = false
        /\ keyIs e "Enter" = false) ->
  onKeydown e s = (Normal tt, s).
Proof.
  intros [H | (c & rest & Hk & Hd & H1 & H2 & H3)].
  - now apply suppressed_key_run.
  - now apply (other_key_run e s c rest).
Qed.

Lemma unsuppressed_guards (e : KeyEvent) :
  Extra.suppressed e = false ->
  (tagIs e "INPUT" || tagIs e "TEXTAREA") && negb (keyIs e "/") = false
  /\ ctrlKey e || metaKey e || altKey e = false.
Proof.
  unfold Extra.suppressed. intros H.
  apply orb_false_iff in H as [H Ha]. apply orb_false_iff in H as [H Hm].
  apply orb_false_iff in H as [H Hc]. now rewrite H, Hc, Hm, Ha.
Qed.

Lemma current_cancelNumber (s : State) :
  currentIndex (exec cancelNumber s) = currentIndex s.
Proof.
  unfold exec. rewrite cancelNumber_run. simpl.
  destruct (numberTimeout s); reflexivity.
Qed.

Lemma arrowDown_current (e : KeyEvent) (s : State) :
  key e = str "ArrowDown" -> Extra.suppressed e = false ->
  -1 <= currentIndex s ->
  currentIndex (exec (onKeydown e) s)
  = if currentIndex s + 1 <? linkCount s then currentIndex s + 1
    else currentIndex s.
Proof.
  intros Hk Hs Hc. destruct (unsuppressed_guards e Hs) as [G M].
  unfold onKeydown. rewrite G, M. unfold keyIs. rewrite Hk.
  rewrite exec_bind. unfold get. simpl. rewrite exec_bind.
  destruct (currentIndex s + 1 <? linkCount s) eqn:E.
  - apply Z.ltb_lt in E. rewrite highlightLink_run.
    replace ((0 <=? currentIndex s + 1)
             && (currentIndex s + 1 <? linkCount s)) with true
      by (symmetry; apply andb_true_iff; split;
          [apply Z.leb_le | apply Z.ltb_lt]; lia).
    now rewrite current_cancelNumber.
  - apply current_cancelNumber.
Qed.

Lemma arrowUp_current (e : KeyEvent) (s : State) :
  key e = str "ArrowUp" -> Extra.suppressed e = false ->
  currentIndex s <= linkCount s ->
  currentIndex (exec (onKeydown e) s)
  = if 0 <=? currentIndex s - 1 then currentIndex s - 1 else currentIndex s.
Proof.
  intros Hk Hs Hc. destruct (unsuppressed_guards e Hs) as [G M].
  unfold onKeydown. rewrite G, M. unfold keyIs. rewrite Hk.
  rewrite exec_bind. unfold get. simpl. rewrite exec_bind.
  destruct (0 <=? currentIndex s - 1) eqn:E.
  - apply Z.leb_le in E. rewrite highlightLink_run.
    replace ((0 <=? currentIndex s - 1)
             && (currentIndex s - 1 <? linkCount s)) with true
      by (symmetry; apply andb_true_iff; split;
          [apply Z.leb_le | apply Z.ltb_lt]; lia).
    now rewrite current_cancelNumber.
  - apply current_cancelNumber.
Qed.

Lemma arrowDown_steps (e : KeyEvent) (n : Z) (k : nat) :
  key e = str "ArrowDown" -> Extra.suppressed e = false ->
  forall s, Spec.inBounds n s ->
  currentIndex (run (repeat (Keydown e) k) s)
  = Z.min (currentIndex s + Z.of_nat k) (n - 1).
Proof.
  intros Hk Hs. induction k as [|k IH]; intros s [Hn Hc].
  - simpl. lia.
  - change (run (repeat (Keydown e) (S k)) s)
      with (run (repeat (Keydown e) k) (exec (handle (Keydown e)) s)).
    rewrite IH by (apply inBounds_handle; now split).
    change (handle (Keydown e)) with (onKeydown e).
    rewrite (arrowDown_current e s Hk Hs) by lia. rewrite Hn.
    destruct (currentIndex s + 1 <? n) eqn:E;
      [apply Z.ltb_lt in E | apply Z.ltb_ge in E]; lia.
Qed.

Lemma arrowUp_steps (e : KeyEvent) (n : Z) (k : nat) :
  key e = str "ArrowUp" -> Extra.suppressed e = false ->
  forall s, Spec.inBounds n s ->
  currentIndex (run (repeat (Keydown e) k) s)
  = Z.max (currentIndex s - Z.of_nat k) (Z.min (currentIndex s) 0).
Proof.
  intros Hk Hs. induction k as [|k IH]; intros s [Hn Hc].
  - simpl. lia.
  - change (run (repeat (Keydown e) (S k)) s)
      with (run (repeat (Keydown e) k) (exec (handle (Keydown e)) s)).
    rewrite IH by (apply inBounds_handle; now split).
    change (handle (Keydown e)) with (onKeydown e).
    rewrite (arrowUp_current e s Hk Hs) by lia.
    destruct (0 <=? currentIndex s - 1) eqn:E;
      [apply Z.leb_le in E | apply Z.leb_gt in E]; lia.
Qed.

(** X19.  In the list the arrows move the current index one link at a
    time and stop at the ends: [k] presses of ArrowDown lead from index
    [c] to [min (c + k) (linkCount - 1)]; [k] presses of ArrowUp lead to
    [max (c - k) 0] once a link is current, and leave "nothing current"
    as it is: going up never leads back to [-1]. *)
Theorem list_arrows_clamp (eDown eUp : KeyEvent) (s : State) (k : nat) :
  key eDown = str "ArrowDown" -> key eUp = str "ArrowUp" ->
  Extra.suppressed eDown = false -> Extra.suppressed eUp = false ->
  -1 <= currentIndex s <= linkCount s - 1 ->
  currentIndex (run (repeat (Keydown eDown) k) s)
  = Z.min (currentIndex s + Z.of_nat k) (linkCount s - 1)
  /\ currentIndex (run (repeat (Keydown eUp) k) s)
     = Z.max (currentIndex s - Z.of_nat k) (Z.min (currentIndex s) 0).
Proof.
  intros Hd Hu Sd Su Hc. split.
  - now apply arrowDown_steps.
  - now apply (arrowUp_steps eUp (linkCount s)).
Qed.

Lemma run_app (evs evs' : list Event) (s : State) :
  run (evs ++ evs') s = run evs' (run evs s).
Proof. unfold run. apply fold_left_app. Qed.

(** X20.  Typing a number, letting it settle and pressing Enter leads to
    the link with that number: from an empty buffer with no timer pending,
    the digits of [n], the firing of the timer they armed and Enter set
    the location to the target of link [n - 1]. *)
Theorem typed_number_then_enter_navigates
    (s : State) (ds : list ascii) (l : Link) :
  numberBuffer s = [] -> pendingTimers s = [] -> ds <> [] ->
  Forall (fun d => isDecimalDigit d = true) ds ->
  1 <= Spec.decimalValue ds ->
  links s !! Z.to_nat (Spec.decimalValue ds - 1) = Some l ->
  let digits := map (fun d => Keydown (Spec.digitKey d)) ds in
  exists t,
    pendingTimers (run digits s) = [t]
    /\ location (run (digits ++ [TimerFired t; Keydown (press "Enter" "BODY")]) s)
       = Some (href l).
Proof.
  intros Hb Hp Hne Hds Hn Hl digits.
  set (n := Spec.decimalValue ds) in *.
  destruct (digits_run ds Hds s (or_introl Hp))
    as (_ & H2 & H3 & _ & _ & _ & H7).
  fold digits in H2, H3, H7. set (s1 := run digits s) in *.
  destruct (H7 Hne) as [t Ht]. exists t. split; [exact Ht|].
  rewrite Hb in H2. simpl in H2.
  assert (Hlt : n - 1 < linkCount s).
  { apply lookup_lt_Some in Hl. unfold linkCount. lia. }
  rewrite run_app. fold s1.
  change (run [TimerFired t; Keydown (press "Enter" "BODY")] s1)
    with (exec (onKeydown (press "Enter" "BODY")) (exec (onTimer t) s1)).
  assert (E : exec (onTimer t) s1
              = set_numberBuffer []
                  (Spec.highlightedAt (n - 1) (set_pendingTimers [] s1))).
  { unfold exec. rewrite (onTimer_run t s1 Ht), settle_run. simpl snd.
    change (numberBuffer (set_pendingTimers [] s1)) with (numberBuffer s1).
    rewrite H2, (parseInt_digits ds Hne Hds). fold n.
    replace (linkCount (set_pendingTimers [] s1)) with (linkCount s)
      by (unfold linkCount; simpl; now rewrite H3).
    now replace ((0 <=? n - 1) && (n - 1 <? linkCount s)) with true
      by (symmetry; apply andb_true_iff; split;
          [apply Z.leb_le | apply Z.ltb_lt]; lia). }
  rewrite E. unfold exec. rewrite listnav_enter_run by reflexivity.
  simpl.
  assert (Hc : linkCount
                 (set_numberBuffer []
                    (Spec.highlightedAt (n - 1) (set_pendingTimers [] s1)))
               = linkCount s).
  { change (linkCount (Spec.highlightedAt (n - 1) (set_pendingTimers [] s1))
            = linkCount s).
    rewrite linkCount_highlightedAt. unfold linkCount. simpl. now rewrite H3. }
  rewrite Hc.
  replace ((0 <=? n - 1) && (n - 1 <? linkCount s)) with true
    by (symmetry; apply andb_true_iff; split;
        [apply Z.leb_le | apply Z.ltb_lt]; lia).
  rewrite H3, list_lookup_alter_eq, list_lookup_fmap, Hl. reflexivity.
Qed.

End ListNavMore.

Section ListNavMoreExamples.

Import ListNav Fixtures MoreFixtures.

(** ArrowDown while the digits 1 and 2 are buffered. *)
Lemma arrow_cancels_buffered_digits_witness :
  (key (press "ArrowDown" "BODY") = str "ArrowDown"
   \/ key (press "ArrowDown" "BODY") = str "ArrowUp")
  /\ Extra.suppressed (press "ArrowDown" "BODY") = false
  /\ Spec.singleSlot typing
  /\ numberBuffer typing = str "12"
  /\ numberBuffer (exec (onKeydown (press "ArrowDown" "BODY")) typing) = []
  /\ pendingTimers (exec (onKeydown (press "ArrowDown" "BODY")) typing) = [].
Proof.
  assert (Hs : Spec.singleSlot typing)
    by (right; exists 2%nat; split; reflexivity).
  split; [left; reflexivity|]. split; [reflexivity|]. split; [exact Hs|].
  split; [reflexivity|].
  destruct (arrow_cancels_buffered_digits (press "ArrowDown" "BODY") typing
              (or_introl eq_refl) eq_refl Hs) as (H1 & H2 & _).
  split; [exact H1 | exact H2].
Defined.

(** The key 5 typed into the search box, and Escape on the list. *)
Lemma unused_keys_are_ignored_witness :
  Extra.suppressed (press "5" "INPUT") = true
  /\ onKeydown (press "5" "INPUT") typing = (Normal tt, typing)
  /\ onKeydown (press "Escape" "BODY") onFirst = (Normal tt, onFirst).
Proof.
  split; [reflexivity|]. split.
  - apply (unused_keys_are_ignored (press "5" "INPUT") typing).
    left. reflexivity.
  - apply (unused_keys_are_ignored (press "Escape" "BODY") onFirst).
    right. exists "E"%char, (str "scape"). repeat split.
Defined.

(** Twenty presses of each arrow from the first of twelve links. *)
Lemma list_arrows_clamp_witness :
  key (press "ArrowDown" "BODY") = str "ArrowDown"
  /\ key (press "ArrowUp" "BODY") = str "ArrowUp"
  /\ -1 <= currentIndex onFirst <= linkCount onFirst - 1
  /\ currentIndex (run (repeat (Keydown (press "ArrowDown" "BODY")) 20) onFirst)
     = Z.min (currentIndex onFirst + 20) (linkCount onFirst - 1)
  /\ currentIndex (run (repeat (Keydown (press "ArrowUp" "BODY")) 20) onFirst)
     = Z.max (currentIndex onFirst - 20) (Z.min (currentIndex onFirst) 0).
Proof.
  assert (R : -1 <= currentIndex onFirst <= linkCount onFirst - 1)
    by (cbv; split; discriminate).
  split; [reflexivity|]. split; [reflexivity|]. split; [exact R|].
  exact (list_arrows_clamp (press "ArrowDown" "BODY") (press "ArrowUp" "BODY")
           onFirst 20 eq_refl eq_refl eq_refl eq_refl R).
Defined.

(** The keys 1 and 2, the timer and Enter on twelve links. *)
Lemma typed_number_then_enter_navigates_witness :
  numberBuffer listPage = []
  /\ pendingTimers listPage = []
  /\ 1 <= Spec.decimalValue (str "12")
  /\ links listPage !! Z.to_nat (Spec.decimalValue (str "12") - 1)
     = Some {| href := str "/p/l"; highlighted := false |}
  /\ exists t,
       location
         (run (map (fun d => Keydown (Spec.digitKey d)) (str "12")
               ++ [TimerFired t; Keydown (press "Enter" "BODY")]) listPage)
       = Some (str "/p/l").
Proof.
  assert (Hd : Forall (fun d => isDecimalDigit d = true) (str "12"))
    by (repeat constructor).
  assert (Hn : 1 <= Spec.decimalValue (str "12")) by (cbv; discriminate).
  split; [reflexivity|]. split; [reflexivity|]. split; [exact Hn|].
  split; [reflexivity|].
  destruct (typed_number_then_enter_navigates listPage (str "12")
              {| href := str "/p/l"; highlighted := false |}
              eq_refl eq_refl ltac:(discriminate) Hd Hn eq_refl)
    as (t & _ & H).
  exists t. exact H.
Defined.

End ListNavMoreExamples.

(* ================================================================== *)
(** * The top-navigation shortcuts                                     *)
(* ================================================================== *)

Section ScriptFacts.

Import Script.

(** X21.  H and U are reserved: outside text fields and with no modifier
    held, H sends the browser home and U goes back in the history when the
    page is scrolled by at most 10 pixels and scrolls to the top
    otherwise, whatever the navigation links are; U never assigns the
    location.  A section whose name starts with H or U cannot be reached
    by its letter. *)
Theorem home_and_back_keys_are_reserved (e : KeyEvent) (s : State) :
  Extra.suppressed e = false ->
  (keyIs e "h" || keyIs e "H" = true ->
     onKeydown e s = set_location (Some (str "/")) s)
  /\ (keyIs e "u" || keyIs e "U" = true ->
        onKeydown e s
        = if scrollPosition s <=? 10 then set_historyBack true s
          else set_scrolledToTop true s).
Proof.
  intros Hs. unfold Extra.suppressed in Hs.
  apply orb_false_iff in Hs as [Hs Ha]. apply orb_false_iff in Hs as [Hs Hm].
  apply orb_false_iff in Hs as [Hs Hc].
  unfold onKeydown. rewrite Hs, Hc, Hm, Ha. simpl. split.
  - now intros ->.
  - intros Hu. destruct (keyIs e "h" || keyIs e "H") eqn:Hh.
    + exfalso. unfold keyIs in *.
      apply orb_true_iff in Hh. apply orb_true_iff in Hu.
      destruct Hh as [Hh | Hh]; apply strictEq_spec in Hh; rewrite Hh in Hu;
        destruct Hu as [Hu | Hu]; discriminate Hu.
    + now rewrite Hu.
Qed.

(** X22.  A key other than H and U leads to the first navigation link,
    in document order, whose text, trimmed and in lower case, starts with
    the key in lower case; when no link does, nothing changes. *)
Theorem letter_key_follows_first_matching_link (e : KeyEvent) (s : State) :
  Extra.suppressed e = false ->
  keyIs e "h" || keyIs e "H" = false ->
  keyIs e "u" || keyIs e "U" = false ->
  let matches := fun link =>
    startsWith (toLowerCase (trim (textContent link))) (toLowerCase (key e)) in
  (forall before link after,
      navLinks s = before ++ link :: after ->
      Forall (fun l => matches l = false) before -> matches link = true ->
      onKeydown e s = set_location (Some (href link)) s)
  /\ (Forall (fun l => matches l = false) (navLinks s) -> onKeydown e s = s).
Proof.
  intros Hs Hh Hu matches. unfold Extra.suppressed in Hs.
  apply orb_false_iff in Hs as [Hs Ha]. apply orb_false_iff in Hs as [Hs Hm].
  apply orb_false_iff in Hs as [Hs Hc].
  unfold onKeydown. rewrite Hs, Hc, Hm, Ha, Hh, Hu. simpl.
  fold matches. split.
  - intros before link after Hn Hb Hl. rewrite Hn.
    replace (Z.of_nat (length (before ++ link :: after)) =? 0) with false
      by (symmetry; apply Z.eqb_neq; rewrite length_app; simpl; lia).
    assert (F : List.find matches (before ++ link :: after) = Some link).
    { clear Hn. induction Hb as [|b before Hb0 _ IH]; simpl.
      - now rewrite Hl.
      - now rewrite Hb0. }
    now rewrite F.
  - intros Hall. destruct (_ =? 0); [reflexivity|].
    assert (F : List.find matches (navLinks s) = None).
    { induction Hall as [|b l Hb0 _ IH]; simpl; [reflexivity|].
      now rewrite Hb0. }
    now rewrite F.
Qed.

End ScriptFacts.

Section ScriptExamples.

Import Script MoreFixtures.

(** H and U on a page scrolled by 300 pixels with a section "Hobbies". *)
Lemma home_and_back_keys_are_reserved_witness :
  Extra.suppressed (press "h" "BODY") = false
  /\ location (onKeydown (press "h" "BODY") topNav) = Some (str "/")
  /\ onKeydown (press "U" "BODY") topNav = set_scrolledToTop true topNav.
Proof.
  split; [reflexivity|].
  destruct (home_and_back_keys_are_reserved (press "h" "BODY") topNav eq_refl)
    as [Hh _].
  destruct (home_and_back_keys_are_reserved (press "U" "BODY") topNav eq_refl)
    as [_ Hu].
  split; [now rewrite (Hh eq_refl) | exact (Hu eq_refl)].
Defined.

(** B leads to " Blog ", the first of the two sections in B. *)
Lemma letter_key_follows_first_matching_link_witness :
  Extra.suppressed (press "B" "BODY") = false
  /\ onKeydown (press "B" "BODY") topNav
     = set_location (Some (str "/blog/")) topNav.
Proof.
  split; [reflexivity|].
  destruct (letter_key_follows_first_matching_link (press "B" "BODY") topNav
              eq_refl eq_refl eq_refl) as [H _].
  exact (H [] _ _ eq_refl (List.Forall_nil _) eq_refl).
Defined.

End ScriptExamples.

(* ================================================================== *)
(** * Queries without pattern syntax                                   *)
(* ================================================================== *)

Section PlainQueries.

Import Overlay.

Variable host : Host.

Lemma renderItems_plain (query : jsstring) (selected : Z)
    (results : list Document) :
  Forall (fun t => Forall (fun c => Spec.plainChar c = true) t)
         (queryTerms query) ->
  forall index,
  exists items,
    renderItems host query selected index results = Normal items
    /\ length items = length results.
Proof.
  intros Hp. induction results as [|d results IH]; intros index; simpl.
  - now exists [].
  - destruct (getSnippet_plain_terms host (content d) query Hp) as [out ->].
    destruct (IH (index + 1)) as (items & -> & Hl).
    eexists. split; [reflexivity|]. simpl. now rewrite Hl.
Qed.

(** X23.  A query whose terms hold no pattern syntax is always rendered:
    the handler of the search box completes, the query is recorded, and
    when something matched the view is a list with one entry per
    result. *)
Theorem plain_query_always_renders (s : State) (value : jsstring) :
  Forall (fun t => Forall (fun c => Spec.plainChar c = true) t)
         (queryTerms value) ->
  let s1 := exec (onInput host value) s in
  outcome (onInput host value) s = Normal tt
  /\ searchQuery s1 = value
  /\ (searchResults s1 <> [] ->
        exists items, resultsView s1 = ViewList items
                      /\ length items = length (searchResults s1)).
Proof.
  intros Hp s1. subst s1. unfold exec, outcome. rewrite onInput_run.
  cbv zeta.
  match goal with |- context [renderResults host ?x] => set (s' := x) end.
  assert (Hq : searchQuery s' = value)
    by (unfold s'; simpl; destruct (len (trim value) =? 0); reflexivity).
  rewrite renderResults_run, Hq.
  destruct (searchResults s') as [|d r] eqn:E.
  - simpl. repeat split; [exact Hq | now rewrite E].
  - change (Z.of_nat (length (d :: r)) =? 0) with false. cbv iota.
    destruct (renderItems_plain value (selectedResultIndex s') (d :: r) Hp 0)
      as (items & -> & Hl).
    simpl. repeat split; [exact Hq|].
    intros _. exists items. split; [reflexivity|]. now rewrite E.
Qed.

End PlainQueries.

Section PlainQueriesExamples.

Import Overlay Fixtures MoreFixtures.

(** The query "cache fill" typed into the open overlay. *)
Lemma plain_query_always_renders_witness :
  Forall (fun t => Forall (fun c => Spec.plainChar c = true) t)
         (queryTerms (str "cache fill"))
  /\ outcome (onInput plainHost (str "cache fill")) opened = Normal tt.
Proof.
  assert (H : Forall (fun t => Forall (fun c => Spec.plainChar c = true) t)
                     (queryTerms (str "cache fill")))
    by (repeat constructor).
  split; [exact H|].
  exact (proj1 (plain_query_always_renders plainHost opened (str "cache fill") H)).
Defined.

End PlainQueriesExamples.

(* ================================================================== *)
(** * The theme toggle                                                 *)
(* ================================================================== *)

Section ThemeFacts.

Import Theme.

Lemma orElse_light (x : option jsstring) :
  strictEq (orElse x (str "dark")) (str "light") = true
  <-> x = Some (str "light").
Proof.
  rewrite strictEq_spec. split.
  - destruct x as [[|c r]|]; simpl; intros H; try discriminate H.
    now rewrite H.
  - now intros ->.
Qed.

Lemma toggle_light (s : State) :
  dataTheme s = Some (str "light") ->
  toggleTheme s
  = {| dataTheme := Some (str "dark"); stored := Some (str "dark") |}.
Proof. unfold toggleTheme. now intros ->. Qed.

Lemma toggle_other (s : State) :
  dataTheme s <> Some (str "light") ->
  toggleTheme s
  = {| dataTheme := Some (str "light"); stored := Some (str "light") |}.
Proof.
  intros H. unfold toggleTheme.
  destruct (strictEq _ _) eqn:E; [|reflexivity].
  apply orElse_light in E. contradiction.
Qed.

(** X24.  A click always leaves one of the two themes, on the document
    and in the storage alike; it gives the dark theme exactly when the
    document had the light one (no theme, or an unknown one, gives light);
    and from then on two more clicks come back to the same state. *)
Theorem theme_clicks_alternate (s : State) :
  let s1 := toggleTheme s in
  (dataTheme s1 = Some (str "light") \/ dataTheme s1 = Some (str "dark"))
  /\ stored s1 = dataTheme s1
  /\ (dataTheme s1 = Some (str "dark") <-> dataTheme s = Some (str "light"))
  /\ toggleTheme (toggleTheme s1) = s1.
Proof.
  intros s1. subst s1.
  assert (D : dataTheme s = Some (str "light")
              \/ dataTheme s <> Some (str "light")).
  { destruct (strictEq (orElse (dataTheme s) (str "dark")) (str "light"))
      eqn:E.
    - left. now apply orElse_light.
    - right. intros H. apply orElse_light in H. rewrite H in E.
      discriminate E. }
  destruct D as [E | E].
  - rewrite (toggle_light s E).
    split; [now right|]. split; [reflexivity|]. split; [now split|].
    rewrite (toggle_other {| dataTheme := Some (str "dark");
                             stored := Some (str "dark") |})
      by discriminate.
    now rewrite toggle_light.
  - rewrite (toggle_other s E).
    split; [now left|]. split; [reflexivity|].
    split; [split; [discriminate | contradiction]|].
    rewrite (toggle_light {| dataTheme := Some (str "light");
                             stored := Some (str "light") |} eq_refl).
    now rewrite toggle_other.
Qed.

Lemma stored_handle (s : State) (ev : Event) :
  Extra.fromSystem ev <> None -> stored (handle s ev) = stored s.
Proof.
  destruct ev as [|m|p]; simpl; [contradiction| |]; intros _.
  - unfold onSystemChange. now destruct (negb _).
  - unfold initTheme. destruct (stored s) as [[|c r]|]; now destruct p.
Qed.

Lemma stored_run (evs : list Event) (s : State) :
  Forall (fun ev => Extra.fromSystem ev <> None) evs ->
  stored (run evs s) = stored s.
Proof.
  intros H. revert s. unfold run.
  induction H as [|ev evs Hev _ IH]; intros s; simpl; [reflexivity|].
  now rewrite IH, stored_handle.
Qed.

Lemma run_snoc (evs : list Event) (ev : Event) (s : State) :
  run (evs ++ [ev]) s = handle (run evs s) ev.
Proof. unfold run. now rewrite fold_left_app. Qed.

(** X25.  A stored theme wins over the system: while the storage holds a
    theme, changes of the system colour scheme and page loads leave the
    storage alone, leave a document that shows the stored theme
    untouched, and every page load shows the stored theme whatever the
    system prefers. *)
Theorem stored_theme_wins (s : State) (evs : list Event) :
  truthy (stored s) = true ->
  Forall (fun ev => Extra.fromSystem ev <> None) evs ->
  stored (run evs s) = stored s
  /\ (dataTheme s = stored s -> run evs s = s)
  /\ (forall prefersDark,
        dataTheme (run (evs ++ [Load prefersDark]) s) = stored s).
Proof.
  intros Ht H. split; [now apply stored_run|]. split.
  - intros Hd. revert s Ht Hd. unfold run.
    induction H as [|ev evs Hev _ IH]; intros s Ht Hd; simpl; [reflexivity|].
    assert (E : handle s ev = s).
    { destruct ev as [|m|p]; simpl in *; [contradiction| |].
      - unfold onSystemChange. now rewrite Ht.
      - unfold initTheme. destruct s as [d [[|c r]|]]; simpl in *;
          try discriminate Ht. now rewrite Hd. }
    rewrite E. now apply IH.
  - intros p. rewrite run_snoc. simpl. unfold initTheme.
    rewrite (stored_run evs s H).
    destruct (stored s) as [[|c r]|]; simpl in Ht; try discriminate Ht.
    reflexivity.
Qed.

(** X26.  With no theme stored the document follows the system: after
    any changes of the colour scheme and page loads, the theme is the one
    of the latest of them, and still nothing is stored. *)
Theorem unset_theme_follows_system
    (s : State) (evs : list Event) (ev : Event) (dark : bool) :
  truthy (stored s) = false ->
  Forall (fun ev => Extra.fromSystem ev <> None) evs ->
  Extra.fromSystem ev = Some dark ->
  dataTheme (run (evs ++ [ev]) s) = Some (Extra.themeOf dark)
  /\ stored (run (evs ++ [ev]) s) = stored s.
Proof.
  intros Ht H He. split.
  - rewrite run_snoc.
    pose proof (stored_run evs s H) as Hs.
    destruct ev as [|m|p]; simpl in He; try discriminate He;
      injection He as ->; simpl.
    + unfold onSystemChange. rewrite Hs, Ht. now destruct dark.
    + unfold initTheme. rewrite Hs.
      destruct (stored s) as [[|c r]|]; simpl in Ht; try discriminate Ht;
        now destruct dark.
  - apply stored_run. apply Forall_app. split; [exact H|].
    constructor; [|constructor]. now rewrite He.
Qed.

End ThemeFacts.

Section ThemeExamples.

Import Theme.

(** The light theme was chosen; the system turns dark and the page is
    loaded again. *)
Lemma stored_theme_wins_witness :
  let s := {| dataTheme := Some (str "light"); stored := Some (str "light") |} in
  truthy (stored s) = true
  /\ run [SystemChange true; Load true] s = s.
Proof.
  intros s. split; [reflexivity|].
  refine (proj1 (proj2 (stored_theme_wins s [SystemChange true; Load true]
                          eq_refl _)) eq_refl).
  repeat constructor; discriminate.
Defined.

(** A first visit on a light system that then turns dark. *)
Lemma unset_theme_follows_system_witness :
  let s := {| dataTheme := None; stored := None |} in
  truthy (stored s) = false
  /\ dataTheme (run ([Load false] ++ [SystemChange true]) s)
     = Some (str "dark").
Proof.
  intros s. split; [reflexivity|].
  refine (proj1 (unset_theme_follows_system s [Load false] (SystemChange true)
                   true eq_refl _ eq_refl)).
  repeat constructor; discriminate.
Defined.

End ThemeExamples.

(* ================================================================== *)
(** * Waiting for the indexing library                                 *)
(* ================================================================== *)

Section LunrWaitFacts.

Import LunrWait.

Lemma run_cleared (ticks : list (Z * bool)) (p : Poll) :
  intervalActive p = false -> run ticks p = p.
Proof.
  intros H. unfold run. induction ticks as [|t ticks IH]; simpl; [reflexivity|].
  unfold tick at 2. now rewrite H.
Qed.

Lemma run_waiting (ticks : list (Z * bool)) (p : Poll) :
  intervalActive p = true ->
  Forall (fun t => ends p t = false) ticks -> run ticks p = p.
Proof.
  intros Ha H. unfold run.
  induction H as [|t ticks Ht _ IH]; simpl; [reflexivity|].
  unfold ends in Ht. apply orb_false_iff in Ht as [Hl Hd].
  unfold tick at 2, check. now rewrite Ha, Hl, Hd.
Qed.

Lemma tick_ends (p : Poll) (t : Z * bool) :
  intervalActive p = true -> ends p t = true ->
  tick p t
  = {| start := start p; timeout := timeout p; intervalActive := false;
       callbacks := S (callbacks p);
       warned := if snd t then warned p else true |}.
Proof.
  intros Ha He. unfold tick, check. rewrite Ha.
  unfold ends in He. destruct (snd t); [reflexivity|].
  simpl in He. now rewrite He.
Qed.

(** X27.  The callback of [waitForLunr] runs at most once, and exactly at
    the first check that finds the library or finds that more than
    [timeout] milliseconds have passed: until then nothing happens, and
    at that check the interval is cleared, the callback has run once,
    and the warning is logged only if the library is still missing. *)
Theorem lunr_callback_runs_once (now timeout : Z) (ticks : list (Z * bool)) :
  let p0 := waitForLunr now timeout in
  (Forall (fun t => ends p0 t = false) ticks -> run ticks p0 = p0)
  /\ (forall before t after,
        ticks = before ++ t :: after ->
        Forall (fun t => ends p0 t = false) before -> ends p0 t = true ->
        callbacks (run ticks p0) = 1%nat
        /\ warned (run ticks p0) = negb (snd t)
        /\ intervalActive (run ticks p0) = false).
Proof.
  intros p0. split; [now apply run_waiting|].
  intros before t after -> Hb Ht.
  assert (E : run (before ++ t :: after) p0 = tick p0 t).
  { unfold run. rewrite fold_left_app. fold (run before p0).
    rewrite (run_waiting before p0 eq_refl Hb).
    change (fold_left tick (t :: after) p0) with (run after (tick p0 t)).
    apply run_cleared. now rewrite (tick_ends p0 t eq_refl Ht). }
  rewrite E, (tick_ends p0 t eq_refl Ht). simpl.
  now destruct (snd t).
Qed.

End LunrWaitFacts.

Section LunrWaitExamples.

Import LunrWait.

(** The library arrives between the first and the second check. *)
Lemma lunr_callback_runs_once_witness :
  let p0 := waitForLunr 0 defaultTimeout in
  let ticks := [(100, false); (200, true); (300, true)] in
  ends p0 (200, true) = true
  /\ callbacks (run ticks p0) = 1%nat
  /\ warned (run ticks p0) = false.
Proof.
  intros p0 ticks. split; [reflexivity|].
  destruct (lunr_callback_runs_once 0 defaultTimeout ticks) as [_ H].
  destruct (H [(100, false)] (200, true) [(300, true)] eq_refl
              ltac:(repeat constructor) eq_refl) as (H1 & H2 & _).
  split; [exact H1 | exact H2].
Defined.

End LunrWaitExamples.
